(** * VanGit: object store, staging index, tree and commit codecs

    A shallow embedding of [VanGit.py].  Python [bytes] are lists of
    integers in [0, 256); Python [str] are lists of Unicode code points.
    The file system is a record with one field per region the program
    touches, and every operation that reads or writes it runs in a small
    state-and-exception monad. *)

From Stdlib Require Import ZArith Lia List Bool String Ascii.
From stdpp Require Import base option list gmap sorting.
Import ListNotations.
#[local] Open Scope Z_scope.
Set Default Proof Using "Type".

(** ** Bytes and strings *)

Abbreviation bytes := (list Z) (only parsing).
Abbreviation str := (list Z) (only parsing).

Definition byte_ok (b : Z) : Prop := 0 <= b < 256.
Definition bytes_ok (bs : bytes) : Prop := Forall byte_ok bs.

(** A Python literal, written as a Rocq string of ASCII characters. *)
Definition py (x : string) : str :=
  map (fun a => Z.of_nat (nat_of_ascii a)) (list_ascii_of_string x).

(** ** Exceptions *)

Inductive value_error :=
| PrefixTooShort        (* find_object: fewer than two characters *)
| ObjectNotFound        (* find_object: no candidate *)
| MultipleObjects       (* find_object: two candidates or more *)
| SubsectionNotFound    (* bytes.index *)
| UnpackMismatch        (* a, b = xs with len(xs) <> 2 *)
| InvalidLiteral        (* int(s), int(s, 8) *)
| NonHexadecimal.       (* bytes.fromhex *)

Inductive assertion :=
| InvalidIndexChecksum
| InvalidIndexSignature
| UnknownIndexVersion
| EntryCountMismatch
| ObjectSizeMismatch
| NotABlob
| NotATree
| NestedPath
| PathTooLong.

Inductive exn :=
| FileNotFoundError
| ValueError (why : value_error)
| AssertionError (why : assertion)
| StructError
| UnicodeDecodeError
| UnicodeEncodeError
| ZlibError
| TypeError
| KeyError.

Inductive result (A : Type) :=
| Ok (a : A)
| Raise (e : exn).
Arguments Ok {A} a.
Arguments Raise {A} e.

#[global] Instance result_ret : MRet result := fun _ a => Ok a.
#[global] Instance result_bind : MBind result := fun _ _ k r =>
  match r with
  | Ok a => k a
  | Raise e => Raise e
  end.

Fixpoint rmap {A B} (f : A -> result B) (l : list A) : result (list B) :=
  match l with
  | [] => Ok []
  | x :: l' => y ← f x; ys ← rmap f l'; Ok (y :: ys)
  end.

(** ** Fixed-width big-endian integers ([struct] with the [!] prefix) *)

Definition be16 (x : Z) : bytes := [x / 256 mod 256; x mod 256].
Definition be32 (x : Z) : bytes :=
  [x / 16777216 mod 256; x / 65536 mod 256; x / 256 mod 256; x mod 256].
Definition be64 (x : Z) : bytes := be32 (x / 4294967296) ++ be32 (x mod 4294967296).

Fixpoint be_value (bs : bytes) (acc : Z) : Z :=
  match bs with
  | [] => acc
  | b :: bs' => be_value bs' (acc * 256 + b)
  end.

(** [struct.pack('!L', x)] and [struct.pack('!H', x)]: out-of-range
    arguments raise [struct.error]. *)
Definition pack_L (x : Z) : result bytes :=
  if (0 <=? x) && (x <? 4294967296) then Ok (be32 x) else Raise StructError.
Definition pack_H (x : Z) : result bytes :=
  if (0 <=? x) && (x <? 65536) then Ok (be16 x) else Raise StructError.

(** [struct.pack('20s', b)] truncates or pads with NUL to 20 bytes. *)
Definition pack_20s (b : bytes) : bytes :=
  firstn 20 b ++ repeat 0 (20 - length b)%nat.

(** ** SHA-1 (FIPS 180-4), the function behind [hashlib.sha1] *)

Module Sha1.

Definition w32 (x : Z) : Z := x mod 4294967296.
Definition rotl (n x : Z) : Z :=
w32 (Z.lor (Z.shiftl x n) (Z.shiftr x (32 - n))).
Definition bnot (x : Z) : Z := Z.lxor x 4294967295.

Definition pad (m : bytes) : bytes :=
let l := Z.of_nat (length m) in
m ++ [128] ++ repeat 0 (Z.to_nat ((55 - l) mod 64)) ++ be64 (8 * l).

Fixpoint words (fuel : nat) (bs : bytes) : list Z :=
match fuel with
| O => []
| S f => be_value (firstn 4 bs) 0 :: words f (skipn 4 bs)
end.

Fixpoint extend (n : nat) (win : list Z) : list Z :=
match n with
| O => []
| S n' =>
    let w := rotl 1 (Z.lxor (Z.lxor (nth 13 win 0) (nth 8 win 0))
                            (Z.lxor (nth 2 win 0) (nth 0 win 0))) in
    w :: extend n' (tl win ++ [w])
end.

Definition state := (Z * Z * Z * Z * Z)%type.

Definition f_k (t : Z) (b c d : Z) : Z * Z :=
if t <? 20 then (Z.lor (Z.land b c) (Z.land (bnot b) d), 1518500249)
else if t <? 40 then (Z.lxor (Z.lxor b c) d, 1859775393)
else if t <? 60 then
  (Z.lor (Z.lor (Z.land b c) (Z.land b d)) (Z.land c d), 2400959708)
else (Z.lxor (Z.lxor b c) d, 3395469782).

Definition round (acc : Z * state) (w : Z) : Z * state :=
let '(t, (a, b, c, d, e)) := acc in
let '(f, k) := f_k t b c d in
(t + 1, (w32 (rotl 5 a + f + e + k + w), a, rotl 30 b, c, d)).

Definition block (h : state) (blk : bytes) : state :=
let w16 := words 16 blk in
let '(h0, h1, h2, h3, h4) := h in
let '(_, (a, b, c, d, e)) := fold_left round (w16 ++ extend 64 w16) (0, h) in
(w32 (h0 + a), w32 (h1 + b), w32 (h2 + c), w32 (h3 + d), w32 (h4 + e)).

Fixpoint blocks (fuel : nat) (h : state) (bs : bytes) : state :=
match fuel with
| O => h
| S f => blocks f (block h (firstn 64 bs)) (skipn 64 bs)
end.

Definition init : state :=
(1732584193, 4023233417, 2562383102, 271733878, 3285377520).

Definition digest (m : bytes) : bytes :=
let p := pad m in
let '(h0, h1, h2, h3, h4) := blocks (length p / 64)%nat init p in
be32 h0 ++ be32 h1 ++ be32 h2 ++ be32 h3 ++ be32 h4.

End Sha1.

(** [bytes.hex()] and [bytes.fromhex]. *)
Definition hex_digit (n : Z) : Z := if n <? 10 then 48 + n else 87 + n.
Definition hex (bs : bytes) : str :=
  flat_map (fun b => [hex_digit (b / 16); hex_digit (b mod 16)]) bs.


Definition unhex_digit (c : Z) : result Z :=
  if (48 <=? c) && (c <? 58) then Ok (c - 48)
  else if (97 <=? c) && (c <? 103) then Ok (c - 87)
  else if (65 <=? c) && (c <? 71) then Ok (c - 55)
  else Raise (ValueError NonHexadecimal).

(** [bytes.fromhex] on a string of hexadecimal digit pairs (the only
    strings the program passes are digests made by [hex]). *)
Fixpoint fromhex (s : str) : result bytes :=
  match s with
  | [] => Ok []
  | hi :: lo :: s' =>
      h ← unhex_digit hi; l ← unhex_digit lo; bs ← fromhex s';
      Ok ((h * 16 + l) :: bs)
  | _ => Raise (ValueError NonHexadecimal)
  end.

(** ** UTF-8, the codec of [str.encode()] and [bytes.decode()] *)

Definition is_surrogate (c : Z) : bool := (55296 <=? c) && (c <? 57344).

Definition encode_char (c : Z) : result bytes :=
  if (0 <=? c) && (c <? 128) then Ok [c]
  else if (128 <=? c) && (c <? 2048) then
    Ok [192 + c / 64; 128 + c mod 64]
  else if (2048 <=? c) && (c <? 65536) then
    if is_surrogate c then Raise UnicodeEncodeError
    else Ok [224 + c / 4096; 128 + c / 64 mod 64; 128 + c mod 64]
  else if (65536 <=? c) && (c <? 1114112) then
    Ok [240 + c / 262144; 128 + c / 4096 mod 64; 128 + c / 64 mod 64;
        128 + c mod 64]
  else Raise UnicodeEncodeError.

Fixpoint encode (s : str) : result bytes :=
  match s with
  | [] => Ok []
  | c :: s' => b ← encode_char c; bs ← encode s'; Ok (b ++ bs)
  end.

Definition is_cont (b : Z) : bool := (128 <=? b) && (b <? 192).

Fixpoint decode (bs : bytes) : result str :=
  match bs with
  | [] => Ok []
  | b0 :: t0 =>
      if (0 <=? b0) && (b0 <? 128) then s ← decode t0; Ok (b0 :: s)
      else if (194 <=? b0) && (b0 <? 224) then
        match t0 with
        | b1 :: t1 =>
            if is_cont b1
            then s ← decode t1; Ok (((b0 - 192) * 64 + (b1 - 128)) :: s)
            else Raise UnicodeDecodeError
        | _ => Raise UnicodeDecodeError
        end
      else if (224 <=? b0) && (b0 <? 240) then
        match t0 with
        | b1 :: b2 :: t2 =>
            let c := (b0 - 224) * 4096 + (b1 - 128) * 64 + (b2 - 128) in
            if is_cont b1 && is_cont b2 && (2048 <=? c) && negb (is_surrogate c)
            then s ← decode t2; Ok (c :: s)
            else Raise UnicodeDecodeError
        | _ => Raise UnicodeDecodeError
        end
      else if (240 <=? b0) && (b0 <? 245) then
        match t0 with
        | b1 :: b2 :: b3 :: t3 =>
            let c := (b0 - 240) * 262144 + (b1 - 128) * 4096
                     + (b2 - 128) * 64 + (b3 - 128) in
            if is_cont b1 && is_cont b2 && is_cont b3
               && (65536 <=? c) && (c <? 1114112)
            then s ← decode t3; Ok (c :: s)
            else Raise UnicodeDecodeError
        | _ => Raise UnicodeDecodeError
        end
      else Raise UnicodeDecodeError
  end.

(** ** String methods *)

(** [str.isspace] for one character: the code points Python treats as
    white space in [split()] and [strip()]. *)
Definition isspace (c : Z) : bool :=
  ((9 <=? c) && (c <=? 13)) || ((28 <=? c) && (c <=? 32))
  || (c =? 133) || (c =? 160) || (c =? 5760)
  || ((8192 <=? c) && (c <=? 8202)) || (c =? 8232) || (c =? 8233)
  || (c =? 8239) || (c =? 8287) || (c =? 12288).

(** [s.split()]: maximal runs of non-space characters; [cur] holds the
    current run, reversed. *)
Fixpoint split_from (cur : str) (s : str) : list str :=
  match s with
  | [] => match cur with [] => [] | _ => [rev cur] end
  | c :: s' =>
      if isspace c
      then match cur with
           | [] => split_from [] s'
           | _ => rev cur :: split_from [] s'
           end
      else split_from (c :: cur) s'
  end.
Definition split (s : str) : list str := split_from [] s.

Fixpoint lstrip (s : str) : str :=
  match s with
  | c :: s' => if isspace c then lstrip s' else s
  | [] => []
  end.
Definition strip (s : str) : str := rev (lstrip (rev (lstrip s))).

Fixpoint startswith (s pre : list Z) : bool :=
  match pre, s with
  | [], _ => true
  | p :: pre', c :: s' => (c =? p) && startswith s' pre'
  | _ :: _, [] => false
  end.

(** [sep.join(xs)] *)
Fixpoint join (sep : str) (xs : list str) : str :=
  match xs with
  | [] => []
  | [x] => x
  | x :: xs' => x ++ sep ++ join sep xs'
  end.

(** [c in s] for a one-character [c]. *)
Definition contains (c : Z) (s : str) : bool := existsb (Z.eqb c) s.

(** [s.replace('\\', '/')] *)
Definition replace_backslash (s : str) : str :=
  map (fun c => if c =? 92 then 47 else c) s.

(** Comparison of two [str], as [<=] compares them: by code point,
    a proper prefix first. *)
Fixpoint str_le (a b : str) : bool :=
  match a, b with
  | [], _ => true
  | _ :: _, [] => false
  | x :: a', y :: b' => (x <? y) || ((x =? y) && str_le a' b')
  end.

(** ** Integers to text and back *)

Fixpoint digits_aux (fuel : nat) (base n : Z) (acc : str) : str :=
  match fuel with
  | O => acc
  | S f =>
      let acc' := (48 + n mod base) :: acc in
      if n <? base then acc' else digits_aux f base (n / base) acc'
  end.

Definition digits (base n : Z) : str :=
  digits_aux (S (Z.to_nat (Z.log2 n))) base n [].

(** ['{}'.format(n)] and ['{:o}'.format(n)] for an [int]. *)
Definition format_int (base n : Z) : str :=
  if n <? 0 then 45 :: digits base (- n) else digits base n.

(** ['{:02}'.format(n)]: zero-padded to two columns, sign first. *)
Definition format_02 (n : Z) : str :=
  if n <? 0 then format_int 10 n
  else if n <? 10 then 48 :: digits 10 n
  else digits 10 n.

Fixpoint parse_digits (base : Z) (ds : str) (acc : Z) : result Z :=
  match ds with
  | [] => Ok acc
  | d :: ds' =>
      if (48 <=? d) && (d <? 48 + base)
      then parse_digits base ds' (acc * base + (d - 48))
      else Raise (ValueError InvalidLiteral)
  end.

(** [int(s, base)] for the texts [format_int] produces: an optional
    sign followed by one digit or more.  Any other text is rejected
    (CPython also accepts a base prefix and underscores between digits,
    which no writer in this program emits). *)
Definition parse_int (base : Z) (s : str) : result Z :=
  match s with
  | [] => Raise (ValueError InvalidLiteral)
  | c :: ds =>
      if c =? 45 then
        match ds with
        | [] => Raise (ValueError InvalidLiteral)
        | _ => n ← parse_digits base ds 0; Ok (- n)
        end
      else if c =? 43 then
        match ds with
        | [] => Raise (ValueError InvalidLiteral)
        | _ => parse_digits base ds 0
        end
      else parse_digits base s 0
  end.

(** ** Slicing helpers *)

(** [bs.find(b'\x00')]: position of the first NUL, if any. *)
Fixpoint find_nul (bs : bytes) : option nat :=
  match bs with
  | [] => None
  | b :: bs' => if b =? 0 then Some O else S <$> find_nul bs'
  end.

Definition len {A} (l : list A) : Z := Z.of_nat (length l).

(** [bs[i:j]] for [0 <= i <= j]. *)
Definition slice (bs : bytes) (i j : nat) : bytes := firstn (j - i) (skipn i bs).

(** [sorted(xs, key=key)] on string keys: a stable insertion sort. *)
Section Sorting.
Context {A : Type} (key : A -> str).

Fixpoint insert_sorted (x : A) (l : list A) : list A :=
  match l with
  | [] => [x]
  | y :: l' =>
      if str_le (key x) (key y) then x :: y :: l' else y :: insert_sorted x l'
  end.

Definition sorted (l : list A) : list A := foldr insert_sorted [] l.
End Sorting.

(** ** The repository on disk *)

Module IndexEntry.
Record t := mk {
  ctime_s : Z; ctime_n : Z; mtime_s : Z; mtime_n : Z;
  dev : Z; ino : Z; mode : Z; uid : Z; gid : Z; size : Z;
  sha1 : bytes; flags : Z; path : str
}.
End IndexEntry.

(** What [os.stat] reports; the two times are already truncated to
    whole seconds, as [int(st.st_ctime)] does. *)
Record stat_result := {
  st_ctime : Z; st_mtime : Z; st_dev : Z; st_ino : Z;
  st_mode : Z; st_uid : Z; st_gid : Z; st_size : Z
}.

Record file := { f_data : bytes; f_stat : stat_result }.

(** [objects]: [.git/objects/<dir>/<name>], a directory of directories.
    [index]: [.git/index].  [master]: [.git/refs/heads/master].
    [worktree]: every other file, keyed by the path [open] is given. *)
Record repo := {
  objects : gmap str (gmap str bytes);
  index : option bytes;
  master : option bytes;
  worktree : gmap str file
}.

Inductive location :=
| IndexFile
| MasterRef
| ObjectFile (dir name : str)
| WorkFile (path : str).

(** ** State and exceptions *)

Definition M (A : Type) : Type := repo -> result A * repo.

#[global] Instance M_ret : MRet M := fun _ a s => (Ok a, s).
#[global] Instance M_bind : MBind M := fun _ _ k m s =>
  match m s with
  | (Ok a, s') => k a s'
  | (Raise e, s') => (Raise e, s')
  end.

Definition raise {A} (e : exn) : M A := fun s => (Raise e, s).
Definition lift {A} (r : result A) : M A := fun s => (r, s).
Definition assert (b : bool) (why : assertion) : M unit :=
  fun s => (if b then Ok tt else Raise (AssertionError why), s).

Definition pass : M unit := mret tt.

(** [try: m  except FileNotFoundError: h] *)
Definition except_FileNotFound {A} (m : M A) (h : M A) : M A := fun s =>
  match m s with
  | (Raise FileNotFoundError, s') => h s'
  | r => r
  end.

Definition read_file (l : location) : M bytes := fun s =>
  let found := match l with
               | IndexFile => index s
               | MasterRef => master s
               | ObjectFile d n => objects s !! d ≫= (.!! n)
               | WorkFile p => f_data <$> worktree s !! p
               end in
  (match found with Some b => Ok b | None => Raise FileNotFoundError end, s).

Definition no_stat : stat_result :=
  {| st_ctime := 0; st_mtime := 0; st_dev := 0; st_ino := 0;
     st_mode := 0; st_uid := 0; st_gid := 0; st_size := 0 |}.

(** [write_file] replaces the whole content; inside a directory that does
    not exist it raises.  (The program writes the three files under
    [.git] only.) *)
Definition write_file (l : location) (data : bytes) : M unit := fun s =>
  match l with
  | IndexFile =>
      (Ok tt, {| objects := objects s; index := Some data;
                 master := master s; worktree := worktree s |})
  | MasterRef =>
      (Ok tt, {| objects := objects s; index := index s;
                 master := Some data; worktree := worktree s |})
  | ObjectFile d n =>
      match objects s !! d with
      | Some m =>
          (Ok tt, {| objects := <[d := <[n := data]> m]> (objects s);
                     index := index s; master := master s;
                     worktree := worktree s |})
      | None => (Raise FileNotFoundError, s)
      end
  | WorkFile p =>
      let st := match worktree s !! p with
                | Some f => f_stat f
                | None => no_stat
                end in
      (Ok tt, {| objects := objects s; index := index s; master := master s;
                 worktree := <[p := {| f_data := data; f_stat := st |}]>
                               (worktree s) |})
  end.

(** [os.path.exists] of an object file. *)
Definition path_exists (d n : str) : M bool := fun s =>
  (Ok (bool_decide (is_Some (objects s !! d ≫= (.!! n)))), s).

(** [os.makedirs(dir, exist_ok=True)] of an object directory. *)
Definition makedirs (d : str) : M unit := fun s =>
  match objects s !! d with
  | Some _ => (Ok tt, s)
  | None =>
      (Ok tt, {| objects := <[d := ∅]> (objects s); index := index s;
                 master := master s; worktree := worktree s |})
  end.

(** [os.listdir] of an object directory. *)
Definition listdir (d : str) : M (list str) := fun s =>
  match objects s !! d with
  | Some m => (Ok (map fst (map_to_list m)), s)
  | None => (Raise FileNotFoundError, s)
  end.

Definition os_stat (p : str) : M stat_result := fun s =>
  match worktree s !! p with
  | Some f => (Ok (f_stat f), s)
  | None => (Raise FileNotFoundError, s)
  end.

(** The components of a path between ['/'] separators. *)
Fixpoint components_from (cur : str) (p : str) : list str :=
  match p with
  | [] => [rev cur]
  | c :: p' =>
      if c =? 47 then rev cur :: components_from [] p'
      else components_from (c :: cur) p'
  end.

Definition dot_git : str := py ".git".

(** A file that [os.walk('.')] never reaches because one of its parent
    directories is named [.git] and is pruned from [dirs]. *)
Definition under_dot_git (p : str) : bool :=
  existsb (fun d => bool_decide (d = dot_git)) (removelast (components_from [] p)).

(** [os.path.join(root, file)] for every file [os.walk('.')] yields. *)
Definition walked (s : repo) : list str :=
  map (fun p => py "./" ++ p)
      (filter (fun p => under_dot_git p = false)
              (map fst (map_to_list (worktree s)))).

Definition walk_files : M (list str) := fun s => (Ok (walked s), s).

(** ** The operations of [VanGit.py] *)

Section VanGit.

(** Library functions the program calls and this development leaves
    open: [zlib.compress], [zlib.decompress], [str.splitlines] and
    [difflib.unified_diff] (with [lineterm='']). *)
Variable zlib_compress : bytes -> bytes.
Variable zlib_decompress : bytes -> result bytes.
Variable splitlines : str -> list str.
Variable unified_diff : list str -> list str -> str -> str -> list str.

Definition hash_object (data : bytes) (object_type : str) (write : bool)
  : M str :=
  header ← lift (encode (object_type ++ py " " ++ format_int 10 (len data)));
  let full_data := header ++ [0] ++ data in
  let sha1 := hex (Sha1.digest full_data) in
  _ ← (if write then
         let d := firstn 2 sha1 in
         let n := skipn 2 sha1 in
         present ← path_exists d n;
         if (present : bool) then pass
         else _ ← makedirs d; write_file (ObjectFile d n) (zlib_compress full_data)
       else pass);
  mret sha1.

Definition find_object (sha1_prefix : str) : M location :=
  if len sha1_prefix <? 2 then raise (ValueError PrefixTooShort)
  else
    let obj_dir := firstn 2 sha1_prefix in
    let rest := skipn 2 sha1_prefix in
    names ← listdir obj_dir;
    let objects := filter (fun name => startswith name rest = true) names in
    match objects with
    | [] => raise (ValueError ObjectNotFound)
    | [name] => mret (ObjectFile obj_dir name)
    | _ :: _ :: _ => raise (ValueError MultipleObjects)
    end.

Definition read_object (sha1_prefix : str) : M (str * bytes) :=
  path ← find_object sha1_prefix;
  raw ← read_file path;
  full_data ← lift (zlib_decompress raw);
  match find_nul full_data with
  | None => raise (ValueError SubsectionNotFound)
  | Some nul_index =>
      header ← lift (decode (firstn nul_index full_data));
      match split header with
      | [obj_type; size_str] =>
          size ← lift (parse_int 10 size_str);
          let data := skipn (S nul_index) full_data in
          _ ← assert (size =? len data) ObjectSizeMismatch;
          mret (obj_type, data)
      | _ => raise (ValueError UnpackMismatch)
      end
  end.

(** *** The index file *)

Definition signature : bytes := py "DIRC".

(** [((62 + n + 8) // 8) * 8] *)
Definition entry_len (n : nat) : nat := ((62 + n + 8) / 8 * 8)%nat.

(** [struct.unpack('!LLLLLLLLLL20sH', b)] of 62 bytes followed by the
    path, already decoded. *)
Definition unpack_entry (b : bytes) (path : str) : IndexEntry.t :=
  let L i := be_value (slice b (4 * i) (4 * i + 4)) 0 in
  IndexEntry.mk (L 0%nat) (L 1%nat) (L 2%nat) (L 3%nat) (L 4%nat)
                (L 5%nat) (L 6%nat) (L 7%nat) (L 8%nat) (L 9%nat)
                (slice b 40 60) (be_value (slice b 60 62) 0) path.

(** The [while i + 62 < len(entry_data)] loop; [rest] is
    [entry_data[i:]].  Every turn consumes 64 bytes or more, so [fuel]
    as large as the data is never used up. *)
Fixpoint read_entries (fuel : nat) (rest : bytes)
  : result (list IndexEntry.t) :=
  match fuel with
  | O => Ok []
  | S fuel' =>
      if (62 <? length rest)%nat then
        match find_nul (skipn 62 rest) with
        | None => Raise (ValueError SubsectionNotFound)
        | Some n =>
            path ← decode (firstn n (skipn 62 rest));
            let entry := unpack_entry (firstn 62 rest) path in
            entries ← read_entries fuel' (skipn (entry_len n) rest);
            Ok (entry :: entries)
        end
      else Ok []
  end.

Definition parse_index (data : bytes) : result (list IndexEntry.t) :=
  let body := firstn (length data - 20) data in
  if negb (bool_decide (Sha1.digest body = skipn (length data - 20) data))
  then Raise (AssertionError InvalidIndexChecksum)
  else
    let head := firstn 12 data in
    if negb (length head =? 12)%nat then Raise StructError
    else if negb (bool_decide (slice head 0 4 = signature))
    then Raise (AssertionError InvalidIndexSignature)
    else if negb (be_value (slice head 4 8) 0 =? 2)
    then Raise (AssertionError UnknownIndexVersion)
    else
      let entry_data := skipn 12 body in
      entries ← read_entries (length entry_data) entry_data;
      if negb (len entries =? be_value (slice head 8 12) 0)
      then Raise (AssertionError EntryCountMismatch)
      else Ok entries.

Definition read_index : M (list IndexEntry.t) :=
  found ← except_FileNotFound
            (data ← read_file IndexFile; mret (Some data))
            (mret None);
  match found with
  | None => mret []
  | Some data => lift (parse_index data)
  end.

Definition pack_entry (entry : IndexEntry.t) : result bytes :=
  f0 ← pack_L (IndexEntry.ctime_s entry);
  f1 ← pack_L (IndexEntry.ctime_n entry);
  f2 ← pack_L (IndexEntry.mtime_s entry);
  f3 ← pack_L (IndexEntry.mtime_n entry);
  f4 ← pack_L (IndexEntry.dev entry);
  f5 ← pack_L (IndexEntry.ino entry);
  f6 ← pack_L (IndexEntry.mode entry);
  f7 ← pack_L (IndexEntry.uid entry);
  f8 ← pack_L (IndexEntry.gid entry);
  f9 ← pack_L (IndexEntry.size entry);
  fl ← pack_H (IndexEntry.flags entry);
  let entry_head := f0 ++ f1 ++ f2 ++ f3 ++ f4 ++ f5 ++ f6 ++ f7 ++ f8 ++ f9
                    ++ pack_20s (IndexEntry.sha1 entry) ++ fl in
  path ← encode (IndexEntry.path entry);
  let length := entry_len (length path) in
  Ok (entry_head ++ path ++ repeat 0 (length - 62 - List.length path)%nat).

Definition pack_index (entries : list IndexEntry.t) : result bytes :=
  packed_entries ← rmap pack_entry entries;
  count ← pack_L (len entries);
  let header := signature ++ be32 2 ++ count in
  let all_data := header ++ concat packed_entries in
  Ok (all_data ++ Sha1.digest all_data).

Definition write_index (entries : list IndexEntry.t) : M unit :=
  data ← lift (pack_index entries);
  write_file IndexFile data.

(** *** add *)

Definition new_entry (st : stat_result) (digest : bytes) (flags : Z)
    (path : str) : IndexEntry.t :=
  IndexEntry.mk (st_ctime st) 0 (st_mtime st) 0 (st_dev st) (st_ino st)
                (st_mode st) (st_uid st) (st_gid st) (st_size st)
                digest flags path.

Fixpoint add_loop (paths : list str) (entries : list IndexEntry.t)
  : M (list IndexEntry.t) :=
  match paths with
  | [] => mret entries
  | path :: paths' =>
      data ← read_file (WorkFile path);
      sha1 ← hash_object data (py "blob") true;
      st ← os_stat path;
      encoded ← lift (encode path);
      let flags := len encoded in
      _ ← assert (flags <? 4096) PathTooLong;
      digest ← lift (fromhex sha1);
      add_loop paths' (entries ++ [new_entry st digest flags path])
  end.

Definition add (paths : list str) : M unit :=
  let paths := map replace_backslash paths in
  all_entries ← read_index;
  let entries :=
    filter (fun e => IndexEntry.path e ∉ paths) all_entries in
  entries ← add_loop paths entries;
  write_index (sorted IndexEntry.path entries).

(** *** Trees *)

Definition tree_entry (mode : Z) (path : str) (digest : bytes)
  : result bytes :=
  mode_path ← encode (format_int 8 mode ++ py " " ++ path);
  Ok (mode_path ++ [0] ++ digest).

Definition write_tree : M str :=
  entries ← read_index;
  tree_entries ←
    lift (rmap (fun entry =>
                  if contains 47 (IndexEntry.path entry)
                  then Raise (AssertionError NestedPath)
                  else tree_entry (IndexEntry.mode entry)
                                  (IndexEntry.path entry)
                                  (IndexEntry.sha1 entry))
               entries);
  hash_object (concat tree_entries) (py "tree") true.

(** The [for _ in range(1000)] loop; [rest] is [data[i:]]. *)
Fixpoint read_tree_loop (n : nat) (rest : bytes)
  : result (list (Z * str * str)) :=
  match n with
  | O => Ok []
  | S n' =>
      match find_nul rest with
      | None => Ok []
      | Some e =>
          text ← decode (firstn e rest);
          match split text with
          | [mode_str; path] =>
              mode ← parse_int 8 mode_str;
              let digest := slice rest (e + 1) (e + 21) in
              entries ← read_tree_loop n' (skipn (e + 21) rest);
              Ok ((mode, path, hex digest) :: entries)
          | _ => Raise (ValueError UnpackMismatch)
          end
      end
  end.

Definition read_tree (sha1 : option str) (data : option bytes)
  : M (list (Z * str * str)) :=
  data ← match sha1, data with
         | Some h, _ =>
             '(obj_type, data) ← read_object h;
             _ ← assert (bool_decide (obj_type = py "tree")) NotATree;
             mret data
         | None, None => raise TypeError
         | None, Some d => mret d
         end;
  lift (read_tree_loop 1000 data).

(** *** Commits *)

Definition get_local_master_hash : M (option str) :=
  except_FileNotFound
    (data ← read_file MasterRef;
     text ← lift (decode data);
     mret (Some (strip text)))
    (mret None).

Definition default_author : str := py "MorbidArk <1482506841@qq.com>".

(** ['{} {}{:02}{:02}'.format(timestamp, sign, hours, minutes)] *)
Definition author_time (timestamp utc_offset : Z) : str :=
  format_int 10 timestamp ++ py " "
  ++ (if 0 <? utc_offset then py "+" else py "-")
  ++ format_02 (Z.abs utc_offset / 3600)
  ++ format_02 (Z.abs utc_offset / 60 mod 60).

Definition commit_lines (tree : str) (parent : option str) (author : str)
    (time : str) (message : str) : list str :=
  [py "tree" ++ tree]
  ++ match parent with
     | Some (c :: p) => [py "parent " ++ c :: p]
     | _ => []
     end
  ++ [py "author " ++ author ++ py " " ++ time;
      py "committer " ++ author ++ py " " ++ time;
      [];
      message;
      []].

(** [timestamp] is [int(time.mktime(time.localtime()))] and [timezone]
    is [time.timezone], both read from the clock by the caller. *)
Definition commit (message : str) (author : option str)
    (timestamp timezone : Z) : M str :=
  tree ← write_tree;
  parent ← get_local_master_hash;
  let author := match author with Some a => a | None => default_author end in
  let utc_offset := - timezone in
  let lines := commit_lines tree parent author
                 (author_time timestamp utc_offset) message in
  data ← lift (encode (join (py (String "010" EmptyString)) lines));
  sha1 ← hash_object data (py "commit") true;
  ref ← lift (encode (sha1 ++ py (String "010" EmptyString)));
  _ ← write_file MasterRef ref;
  mret sha1.

(** *** Status and diff *)

Definition normalize (path : str) : str :=
  let path := replace_backslash path in
  if startswith path (py "./") then skipn 2 path else path.

(** [{e.path: e for e in entries}]: a later entry replaces an earlier
    one with the same path. *)
Definition by_path (entries : list IndexEntry.t) : gmap str IndexEntry.t :=
  fold_left (fun m e => <[IndexEntry.path e := e]> m) entries ∅.

Fixpoint changed_among (entries_by_path : gmap str IndexEntry.t)
    (ps : list str) : M (list str) :=
  match ps with
  | [] => mret []
  | p :: ps' =>
      data ← read_file (WorkFile p);
      live ← hash_object data (py "blob") false;
      recorded ← match entries_by_path !! p with
                 | Some e => mret (hex (IndexEntry.sha1 e))
                 | None => raise KeyError
                 end;
      others ← changed_among entries_by_path ps';
      mret (if bool_decide (live ≠ recorded) then p :: others else others)
  end.

Definition get_status : M (list str * list str * list str) :=
  files ← walk_files;
  let paths : gset str := list_to_set (map normalize files) in
  entries ← read_index;
  let entries_by_path := by_path entries in
  let entry_paths : gset str := dom entries_by_path in
  changed ← changed_among entries_by_path (elements (paths ∩ entry_paths));
  let changed : gset str := list_to_set changed in
  let new := paths ∖ entry_paths in
  let deleted := entry_paths ∖ paths in
  mret (sorted id (elements changed), sorted id (elements new),
        sorted id (elements deleted)).

(** [diff] prints; the lines it prints are its result here. *)
Fixpoint diff_loop (entries_by_path : gmap str IndexEntry.t)
    (changed : list str) : M (list str) :=
  match changed with
  | [] => mret []
  | path :: changed' =>
      sha1 ← match entries_by_path !! path with
             | Some e => mret (hex (IndexEntry.sha1 e))
             | None => raise KeyError
             end;
      '(obj_type, data) ← read_object sha1;
      _ ← assert (bool_decide (obj_type = py "blob")) NotABlob;
      index_text ← lift (decode data);
      working ← read_file (WorkFile path);
      working_text ← lift (decode working);
      let diff_lines :=
        unified_diff (splitlines index_text) (splitlines working_text)
                     (path ++ py " (index)") (path ++ py " (working copy)") in
      let rule := match changed' with
                  | [] => []
                  | _ => [repeat 45 70]
                  end in
      more ← diff_loop entries_by_path changed';
      mret (diff_lines ++ rule ++ more)
  end.

Definition diff : M (list str) :=
  '(changed, _, _) ← get_status;
  entries ← read_index;
  diff_loop (by_path entries) changed.

End VanGit.

(** ** Notions used in the statements *)

(** An operation that leaves every file as it was, whatever it returns. *)
Definition read_only {A} (m : M A) : Prop := forall s, snd (m s) = s.

(** The file of digest [d], if it is stored. *)
Definition stored (s : repo) (d : str) : option bytes :=
  objects s !! firstn 2 d ≫= (.!! skipn 2 d).

(** How many directory entries of [d]'s shard carry [d]'s file name. *)
Definition files_named (s : repo) (d : str) : nat :=
  match objects s !! firstn 2 d with
  | Some m => length (filter (fun n => n = skipn 2 d) (map fst (map_to_list m)))
  | None => O
  end.

(** The file names in [p]'s shard that [find_object] keeps: the stored
    objects whose digest begins with [p]. *)
Definition candidates (s : repo) (p : str) : list str :=
  match objects s !! firstn 2 p with
  | Some m =>
      filter (fun name => startswith name (skipn 2 p) = true)
             (map fst (map_to_list m))
  | None => []
  end.

Definition ascii (s : str) : Prop := Forall (fun c => 0 <= c < 128) s.
Definition is_digit (base c : Z) : Prop := 48 <= c < 48 + base.
Definition no_space (s : str) : Prop := Forall (fun c => isspace c = false) s.
Definition no_nul (s : list Z) : Prop := Forall (fun c => c <> 0) s.

(** The payload [write_tree] hashes, for the triples it takes from the
    index. *)
Definition tree_payload (T : list (Z * str * bytes)) : result bytes :=
  tree_entries ←
    rmap (fun '(mode, path, digest) => tree_entry mode path digest) T;
  Ok (concat tree_entries).

(** What [read_tree] reports for a triple: the digest in hexadecimal. *)
Definition listed (t : Z * str * bytes) : Z * str * str :=
  let '(mode, path, digest) := t in (mode, path, hex digest).

(** A path without a directory separator. *)
Definition flat (t : Z * str * bytes) : Prop :=
  let '(_, path, _) := t in contains 47 path = false.

Definition triple_ok (t : Z * str * bytes) : Prop :=
  let '(mode, path, digest) := t in
  path <> [] /\ no_space path /\ no_nul path
  /\ (exists b, encode path = Ok b) /\ length digest = 20%nat.

(** The conditions under which an entry can be written and read back. *)
Definition fits32 (x : Z) : Prop := 0 <= x < 4294967296.

(** The ten fields packed as [L]. *)
Definition fields_fit (e : IndexEntry.t) : Prop :=
  fits32 (IndexEntry.ctime_s e) /\ fits32 (IndexEntry.ctime_n e)
  /\ fits32 (IndexEntry.mtime_s e) /\ fits32 (IndexEntry.mtime_n e)
  /\ fits32 (IndexEntry.dev e) /\ fits32 (IndexEntry.ino e)
  /\ fits32 (IndexEntry.mode e) /\ fits32 (IndexEntry.uid e)
  /\ fits32 (IndexEntry.gid e) /\ fits32 (IndexEntry.size e).

Definition entry_ok (e : IndexEntry.t) : Prop :=
  fields_fit e
  /\ 0 <= IndexEntry.flags e < 65536
  /\ length (IndexEntry.sha1 e) = 20%nat
  /\ no_nul (IndexEntry.path e)
  /\ exists b, encode (IndexEntry.path e) = Ok b.

(** A path whose UTF-8 form is shorter than 4096 bytes, so that its
    length fits the low 12 bits of [flags]. *)
Definition path_fits (p : str) : Prop :=
  exists b, encode p = Ok b /\ len b < 4096.

Definition short_path (p : str) : Prop := p <> [] /\ path_fits p.

(** The 62 bytes [struct.pack] makes of an entry. *)
Definition entry_head (e : IndexEntry.t) : bytes :=
  be32 (IndexEntry.ctime_s e) ++ be32 (IndexEntry.ctime_n e)
  ++ be32 (IndexEntry.mtime_s e) ++ be32 (IndexEntry.mtime_n e)
  ++ be32 (IndexEntry.dev e) ++ be32 (IndexEntry.ino e)
  ++ be32 (IndexEntry.mode e) ++ be32 (IndexEntry.uid e)
  ++ be32 (IndexEntry.gid e) ++ be32 (IndexEntry.size e)
  ++ IndexEntry.sha1 e ++ be16 (IndexEntry.flags e).

(** Ascending order of the keys, as [sorted] leaves a list. *)
Definition ascending {A} (key : A -> str) (l : list A) : Prop :=
  Sorted (fun a b => str_le (key a) (key b) = true) l.

Definition sorted_by_path (entries : list IndexEntry.t) : Prop :=
  ascending IndexEntry.path entries.

(** The digest of ["<kind> <len>\0<data>"], for a kind written in ASCII. *)
Definition object_digest (kind : str) (data : bytes) : str :=
  hex (Sha1.digest (kind ++ py " " ++ format_int 10 (len data) ++ [0] ++ data)).

(** The digest [hash_object] gives a blob. *)
Definition blob_digest (data : bytes) : str := object_digest (py "blob") data.

(** The paths [get_status] finds in the working directory. *)
Definition live_paths (s : repo) : gset str :=
  list_to_set (map normalize (walked s)).

(** A file name that lies inside a directory named [.git]: it begins
    with [.git/], or has [/.git/] somewhere in it. *)
Definition inside_dot_git (k : str) : Prop :=
  exists pre rest,
    k = pre ++ py ".git/" ++ rest
    /\ (pre = [] \/ exists pre', pre = pre' ++ py "/").

(** The paths of the working directory, said without reference to the
    program: the names of the files that lie outside every [.git]
    directory, with each backslash (92) written as a slash (47). *)
Definition working_path (s : repo) (p : str) : Prop :=
  exists k,
    is_Some (worktree s !! k) /\ ~ inside_dot_git k
    /\ p = map (fun c => if c =? 92 then 47 else c) k.

(** The digest the index records for a path, in hexadecimal. *)
Definition recorded (entries : list IndexEntry.t) (p : str) : option str :=
  (fun e => hex (IndexEntry.sha1 e)) <$> by_path entries !! p.

(** A repository right after [init]. *)
Definition fresh_repo : repo :=
  {| objects := ∅; index := None; master := None; worktree := ∅ |}.

(** Whether the live content of [p] hashes to something else than the
    index records. *)
Definition differs (s : repo) (entries : list IndexEntry.t) (p : str) : bool :=
  match worktree s !! p, recorded entries p with
  | Some f, Some d => bool_decide (blob_digest (f_data f) ≠ d)
  | _, _ => false
  end.

(** Ascending with no path twice. *)
Definition strictly_ascending (l : list str) : Prop :=
  ascending id l /\ NoDup l.

(** The entry [add] makes for the file [f] at [path]. *)
Definition added_entry (f : file) (path : str) (e : IndexEntry.t) : Prop :=
  exists encoded digest,
    encode path = Ok encoded
    /\ fromhex (blob_digest (f_data f)) = Ok digest
    /\ e = new_entry (f_stat f) digest (len encoded) path.

(** The line feed that joins the lines of a commit and ends the branch
    file. *)
Definition nl : str := py (String "010" EmptyString).

Definition is_hex_char (c : Z) : Prop := 48 <= c <= 57 \/ 97 <= c <= 102.

(** The text of a commit object. *)
Definition commit_text (lines : list str) : result bytes := encode (join nl lines).

(** ["author <author> <time>"] and ["committer <author> <time>"]. *)
Definition author_line (author : option str) (timestamp timezone : Z) : str :=
  py "author " ++ default default_author author ++ py " "
  ++ author_time timestamp (- timezone).
Definition committer_line (author : option str) (timestamp timezone : Z) : str :=
  py "committer " ++ default default_author author ++ py " "
  ++ author_time timestamp (- timezone).

(** ** Sample inputs *)

(** Stand-ins for [zlib.compress] and [zlib.decompress] where an example
    has to run; no statement depends on the compressed form. *)
Definition no_compression (b : bytes) : bytes := b.
Definition no_decompression (b : bytes) : result bytes := Ok b.

Definition sample_stat : stat_result :=
  {| st_ctime := 1700000000; st_mtime := 1700000001; st_dev := 2049;
     st_ino := 131; st_mode := 33188; st_uid := 1000; st_gid := 1000;
     st_size := 3 |}.

Definition sample_file (text : string) : file :=
  {| f_data := py text ++ nl; f_stat := sample_stat |}.

Definition sample_entry (flags : Z) (name : string) : IndexEntry.t :=
  IndexEntry.mk 1700000000 0 1700000001 0 2049 131 33188 1000 1000 3
                (Sha1.digest (py name)) flags (py name).

(** A tree of [n] files named [a] with the same content. *)
Definition wide_tree (n : nat) : list (Z * str * bytes) :=
  repeat (33188, py "a", Sha1.digest (py "a")) n.

(** A tree with one file whose name has a space in it. *)
Definition spaced_tree : list (Z * str * bytes) :=
  [(33188, py "a b", Sha1.digest (py "a b"))].

(** A repository holding one blob and nothing else. *)
Definition one_blob_repo : repo :=
  snd (hash_object no_compression (py "hi" ++ nl) (py "blob") true fresh_repo).

(** The example of the specification: [a] and [c] are tracked, then [c]
    is removed from the working directory and [b] is created. *)
Definition tracked_repo : repo :=
  snd (add no_compression [py "a"; py "c"]
           {| objects := ∅; index := None; master := None;
              worktree := list_to_map [(py "a", sample_file "one");
                                       (py "c", sample_file "two")] |}).

Definition example_repo : repo :=
  {| objects := objects tracked_repo; index := index tracked_repo;
     master := master tracked_repo;
     worktree := list_to_map [(py "a", sample_file "one");
                              (py "b", sample_file "three")] |}.


(** The same with [a] edited. *)
Definition edited_repo : repo :=
  {| objects := objects tracked_repo; index := index tracked_repo;
     master := master tracked_repo;
     worktree := list_to_map [(py "a", sample_file "one more");
                              (py "b", sample_file "three")] |}.

(** Two commits in a row, the first in a repository without a branch
    file. *)
Definition first_commit : result str * repo :=
  commit no_compression (py "first") None 1700000000 (-28800) tracked_repo.
Definition first_digest : str :=
  match fst first_commit with Ok d => d | Raise _ => [] end.
Definition second_commit : result str * repo :=
  commit no_compression (py "second") (Some (py "A U Thor <a@example.com>"))
         1700000060 18000 (snd first_commit).
Definition second_digest : str :=
  match fst second_commit with Ok d => d | Raise _ => [] end.

(** A working directory with the one file [a]. *)
Definition one_file_repo : repo :=
  {| objects := ∅; index := None; master := None;
     worktree := {[ py "a" := sample_file "one" ]} |}.

(** Whether changing byte [i] of an index file to [b] is caught by the
    checksum comparison of [read_index]. *)
Definition caught (file : bytes) (i : nat) (b : Z) : bool :=
  match parse_index (<[i := b]> file) with
  | Raise (AssertionError InvalidIndexChecksum) => true
  | _ => false
  end.

(** At every position of [file], flipping the lowest bit, the highest
    bit or all eight bits of the byte is caught. *)
Definition all_flips_caught (file : bytes) : bool :=
  forallb (fun i =>
             match file !! i with
             | Some x =>
                 forallb (fun mask => caught file i (Z.lxor x mask))
                         [1; 128; 255]
             | None => true
             end)
          (seq 0 (length file)).

(** The index file of an empty index: header and digest, 32 bytes. *)
Definition empty_index_file : bytes :=
  match pack_index [] with Ok file => file | Raise _ => [] end.

(** The tree the first commit points to. *)
Definition first_tree : str :=
  match fst (write_tree no_compression tracked_repo) with
  | Ok tree => tree
  | Raise _ => []
  end.

(** ** Further notions used in the statements *)

(** Every file name in the shard of digest [d] has the 38 characters
    [hash_object] gives its files. *)
Definition shard_names_full (s : repo) (d : str) : Prop :=
  forall m name,
    objects s !! firstn 2 d = Some m -> is_Some (m !! name) ->
    length name = 38%nat.

(** A kind tag: one word of ASCII. *)
Definition kind_word (kind : str) : Prop :=
  kind <> [] /\ ascii kind /\ no_space kind /\ no_nul kind.

(** A repository whose index file is the empty index with the last byte
    of its digest set to zero. *)
Definition damaged_repo : repo :=
  {| objects := ∅; index := Some (<[31%nat := 0]> empty_index_file);
     master := None; worktree := ∅ |}.

(** A repository whose index file is nothing but the digest of the empty
    string: the checksum is right and there is no header. *)
Definition digest_only_repo : repo :=
  {| objects := ∅; index := Some ([] ++ Sha1.digest []);
     master := None; worktree := ∅ |}.

(** An index file with the one entry [a/b], as [add a/b] leaves it. *)
Definition nested_index_file : bytes :=
  match pack_index [sample_entry 3 "a/b"] with
  | Ok file => file
  | Raise _ => []
  end.

Definition nested_repo : repo :=
  {| objects := ∅; index := Some nested_index_file;
     master := None; worktree := ∅ |}.

(** The exceptions [read_index] can raise: its four assertions, the
    [ValueError] of [bytes.index] when no NUL ends a path, and the error
    of decoding a path. *)
Definition index_error (e : exn) : Prop :=
  e = AssertionError InvalidIndexChecksum
  \/ e = AssertionError InvalidIndexSignature
  \/ e = AssertionError UnknownIndexVersion
  \/ e = AssertionError EntryCountMismatch
  \/ e = ValueError SubsectionNotFound
  \/ e = UnicodeDecodeError.

(** The triple [write_tree] takes from an index entry. *)
Definition tree_triple (e : IndexEntry.t) : Z * str * bytes :=
  (IndexEntry.mode e, IndexEntry.path e, IndexEntry.sha1 e).

(** An index file with the one entry [a], and a repository that has
    this index and no object yet. *)
Definition flat_index_file : bytes :=
  match pack_index [sample_entry 1 "a"] with
  | Ok file => file
  | Raise _ => []
  end.

Definition flat_repo : repo :=
  {| objects := ∅; index := Some flat_index_file;
     master := None; worktree := ∅ |}.

(** ** The two printing commands *)

(** ['{:6o}'.format(n)]: octal, right-aligned in six columns. *)
Definition format_6o (n : Z) : str :=
  let text := format_int 8 n in
  repeat 32 (6 - length text) ++ text.

(** ['{:06o}'.format(n)]: octal, zero-padded to six columns, sign
    first. *)
Definition format_06o (n : Z) : str :=
  if n <? 0
  then 45 :: repeat 48 (5 - length (digits 8 (- n))) ++ digits 8 (- n)
  else repeat 48 (6 - length (digits 8 n)) ++ digits 8 n.

(** The line [ls_files] prints for an entry when [details] is set. *)
Definition ls_line (entry : IndexEntry.t) : str :=
  let stage := Z.land (Z.shiftr (IndexEntry.flags entry) 12) 3 in
  format_6o (IndexEntry.mode entry) ++ py " "
  ++ hex (IndexEntry.sha1 entry) ++ py " "
  ++ format_int 10 stage ++ [9] ++ IndexEntry.path entry.

(** [ls_files] prints one line per entry; the lines are its result
    here. *)
Definition ls_files (details : bool) : M (list str) :=
  entries ← read_index;
  mret (map (fun entry =>
               if details then ls_line entry else IndexEntry.path entry)
            entries).

(** What a call of [cat_file] that gets past [read_object] ends with:
    bytes written to the standard output, lines printed, one of the
    three errors [cat_file] raises itself, or the [OverflowError] of
    [stat.S_ISDIR] for a mode that is no [mode_t]. *)
Inductive cat_result :=
| Wrote (data : bytes)
| Printed (lines : list str)
| ExpectedObjectType (mode got : str)
| UnhandledObjectType (got : str)
| UnexpectedMode (mode : str)
| ModeOutOfRange.

(** [stat.S_ISDIR], which CPython computes on a [mode_t] of 32 bits and
    refuses any other integer. *)
Definition S_ISDIR (mode : Z) : option bool :=
  if (0 <=? mode) && (mode <? 4294967296)
  then Some (Z.land mode 61440 =? 16384)
  else None.

(** The line [cat_file] prints for an entry of a tree in mode
    [pretty]. *)
Definition pretty_line (t : Z * str * str) : option str :=
  let '(mode, path, sha1) := t in
  is_dir ← S_ISDIR mode;
  Some (format_06o mode ++ py " "
        ++ (if (is_dir : bool) then py "tree" else py "blob") ++ py " "
        ++ sha1 ++ [9] ++ path).

Section CatFile.
Variable zlib_decompress : bytes -> result bytes.

Definition cat_file (mode : str) (sha1_prefix : str) : M cat_result :=
  '(obj_type, data) ← read_object zlib_decompress sha1_prefix;
  if bool_decide (mode ∈ [py "commit"; py "tree"; py "blob"]) then
    if bool_decide (obj_type ≠ mode)
    then mret (ExpectedObjectType mode obj_type)
    else mret (Wrote data)
  else if bool_decide (mode = py "size") then
    mret (Printed [format_int 10 (len data)])
  else if bool_decide (mode = py "type") then
    mret (Printed [obj_type])
  else if bool_decide (mode = py "pretty") then
    if bool_decide (obj_type ∈ [py "commit"; py "blob"]) then
      mret (Wrote data)
    else if bool_decide (obj_type = py "tree") then
      entries ← read_tree zlib_decompress None (Some data);
      match mapM pretty_line entries with
      | Some lines => mret (Printed lines)
      | None => mret ModeOutOfRange
      end
    else mret (UnhandledObjectType obj_type)
  else mret (UnexpectedMode mode).

End CatFile.

(** The repository [one_file_repo] after [add a]. *)
Definition added_repo : repo :=
  snd (add no_compression [py "a"] one_file_repo).

(** ** The store as a content-addressed map *)

(** Every object file sits in a directory of two characters under a
    name of 38, and holds the compressed form of data whose digest is
    the directory followed by the name. *)
Definition addressed (zlib_compress : bytes -> bytes)
    (store : gmap str (gmap str bytes)) : Prop :=
  forall dir m name raw,
    store !! dir = Some m -> m !! name = Some raw ->
    length dir = 2%nat /\ length name = 38%nat
    /\ exists full,
         raw = zlib_compress full /\ hex (Sha1.digest full) = dir ++ name.

(** A store with one hand-made object file [ab/cd] whose header
    announces five bytes for a payload of two. *)
Definition short_object_repo : repo :=
  {| objects := {[ py "ab" := {[ py "cd" := py "blob 5" ++ [0] ++ py "hi" ]} ]};
     index := None; master := None; worktree := ∅ |}.

(** ** status *)

(** The lines [status] prints for one of its three lists: nothing for
    an empty list, else the title and every path after four spaces
    ([print('   ', path)] puts one more space between its arguments). *)
Definition status_section (title : str) (paths : list str) : list str :=
  match paths with
  | [] => []
  | _ => title :: map (fun path => py "    " ++ path) paths
  end.

Section StatusCommand.
Variable zlib_compress : bytes -> bytes.

(** [status] prints; the lines it prints are its result here. *)
Definition status : M (list str) :=
  '(changed, new, deleted) ← get_status zlib_compress;
  mret (status_section (py "changed files:") changed
        ++ status_section (py "new files:") new
        ++ status_section (py "deleted files:") deleted).

End StatusCommand.

(** ** Sample repositories for the two defects and the one raise *)

(** A working directory with the one file [a b], whose name has a space
    in it; the same after [add "a b"]; the digest [write_tree] returns
    there and the repository it leaves. *)
Definition spaced_repo : repo :=
  {| objects := ∅; index := None; master := None;
     worktree := {[ py "a b" := sample_file "one" ]} |}.

Definition spaced_added : repo :=
  snd (add no_compression [py "a b"] spaced_repo).

Definition spaced_digest : str :=
  match fst (write_tree no_compression spaced_added) with
  | Ok tree => tree
  | Raise _ => []
  end.

Definition spaced_written : repo :=
  snd (write_tree no_compression spaced_added).


(** The repository [one_file_repo] after [add a a]. *)
Definition added_twice : repo :=
  snd (add no_compression [py "a"; py "a"] one_file_repo).

(** ** SHA-1 test vectors (FIPS 180-4, appendix A) *)

Example sha1_empty :
  hex (Sha1.digest []) = py "da39a3ee5e6b4b0d3255bfef95601890afd80709".
Proof. vm_compute. reflexivity. Qed.

Example sha1_abc :
  hex (Sha1.digest (py "abc")) = py "a9993e364706816aba3e25717850c26c9cd0d89d".
Proof. vm_compute. reflexivity. Qed.

Example sha1_two_blocks :
  hex (Sha1.digest (py "abcdbcdecdefdefgefghfghighijhijkijkljklmklmnlmnomnopnopq"))
  = py "84983e441c3bd26ebaae4aa1f95129e5e54670f1".
Proof. vm_compute. reflexivity. Qed.

(** ** Text: UTF-8, splitting, numbers *)

Ltac bool_hyps :=
  repeat match goal with
    | H : (_ && _) = true |- _ => apply andb_true_iff in H as [? ?]
    | H : (_ && _) = false |- _ => apply andb_false_iff in H as [?|?]
    | H : (_ || _) = true |- _ => apply orb_true_iff in H as [?|?]
    | H : (_ || _) = false |- _ => apply orb_false_iff in H as [? ?]
    | H : negb _ = true |- _ => apply negb_true_iff in H
    | H : negb _ = false |- _ => apply negb_false_iff in H
    | H : (_ <=? _) = true |- _ => apply Z.leb_le in H
    | H : (_ <=? _) = false |- _ => apply Z.leb_gt in H
    | H : (_ <? _) = true |- _ => apply Z.ltb_lt in H
    | H : (_ <? _) = false |- _ => apply Z.ltb_ge in H
    | H : (_ =? _) = true |- _ => apply Z.eqb_eq in H
    | H : (_ =? _) = false |- _ => apply Z.eqb_neq in H
    end.

Ltac zdiv := Z.to_euclidean_division_equations; lia.

(** Settle a decidable statement about concrete data by evaluation. *)
Ltac by_decide :=
  cbv beta delta [no_nul no_space ascii bytes_ok byte_ok sorted_by_path
                  ascending];
  lazymatch goal with
  | |- ?P => apply (bool_decide_eq_true_1 P)
  end;
  vm_compute; reflexivity.

Ltac split_ifs_in H :=
  repeat match type of H with
    | context [if ?x then _ else _] => destruct x eqn:?
    end.

Lemma rbind_ok {A B} (r : result A) (k : A -> result B) a :
  r = Ok a -> (r ≫= k) = k a.
Proof. intros ->. reflexivity. Qed.

Lemma Ok_inj {A} (a b : A) : Ok a = Ok b -> a = b.
Proof. congruence. Qed.

Lemma rbind_inv {A B} (r : result A) (k : A -> result B) b :
  (r ≫= k) = Ok b -> exists a, r = Ok a /\ k a = Ok b.
Proof. destruct r as [a|e]; [eauto | discriminate]. Qed.

Lemma decode_encode_char c b rest :
  encode_char c = Ok b ->
  decode (b ++ rest) = (s ← decode rest; Ok (c :: s)).
Proof.
  unfold encode_char, is_surrogate. intros H.
  split_ifs_in H; inversion H; subst b; clear H; bool_hyps; try lia.
  all: cbn [app decode].
  all: unfold is_cont, is_surrogate.
  all: repeat match goal with
         | |- context [if ?x then _ else _] =>
             let E := fresh "E" in destruct x eqn:E; bool_hyps; try zdiv
         end.
  all: try (f_equal; f_equal; zdiv).
  all: try (destruct (decode rest); simpl; repeat f_equal; zdiv).
Qed.

Lemma decode_encode s b : encode s = Ok b -> decode b = Ok s.
Proof.
  revert b. induction s as [|c s IH]; intros b H; simpl in H.
  - inversion H. reflexivity.
  - apply rbind_inv in H as (bc & Hc & H).
    apply rbind_inv in H as (bs & Hs & H). inversion H; subst b.
    rewrite (decode_encode_char _ _ _ Hc), (IH _ Hs). reflexivity.
Qed.

(** [decode] raises nothing but [UnicodeDecodeError]. *)
Lemma decode_raises_bounded n : forall bs e,
  (length bs <= n)%nat -> decode bs = Raise e -> e = UnicodeDecodeError.
Proof.
  induction n as [|n IH]; intros bs e Hlen H.
  - destruct bs; [discriminate|]. simpl in Hlen. lia.
  - destruct bs as [|b0 t0]; [discriminate|]. cbn [decode] in H.
    cbn [length] in Hlen.
    repeat match type of H with
      | context [if ?c then _ else _] => destruct c
      | context [match ?l with [] => _ | _ :: _ => _ end] =>
          destruct l; cbn [length] in Hlen
      end;
      try (by inversion H);
      match type of H with
      | context [decode ?rest] =>
          destruct (decode rest) eqn:E; [discriminate|];
          apply IH in E; [|lia]; cbn in H; congruence
      end.
Qed.

Lemma decode_raises bs e : decode bs = Raise e -> e = UnicodeDecodeError.
Proof. by apply (decode_raises_bounded (length bs)). Qed.

Lemma encode_char_bytes c b :
  encode_char c = Ok b ->
  b <> [] /\ Forall byte_ok b /\ (c <> 0 -> no_nul b).
Proof.
  unfold encode_char, is_surrogate, byte_ok. intros H.
  split_ifs_in H; inversion H; subst b; clear H; bool_hyps; try lia.
  all: split; [discriminate|split; [|intros Hc]].
  all: repeat constructor; zdiv.
Qed.

Lemma encode_bytes_ok s b : encode s = Ok b -> bytes_ok b.
Proof.
  revert b. induction s as [|c s IH]; intros b H; simpl in H.
  - inversion H. constructor.
  - apply rbind_inv in H as (bc & Hc & H).
    apply rbind_inv in H as (bs & Hs & H). inversion H; subst b.
    apply Forall_app. split; [|by apply IH].
    by apply encode_char_bytes in Hc as (_ & ? & _).
Qed.

Lemma encode_no_nul s b :
  encode s = Ok b -> no_nul s -> no_nul b.
Proof.
  revert b. induction s as [|c s IH]; intros b H Hs; simpl in H.
  - inversion H. constructor.
  - apply rbind_inv in H as (bc & Hc & H).
    apply rbind_inv in H as (bs & Hbs & H). inversion H; subst b.
    inversion Hs; subst. apply Forall_app. split; [|by apply IH].
    apply encode_char_bytes in Hc as (_ & _ & Hc). by apply Hc.
Qed.

Lemma encode_nonempty s b : encode s = Ok b -> s <> [] -> b <> [].
Proof.
  destruct s as [|c s]; [done|]. simpl. intros H _.
  apply rbind_inv in H as (bc & Hc & H).
  apply rbind_inv in H as (bs & Hbs & H). inversion H; subst b.
  apply encode_char_bytes in Hc as (Hne & _). destruct bc; [done|discriminate].
Qed.

Lemma encode_app a b :
  encode (a ++ b) = (x ← encode a; y ← encode b; Ok (x ++ y)).
Proof.
  induction a as [|c a IH]; simpl.
  - destruct (encode b); reflexivity.
  - destruct (encode_char c) as [bc|]; simpl; [|reflexivity].
    rewrite IH. destruct (encode a); simpl; [|reflexivity].
    destruct (encode b); simpl; [|reflexivity]. by rewrite app_assoc.
Qed.

Lemma encode_ascii s : ascii s -> encode s = Ok s.
Proof.
  induction 1 as [|c s Hc Hs IH]; [reflexivity|]. simpl.
  unfold encode_char.
  replace ((0 <=? c) && (c <? 128)) with true
    by (symmetry; apply andb_true_iff; split;
        [apply Z.leb_le|apply Z.ltb_lt]; lia).
  simpl. rewrite IH. reflexivity.
Qed.

Lemma ascii_check s :
  forallb (fun c => (0 <=? c) && (c <? 128)) s = true -> ascii s.
Proof.
  intros H. apply Forall_forall. intros c Hc.
  rewrite forallb_forall in H. apply list_elem_of_In, H in Hc. bool_hyps. lia.
Qed.

Lemma ascii_app a b : ascii a -> ascii b -> ascii (a ++ b).
Proof. intros. by apply Forall_app. Qed.


(** *** Numbers as text *)

Lemma digits_aux_digit fuel base n acc :
  0 < base -> 0 <= n ->
  Forall (is_digit base) acc ->
  Forall (is_digit base) (digits_aux fuel base n acc).
Proof.
  intros Hb. revert n acc.
  induction fuel as [|f IH]; intros n acc Hn Hacc; simpl; [done|].
  assert (Forall (is_digit base) ((48 + n mod base) :: acc)).
  { constructor; [|done]. unfold is_digit.
    pose proof (Z.mod_pos_bound n base Hb). lia. }
  destruct (n <? base); [done|]. apply IH; [|done].
  apply Z.div_pos; lia.
Qed.

Lemma digits_aux_nonempty fuel base n acc :
  digits_aux (S fuel) base n acc <> [].
Proof.
  revert n acc. induction fuel as [|f IH]; intros n acc.
  - simpl. destruct (n <? base); discriminate.
  - change (digits_aux (S (S f)) base n acc)
      with (let acc' := (48 + n mod base) :: acc in
            if n <? base then acc' else digits_aux (S f) base (n / base) acc').
    cbv zeta. destruct (n <? base); [discriminate|apply IH].
Qed.

Lemma parse_digits_aux fuel base n acc :
  1 < base -> 0 <= n < base ^ Z.of_nat fuel ->
  parse_digits base (digits_aux fuel base n acc) 0 = parse_digits base acc n.
Proof.
  intros Hb. revert n acc.
  induction fuel as [|f IH]; intros n acc Hn.
  - simpl in *. assert (n = 0) by lia. subst n.
    (* the empty prefix contributes nothing *)
    clear. revert acc. intros acc. reflexivity.
  - simpl digits_aux.
    assert (Hd : forall a,
               parse_digits base ((48 + n mod base) :: acc) a
               = parse_digits base acc (a * base + n mod base)).
    { intros a. simpl.
      pose proof (Z.mod_pos_bound n base ltac:(lia)).
      replace ((48 <=? 48 + n mod base) && (48 + n mod base <? 48 + base))
        with true
        by (symmetry; apply andb_true_iff; split;
            [apply Z.leb_le|apply Z.ltb_lt]; lia).
      f_equal. lia. }
    destruct (n <? base) eqn:E; bool_hyps.
    + rewrite Hd. f_equal. rewrite Z.mod_small; lia.
    + rewrite IH, Hd.
      * f_equal. pose proof (Z.div_mod n base ltac:(lia)). lia.
      * split; [apply Z.div_pos; lia|].
        apply Z.div_lt_upper_bound; [lia|].
        rewrite Nat2Z.inj_succ, Z.pow_succ_r in Hn; lia.
Qed.

Lemma digits_fuel base n :
  1 < base -> 0 <= n -> n < base ^ Z.of_nat (S (Z.to_nat (Z.log2 n))).
Proof.
  intros Hb Hn.
  destruct (Z.eq_dec n 0) as [->|Hne].
  { apply Z.pow_pos_nonneg; lia. }
  pose proof (Z.log2_nonneg n).
  rewrite Nat2Z.inj_succ, Z2Nat.id by lia.
  destruct (Z.log2_spec n ltac:(lia)) as [_ Hlt].
  eapply Z.lt_le_trans; [exact Hlt|].
  apply Z.pow_le_mono_l. lia.
Qed.

Lemma parse_digits_digits base n :
  1 < base -> 0 <= n -> parse_digits base (digits base n) 0 = Ok n.
Proof.
  intros Hb Hn. unfold digits. rewrite parse_digits_aux; [done|done|].
  split; [done|]. by apply digits_fuel.
Qed.

Lemma digits_digit base n :
  0 < base -> 0 <= n -> Forall (is_digit base) (digits base n).
Proof. intros. by apply digits_aux_digit. Qed.

Lemma digits_nonempty base n : digits base n <> [].
Proof. apply digits_aux_nonempty. Qed.

Lemma parse_format_int base n :
  1 < base <= 10 -> parse_int base (format_int base n) = Ok n.
Proof.
  intros Hb. unfold format_int.
  destruct (n <? 0) eqn:E; bool_hyps.
  - simpl. pose proof (digits_nonempty base (- n)).
    destruct (digits base (- n)) eqn:Ed; [done|]. rewrite <- Ed.
    rewrite parse_digits_digits by lia. simpl. f_equal. lia.
  - pose proof (digits_nonempty base n).
    pose proof (digits_digit base n ltac:(lia) ltac:(lia)) as Hd.
    destruct (digits base n) as [|c ds] eqn:Ed; [done|].
    unfold parse_int. inversion Hd as [|? ? Hc _]; subst.
    unfold is_digit in Hc.
    destruct (c =? 45) eqn:E1; bool_hyps; [lia|].
    destruct (c =? 43) eqn:E2; bool_hyps; [lia|].
    rewrite <- Ed. apply parse_digits_digits; lia.
Qed.

Lemma format_int_chars base n :
  0 < base <= 10 ->
  Forall (fun c => 45 <= c < 58) (format_int base n).
Proof.
  intros Hb. unfold format_int.
  assert (forall m, 0 <= m -> Forall (fun c => 45 <= c < 58) (digits base m)).
  { intros m Hm. eapply Forall_impl; [apply digits_digit; lia|].
    unfold is_digit. simpl. intros; lia. }
  destruct (n <? 0) eqn:E; bool_hyps; [constructor; [lia|]|]; apply H; lia.
Qed.

Lemma format_int_nonempty base n : format_int base n <> [].
Proof.
  unfold format_int. destruct (n <? 0); [discriminate|apply digits_nonempty].
Qed.

(** *** Splitting on white space *)

Lemma split_from_word cur w rest :
  no_space w -> split_from cur (w ++ rest) = split_from (rev w ++ cur) rest.
Proof.
  intros Hw. revert cur. induction Hw as [|c w Hc Hw IH]; intros cur.
  - reflexivity.
  - simpl. rewrite Hc, IH. f_equal. by rewrite <- app_assoc.
Qed.

Lemma split_two a b :
  a <> [] -> b <> [] -> no_space a -> no_space b ->
  split (a ++ py " " ++ b) = [a; b].
Proof.
  intros Ha Hb Hsa Hsb. unfold split.
  rewrite split_from_word by done. rewrite app_nil_r.
  change (py " " ++ b) with (32 :: b). simpl.
  destruct (rev a) eqn:Er.
  { apply (f_equal (@rev Z)) in Er. rewrite rev_involutive in Er. done. }
  rewrite <- Er, rev_involutive. f_equal.
  rewrite <- (app_nil_r b) at 1. rewrite split_from_word by done.
  rewrite app_nil_r. simpl.
  destruct (rev b) eqn:Eb.
  { apply (f_equal (@rev Z)) in Eb. rewrite rev_involutive in Eb. done. }
  by rewrite <- Eb, rev_involutive.
Qed.

Lemma format_int_no_space base n :
  0 < base <= 10 -> no_space (format_int base n).
Proof.
  intros Hb. eapply Forall_impl; [by apply format_int_chars|].
  intros c Hc. simpl in Hc. unfold isspace.
  repeat (apply orb_false_iff; split);
    try (apply andb_false_iff);
    try (apply Z.eqb_neq; lia);
    solve [left; apply Z.leb_gt; lia | right; apply Z.leb_gt; lia].
Qed.

(** *** Searching for NUL *)

Lemma find_nul_app a b :
  no_nul a -> find_nul (a ++ 0 :: b) = Some (length a).
Proof.
  induction 1 as [|x a Hx Ha IH]; [reflexivity|]. simpl.
  destruct (x =? 0) eqn:E; bool_hyps; [done|]. by rewrite IH.
Qed.

Lemma find_nul_none a :
  no_nul a -> find_nul a = None.
Proof.
  induction 1 as [|x a Hx Ha IH]; [reflexivity|]. simpl.
  destruct (x =? 0) eqn:E; bool_hyps; [done|]. by rewrite IH.
Qed.

(** ** Trees *)

Lemma tree_entry_ok mode path digest :
  triple_ok (mode, path, digest) ->
  exists header,
    tree_entry mode path digest = Ok (header ++ [0] ++ digest)
    /\ no_nul header
    /\ decode header = Ok (format_int 8 mode ++ py " " ++ path).
Proof.
  intros (Hne & Hsp & Hnul & [b Hb] & Hlen).
  assert (Hm : encode (format_int 8 mode) = Ok (format_int 8 mode)).
  { apply encode_ascii. eapply Forall_impl; [apply (format_int_chars 8); lia|].
    simpl. intros; lia. }
  assert (He : encode (format_int 8 mode ++ py " " ++ path)
               = Ok (format_int 8 mode ++ py " " ++ b)).
  { rewrite encode_app, Hm. simpl. rewrite Hb. reflexivity. }
  exists (format_int 8 mode ++ py " " ++ b). split; [|split].
  - unfold tree_entry. rewrite He. reflexivity.
  - eapply encode_no_nul; [exact He|].
    apply Forall_app. split.
    + eapply Forall_impl; [apply (format_int_chars 8); lia|].
      simpl. intros; lia.
    + constructor; [done|exact Hnul].
  - exact (decode_encode _ _ He).
Qed.

Lemma read_tree_loop_payload T :
  Forall triple_ok T ->
  exists payload,
    tree_payload T = Ok payload
    /\ forall n, read_tree_loop n payload = Ok (firstn n (map listed T)).
Proof.
  induction 1 as [|[[mode path] digest] T Ht HT IH].
  - exists []. split; [reflexivity|]. intros [|n]; reflexivity.
  - destruct IH as (rest & Hrest & IH).
    destruct (tree_entry_ok _ _ _ Ht) as (header & He & Hnul & Hdec).
    destruct Ht as (Hne & Hsp & _ & _ & Hlen).
    unfold tree_payload in Hrest.
    apply rbind_inv in Hrest as (es & Hes & Hrest). inversion Hrest; subst rest.
    exists ((header ++ [0] ++ digest) ++ concat es). split.
    { unfold tree_payload. cbn [rmap]. rewrite He. simpl.
      rewrite Hes. reflexivity. }
    intros [|n]; [reflexivity|].
    cbn [read_tree_loop firstn map listed].
    rewrite <- !app_assoc. cbn [app].
    rewrite find_nul_app by done.
    rewrite firstn_app, Nat.sub_diag, firstn_all, firstn_O, app_nil_r.
    rewrite Hdec. cbn [mbind result_bind].
    rewrite split_two;
      [|apply format_int_nonempty|done
       |apply format_int_no_space; lia|done].
    rewrite parse_format_int by lia. cbn [mbind result_bind].
    replace (skipn (length header + 21) (header ++ 0 :: digest ++ concat es))
      with (concat es).
    2:{ rewrite skipn_app, skipn_all2 by lia.
        replace (length header + 21 - length header)%nat with 21%nat by lia.
        cbn [app skipn]. rewrite skipn_app, skipn_all2 by lia.
        rewrite Hlen. reflexivity. }
    rewrite IH. cbn [mbind result_bind]. do 4 f_equal.
    unfold slice.
    rewrite skipn_app, skipn_all2 by lia.
    replace (length header + 1 - length header)%nat with 1%nat by lia.
    cbn [app skipn].
    replace (length header + 21 - (length header + 1))%nat with 20%nat by lia.
    rewrite <- Hlen. apply take_app_length.
Qed.

(** ** Reasoning about the monad *)

Lemma bind_run {A B} (m : M A) (k : A -> M B) (s : repo) :
  (m ≫= k) s = match m s with
               | (Ok a, s') => k a s'
               | (Raise e, s') => (Raise e, s')
               end.
Proof. reflexivity. Qed.

Lemma bind_ok {A B} (m : M A) (k : A -> M B) (s s' : repo) (a : A) :
  m s = (Ok a, s') -> (m ≫= k) s = k a s'.
Proof. intros H. rewrite bind_run, H. reflexivity. Qed.

Lemma bind_raise {A B} (m : M A) (k : A -> M B) (s s' : repo) (e : exn) :
  m s = (Raise e, s') -> (m ≫= k) s = (Raise e, s').
Proof. intros H. rewrite bind_run, H. reflexivity. Qed.

Lemma lift_run {A} (r : result A) (s : repo) : lift r s = (r, s).
Proof. reflexivity. Qed.

Lemma read_work_file p f s :
  worktree s !! p = Some f -> read_file (WorkFile p) s = (Ok (f_data f), s).
Proof. intros H. unfold read_file. rewrite H. reflexivity. Qed.

Lemma read_work_file_missing p s :
  worktree s !! p = None ->
  read_file (WorkFile p) s = (Raise FileNotFoundError, s).
Proof. intros H. unfold read_file. rewrite H. reflexivity. Qed.

Lemma os_stat_file p f s :
  worktree s !! p = Some f -> os_stat p s = (Ok (f_stat f), s).
Proof. intros H. unfold os_stat. rewrite H. reflexivity. Qed.

(** *** Operations that leave the disk alone *)

Lemma read_only_ret {A} (a : A) : read_only (mret a : M A).
Proof. intros s. reflexivity. Qed.

Lemma read_only_raise {A} (e : exn) : read_only (raise e : M A).
Proof. intros s. reflexivity. Qed.

Lemma read_only_lift {A} (r : result A) : read_only (lift r).
Proof. intros s. reflexivity. Qed.

Lemma read_only_assert b why : read_only (assert b why).
Proof. intros s. reflexivity. Qed.

Lemma read_only_bind {A B} (m : M A) (k : A -> M B) :
  read_only m -> (forall a, read_only (k a)) -> read_only (m ≫= k).
Proof.
  intros Hm Hk s. rewrite bind_run. specialize (Hm s).
  destruct (m s) as [[a|e] s']; simpl in Hm; subst s'.
  - apply Hk.
  - reflexivity.
Qed.

Lemma read_only_except {A} (m h : M A) :
  read_only m -> read_only h -> read_only (except_FileNotFound m h).
Proof.
  intros Hm Hh s. unfold except_FileNotFound. specialize (Hm s).
  destruct (m s) as [[a|e] s']; simpl in Hm; subst s'; [reflexivity|].
  destruct e; try reflexivity. apply Hh.
Qed.

Lemma read_only_read_file l : read_only (read_file l).
Proof. intros s. reflexivity. Qed.

Lemma read_only_listdir d : read_only (listdir d).
Proof. intros s. unfold listdir. destruct (objects s !! d); reflexivity. Qed.

Lemma read_only_walk_files : read_only walk_files.
Proof. intros s. reflexivity. Qed.

Create HintDb ro discriminated.
#[export] Hint Resolve read_only_ret read_only_raise read_only_lift
  read_only_assert read_only_read_file read_only_listdir
  read_only_walk_files : ro.

Ltac ro_step :=
  first [ solve [auto with ro]
        | apply read_only_bind; [| intros ?]
        | apply read_only_except
        | match goal with
          | |- read_only (match ?x with _ => _ end) => destruct x
          | |- read_only (if ?b then _ else _) => destruct b
          | |- read_only (let '(_, _) := ?x in _) => destruct x
          end ].
Ltac ro := repeat ro_step.

Section ReadOnly.
Variable zlib_compress : bytes -> bytes.
Variable zlib_decompress : bytes -> result bytes.
Variable splitlines : str -> list str.
Variable unified_diff : list str -> list str -> str -> str -> list str.

Lemma read_only_hash_object data object_type :
  read_only (hash_object zlib_compress data object_type false).
Proof. unfold hash_object, pass. ro. Qed.

Lemma read_only_read_index : read_only read_index.
Proof. unfold read_index. ro. Qed.

Lemma read_only_find_object p : read_only (find_object p).
Proof. unfold find_object. ro. Qed.

Lemma read_only_read_object p : read_only (read_object zlib_decompress p).
Proof. unfold read_object. pose proof read_only_find_object. ro. Qed.

Hint Resolve read_only_hash_object read_only_read_index
  read_only_read_object : ro.

Lemma read_only_changed_among m ps :
  read_only (changed_among zlib_compress m ps).
Proof. induction ps as [|p ps IH]; simpl; ro. Qed.
Hint Resolve read_only_changed_among : ro.

Lemma read_only_get_status : read_only (get_status zlib_compress).
Proof. unfold get_status. ro. Qed.

Lemma read_only_diff_loop m changed :
  read_only (diff_loop zlib_decompress splitlines unified_diff m changed).
Proof. induction changed as [|p ps IH]; simpl; ro. Qed.
Hint Resolve read_only_get_status read_only_diff_loop : ro.

Lemma read_only_diff :
  read_only (diff zlib_compress zlib_decompress splitlines unified_diff).
Proof. unfold diff. ro. Qed.

(** C10.  [get_status] and [diff] never change what is on disk: the
    index file, the branch file, every object file and the set of object
    files are the same afterwards, whatever state they start from and
    whether they return or raise; the digests of the live files are
    computed by [hash_object] with [write=False], which writes nothing. *)
Theorem status_and_diff_leave_disk_unchanged (s : repo) :
  snd (get_status zlib_compress s) = s
  /\ snd (diff zlib_compress zlib_decompress splitlines unified_diff s) = s
  /\ forall data kind, snd (hash_object zlib_compress data kind false s) = s.
Proof.
  split; [apply read_only_get_status|].
  split; [apply read_only_diff|].
  intros data kind. apply read_only_hash_object.
Qed.

End ReadOnly.

(** ** The object store *)

Lemma count_absent (k : str) (names : list str) :
  k ∉ names -> length (filter (fun n => n = k) names) = 0%nat.
Proof.
  induction names as [|x names IH]; intros Hk; [reflexivity|].
  apply not_elem_of_cons in Hk as [Hne Hk].
  rewrite filter_cons_False by congruence. auto.
Qed.

Lemma count_present (k : str) (names : list str) :
  NoDup names -> k ∈ names ->
  length (filter (fun n => n = k) names) = 1%nat.
Proof.
  induction 1 as [|x names Hx Hnd IH]; intros Hk.
  - by apply elem_of_nil in Hk.
  - destruct (decide (x = k)) as [->|Hne].
    + rewrite filter_cons_True by done. simpl. f_equal.
      by apply count_absent.
    + rewrite filter_cons_False by done.
      apply elem_of_cons in Hk as [->|Hk]; [done|]. by apply IH.
Qed.

Lemma names_NoDup {V} (m : gmap str V) : NoDup (map fst (map_to_list m)).
Proof. exact (NoDup_fst_map_to_list m). Qed.

Lemma elem_of_names {V} (m : gmap str V) (k : str) :
  k ∈ map fst (map_to_list m) <-> is_Some (m !! k).
Proof.
  change (map fst (map_to_list m)) with (fst <$> map_to_list m).
  rewrite list_elem_of_fmap. split.
  - intros [[k' v] [-> Hkv]]. apply elem_of_map_to_list in Hkv. eauto.
  - intros [v Hv]. exists (k, v). split; [done|].
    by apply elem_of_map_to_list.
Qed.

Lemma count_key {V} (m : gmap str V) (k : str) :
  length (filter (fun n => n = k) (map fst (map_to_list m)))
  = match m !! k with Some _ => 1%nat | None => 0%nat end.
Proof.
  destruct (m !! k) as [v|] eqn:E.
  - apply count_present; [apply names_NoDup|]. apply elem_of_names. eauto.
  - apply count_absent. intros Hk. apply elem_of_names in Hk.
    rewrite E in Hk. by destruct Hk.
Qed.

Lemma files_named_stored s d : is_Some (stored s d) -> files_named s d = 1%nat.
Proof.
  unfold stored, files_named. intros [c Hc].
  destruct (objects s !! firstn 2 d) as [m|]; [|discriminate].
  simpl in Hc. rewrite count_key, Hc. reflexivity.
Qed.

(** The header [hash_object] puts before the payload. *)
Lemma encode_header kind kb n :
  encode kind = Ok kb ->
  encode (kind ++ py " " ++ format_int 10 n)
  = Ok (kb ++ py " " ++ format_int 10 n).
Proof.
  intros Hk. rewrite encode_app, Hk. cbn [mbind result_bind].
  rewrite encode_ascii; [reflexivity|].
  apply ascii_app; [by apply ascii_check|].
  eapply Forall_impl; [apply (format_int_chars 10); lia|].
  simpl. intros; lia.
Qed.

Section Store.
Variable zlib_compress : bytes -> bytes.

Lemma hash_object_present data kind header s :
  encode (kind ++ py " " ++ format_int 10 (len data)) = Ok header ->
  is_Some (stored s (hex (Sha1.digest (header ++ [0] ++ data)))) ->
  hash_object zlib_compress data kind true s
  = (Ok (hex (Sha1.digest (header ++ [0] ++ data))), s).
Proof.
  intros Henc Hst. unfold hash_object, lift.
  rewrite bind_run, Henc. cbv zeta.
  rewrite bind_run. rewrite bind_run. unfold path_exists at 1.
  unfold stored in Hst. rewrite bool_decide_eq_true_2 by exact Hst.
  reflexivity.
Qed.

Lemma hash_object_absent data kind header s :
  encode (kind ++ py " " ++ format_int 10 (len data)) = Ok header ->
  stored s (hex (Sha1.digest (header ++ [0] ++ data))) = None ->
  let d := hex (Sha1.digest (header ++ [0] ++ data)) in
  let shard := default ∅ (objects s !! firstn 2 d) in
  hash_object zlib_compress data kind true s
  = (Ok d,
     {| objects := <[firstn 2 d :=
                      <[skipn 2 d := zlib_compress (header ++ [0] ++ data)]>
                        shard]> (objects s);
        index := index s; master := master s; worktree := worktree s |}).
Proof.
  intros Henc Hst d shard. unfold hash_object, lift.
  rewrite bind_run, Henc. cbv zeta.
  rewrite bind_run. rewrite bind_run. unfold path_exists at 1.
  unfold stored in Hst. subst d shard.
  rewrite bool_decide_eq_false_2 by (rewrite Hst; apply is_Some_None).
  rewrite bind_run. unfold makedirs, write_file.
  destruct (objects s !! firstn 2 _) as [m|] eqn:Hm; cbn [objects default].
  - rewrite Hm. reflexivity.
  - rewrite lookup_insert_eq. cbn [objects index master worktree].
    rewrite insert_insert_eq. reflexivity.
Qed.

(** What one call of [hash_object] with [write=True] does. *)
Lemma hash_object_write data kind header s :
  encode (kind ++ py " " ++ format_int 10 (len data)) = Ok header ->
  let d := hex (Sha1.digest (header ++ [0] ++ data)) in
  exists s1,
    hash_object zlib_compress data kind true s = (Ok d, s1)
    /\ is_Some (stored s1 d)
    /\ (is_Some (stored s d) -> s1 = s)
    /\ (forall d', d' <> d -> stored s1 d' = stored s d')
    /\ index s1 = index s /\ master s1 = master s
    /\ worktree s1 = worktree s.
Proof.
  intros Henc d. destruct (stored s d) as [c|] eqn:Hst.
  - exists s. split; [|by eauto 10].
    apply hash_object_present; [done|]. fold d. rewrite Hst. eauto.
  - eexists. split; [by apply hash_object_absent|]. fold d.
    unfold stored. cbn [objects index master worktree].
    split; [|split; [|split; [|done]]].
    + rewrite lookup_insert_eq. simpl. rewrite lookup_insert_eq. eauto.
    + intros [? ?]. discriminate.
    + intros d' Hd'.
      destruct (decide (firstn 2 d' = firstn 2 d)) as [E2|N2].
      * rewrite E2, lookup_insert_eq. simpl.
        assert (skipn 2 d' <> skipn 2 d).
        { intros E. apply Hd'.
          rewrite <- (firstn_skipn 2 d'), <- (firstn_skipn 2 d).
          congruence. }
        rewrite lookup_insert_ne by done.
        destruct (objects s !! firstn 2 d); reflexivity.
      * rewrite lookup_insert_ne by done. reflexivity.
Qed.

(** Storing an object of an ASCII kind: the digest returned, and what
    stays as it was. *)
Lemma hash_object_store data kind s :
  ascii kind ->
  exists s1,
    hash_object zlib_compress data kind true s
    = (Ok (object_digest kind data), s1)
    /\ is_Some (stored s1 (object_digest kind data))
    /\ (forall d', d' <> object_digest kind data -> stored s1 d' = stored s d')
    /\ index s1 = index s /\ master s1 = master s
    /\ worktree s1 = worktree s.
Proof.
  intros Hk.
  assert (He : encode (kind ++ py " " ++ format_int 10 (len data))
               = Ok (kind ++ py " " ++ format_int 10 (len data))).
  { apply encode_header. by apply encode_ascii. }
  destruct (hash_object_write data kind _ s He)
    as (s1 & H & Hst & _ & Hother & Hi & Hm & Hw).
  assert (Ed : hex (Sha1.digest
                 ((kind ++ py " " ++ format_int 10 (len data)) ++ [0] ++ data))
               = object_digest kind data).
  { unfold object_digest. by rewrite <- !app_assoc. }
  rewrite Ed in *. exists s1. by repeat split.
Qed.

(** C6.  For every payload and every kind that can be written as
    UTF-8, [hash_object(data, kind, write=True)] returns the digest of
    ["<kind> <len>\0<data>"]; called again it returns the same digest,
    raises nothing and leaves every file as the first call left it; and
    the object directory then holds exactly one file for that digest. *)
Theorem hash_object_idempotent (data : bytes) (kind kb : str) (s : repo) :
  encode kind = Ok kb ->
  let d := hex (Sha1.digest
                  (kb ++ py " " ++ format_int 10 (len data) ++ [0] ++ data)) in
  exists s1,
    hash_object zlib_compress data kind true s = (Ok d, s1)
    /\ hash_object zlib_compress data kind true s1 = (Ok d, s1)
    /\ files_named s1 d = 1%nat.
Proof.
  intros Hk d.
  pose proof (encode_header kind kb (len data) Hk) as Hh.
  destruct (hash_object_write data kind _ s Hh) as (s1 & H1 & Hst & _).
  assert (Ed : hex (Sha1.digest
                      ((kb ++ py " " ++ format_int 10 (len data)) ++ [0] ++ data))
               = d).
  { unfold d. by rewrite <- !app_assoc. }
  rewrite Ed in H1, Hst.
  exists s1. split; [exact H1|]. split.
  - rewrite <- Ed. apply hash_object_present; [done|]. by rewrite Ed.
  - by apply files_named_stored.
Qed.

End Store.

(** ** Looking objects up by prefix *)

Lemma startswith_app a name rest :
  startswith (a ++ name) (a ++ rest) = startswith name rest.
Proof.
  induction a as [|c a IH]; [reflexivity|]. simpl.
  by rewrite Z.eqb_refl, IH.
Qed.

(** A stored file is a candidate exactly when the digest it is named
    after begins with the prefix. *)
Lemma candidates_spec s p name :
  2 <= len p ->
  name ∈ candidates s p
  <-> is_Some (stored s (firstn 2 p ++ name))
      /\ startswith (firstn 2 p ++ name) p = true.
Proof.
  intros Hp. unfold candidates, stored.
  assert (H2 : length (firstn 2 p) = 2%nat)
    by (rewrite length_take; unfold len in Hp; lia).
  rewrite take_app_length', drop_app_length' by done.
  rewrite <- (firstn_skipn 2 p) at 4. rewrite startswith_app.
  destruct (objects s !! firstn 2 p) as [m|]; simpl.
  - rewrite list_elem_of_filter, elem_of_names. tauto.
  - split; [intros H; by apply elem_of_nil in H|]. intros [[? ?] _]. done.
Qed.

Lemma find_object_short p s :
  len p < 2 -> find_object p s = (Raise (ValueError PrefixTooShort), s).
Proof.
  intros H. unfold find_object.
  replace (len p <? 2) with true by (symmetry; by apply Z.ltb_lt).
  reflexivity.
Qed.

Lemma find_object_no_directory p s :
  2 <= len p -> objects s !! firstn 2 p = None ->
  find_object p s = (Raise FileNotFoundError, s).
Proof.
  intros Hp Hd. unfold find_object.
  replace (len p <? 2) with false by (symmetry; by apply Z.ltb_ge).
  rewrite bind_run. unfold listdir. rewrite Hd. reflexivity.
Qed.

Lemma find_object_listed p s :
  2 <= len p -> is_Some (objects s !! firstn 2 p) ->
  find_object p s
  = (match candidates s p with
     | [] => Raise (ValueError ObjectNotFound)
     | [name] => Ok (ObjectFile (firstn 2 p) name)
     | _ :: _ :: _ => Raise (ValueError MultipleObjects)
     end, s).
Proof.
  intros Hp [m Hd]. unfold find_object, candidates.
  replace (len p <? 2) with false by (symmetry; by apply Z.ltb_ge).
  rewrite bind_run. unfold listdir. rewrite Hd.
  destruct (filter _ _) as [|a [|b l]]; reflexivity.
Qed.

Section Lookup.
Variable zlib_compress : bytes -> bytes.
Variable zlib_decompress : bytes -> result bytes.

Lemma read_object_find_raises p s e :
  find_object p s = (Raise e, s) ->
  read_object zlib_decompress p s = (Raise e, s).
Proof. intros H. unfold read_object. by rewrite bind_run, H. Qed.

(** The errors of a lookup, where the shard directory exists. *)
Lemma read_object_errors p s :
  (len p < 2 ->
   read_object zlib_decompress p s = (Raise (ValueError PrefixTooShort), s))
  /\ (2 <= len p -> is_Some (objects s !! firstn 2 p) ->
      candidates s p = [] ->
      read_object zlib_decompress p s = (Raise (ValueError ObjectNotFound), s))
  /\ (2 <= len p -> (2 <= length (candidates s p))%nat ->
      read_object zlib_decompress p s = (Raise (ValueError MultipleObjects), s)).
Proof.
  split; [|split].
  - intros H. by apply read_object_find_raises, find_object_short.
  - intros Hp Hd Hc. apply read_object_find_raises.
    by rewrite find_object_listed, Hc.
  - intros Hp Hc. apply read_object_find_raises.
    assert (Hd : is_Some (objects s !! firstn 2 p)).
    { unfold candidates in Hc. destruct (objects s !! firstn 2 p); [eauto|].
      simpl in Hc. lia. }
    rewrite find_object_listed by done.
    destruct (candidates s p) as [|a [|b l]]; simpl in Hc; (lia || reflexivity).
Qed.

(** Where no object shares the first two characters there is no shard
    directory, [os.listdir] raises, and the lookup ends in
    [FileNotFoundError] instead of the "not found" [ValueError]. *)
Lemma read_object_no_directory p s :
  2 <= len p -> objects s !! firstn 2 p = None ->
  candidates s p = []
  /\ read_object zlib_decompress p s = (Raise FileNotFoundError, s).
Proof.
  intros Hp Hd. split.
  - unfold candidates. by rewrite Hd.
  - by apply read_object_find_raises, find_object_no_directory.
Qed.

(** The one candidate is read back as it was hashed, when the codec
    gives back what it was given. *)
Lemma read_object_unique p s name kind data :
  (forall b, zlib_decompress (zlib_compress b) = Ok b) ->
  2 <= len p ->
  candidates s p = [name] ->
  kind <> [] -> ascii kind -> no_space kind -> no_nul kind ->
  stored s (firstn 2 p ++ name)
  = Some (zlib_compress (kind ++ py " " ++ format_int 10 (len data)
                         ++ [0] ++ data)) ->
  read_object zlib_decompress p s = (Ok (kind, data), s).
Proof.
  intros Hz Hp Hc Hne Ha Hs Hn Hst.
  assert (Hd : is_Some (objects s !! firstn 2 p)).
  { unfold candidates in Hc. destruct (objects s !! firstn 2 p); [eauto|done]. }
  unfold read_object. rewrite bind_run, find_object_listed, Hc by done.
  rewrite bind_run. unfold read_file.
  assert (H2 : length (firstn 2 p) = 2%nat)
    by (rewrite length_take; unfold len in Hp; lia).
  unfold stored in Hst.
  rewrite take_app_length', drop_app_length' in Hst by done.
  rewrite Hst. rewrite bind_run, lift_run, Hz.
  pose proof (format_int_chars 10 (len data) ltac:(lia)) as Hdigits.
  assert (Hhead : kind ++ py " " ++ format_int 10 (len data) ++ [0] ++ data
                  = (kind ++ py " " ++ format_int 10 (len data)) ++ 0 :: data)
    by (by rewrite <- !app_assoc).
  rewrite Hhead, find_nul_app.
  2:{ unfold no_nul in *. apply Forall_app. split; [exact Hn|].
      apply Forall_app. split; [by_decide|].
      eapply Forall_impl; [exact Hdigits|]. simpl. intros; lia. }
  rewrite bind_run, lift_run, take_app_length.
  rewrite (decode_encode (kind ++ py " " ++ format_int 10 (len data))).
  2:{ apply encode_ascii, ascii_app; [done|].
      apply ascii_app; [by apply ascii_check|].
      eapply Forall_impl; [exact Hdigits|]. simpl. intros; lia. }
  rewrite split_two;
    [|done|apply format_int_nonempty|done|apply format_int_no_space; lia].
  rewrite bind_run, lift_run, parse_format_int by lia.
  rewrite bind_run.
  replace (skipn (S (length (kind ++ py " " ++ format_int 10 (len data))))
             ((kind ++ py " " ++ format_int 10 (len data)) ++ 0 :: data))
    with data.
  2:{ generalize (kind ++ py " " ++ format_int 10 (len data)). intros h.
      replace (h ++ 0 :: data) with ((h ++ [0]) ++ data)
        by (by rewrite <- app_assoc).
      symmetry. apply drop_app_length'.
      rewrite length_app. cbn [length]. lia. }
  unfold assert. rewrite Z.eqb_refl. reflexivity.
Qed.

End Lookup.

(** ** The index file *)

Lemma be32_value x : fits32 x -> be_value (be32 x) 0 = x.
Proof. unfold fits32, be32. intros H. cbn [be_value]. zdiv. Qed.

Lemma be16_value x : 0 <= x < 65536 -> be_value (be16 x) 0 = x.
Proof. unfold be16. intros H. cbn [be_value]. zdiv. Qed.

Lemma pack_L_ok x : fits32 x -> pack_L x = Ok (be32 x).
Proof.
  unfold fits32, pack_L. intros H.
  replace ((0 <=? x) && (x <? 4294967296)) with true; [done|].
  symmetry. apply andb_true_iff. split; [apply Z.leb_le|apply Z.ltb_lt]; lia.
Qed.

Lemma pack_H_ok x : 0 <= x < 65536 -> pack_H x = Ok (be16 x).
Proof.
  unfold pack_H. intros H.
  replace ((0 <=? x) && (x <? 65536)) with true; [done|].
  symmetry. apply andb_true_iff. split; [apply Z.leb_le|apply Z.ltb_lt]; lia.
Qed.

Lemma pack_20s_exact b : length b = 20%nat -> pack_20s b = b.
Proof.
  intros H. unfold pack_20s. rewrite H, Nat.sub_diag. simpl.
  rewrite app_nil_r, <- H. apply firstn_all.
Qed.

Lemma entry_len_pad n : (62 + n < entry_len n)%nat /\ (entry_len n <= 62 + n + 8)%nat.
Proof.
  unfold entry_len.
  pose proof (Nat.div_mod_eq (62 + n + 8) 8).
  pose proof (Nat.mod_upper_bound (62 + n + 8) 8). lia.
Qed.

Lemma entry_head_length e :
  length (IndexEntry.sha1 e) = 20%nat -> length (entry_head e) = 62%nat.
Proof.
  intros H. unfold entry_head. rewrite !length_app, H. reflexivity.
Qed.

Lemma pack_entry_ok e :
  entry_ok e ->
  exists pathb,
    encode (IndexEntry.path e) = Ok pathb
    /\ pack_entry e
       = Ok (entry_head e ++ pathb
             ++ repeat 0 (entry_len (length pathb) - 62 - length pathb)%nat).
Proof.
  intros ((H0 & H1 & H2 & H3 & H4 & H5 & H6 & H7 & H8 & H9) & Hf & Hs & _ & [pb Hp]).
  exists pb. split; [done|]. unfold pack_entry.
  rewrite !pack_L_ok, pack_H_ok by done. cbn [mbind result_bind].
  rewrite Hp. cbn [mbind result_bind]. rewrite pack_20s_exact by done.
  unfold entry_head. by rewrite <- !app_assoc.
Qed.

Lemma unpack_entry_head e :
  entry_ok e -> unpack_entry (entry_head e) (IndexEntry.path e) = e.
Proof.
  intros ((H0 & H1 & H2 & H3 & H4 & H5 & H6 & H7 & H8 & H9) & Hf & Hs & _).
  destruct e as [c0 c1 c2 c3 c4 c5 c6 c7 c8 c9 sha fl p]. simpl in *.
  unfold unpack_entry, entry_head. cbn [IndexEntry.ctime_s IndexEntry.ctime_n
    IndexEntry.mtime_s IndexEntry.mtime_n IndexEntry.dev IndexEntry.ino
    IndexEntry.mode IndexEntry.uid IndexEntry.gid IndexEntry.size
    IndexEntry.sha1 IndexEntry.flags IndexEntry.path].
  unfold slice. cbn [be32 app Nat.mul Nat.add Nat.sub skipn firstn].
  f_equal; try (by apply be32_value).
  - rewrite <- Hs at 1. apply take_app_length.
  - rewrite <- Hs at 1. rewrite drop_app_length. cbn [be16 firstn].
    apply (be16_value fl Hf).
Qed.

Lemma digest_length m : length (Sha1.digest m) = 20%nat.
Proof.
  unfold Sha1.digest.
  destruct (Sha1.blocks _ _ _) as [[[[h0 h1] h2] h3] h4]. reflexivity.
Qed.

Lemma read_entries_packed E : forall ps fuel,
  Forall entry_ok E ->
  rmap pack_entry E = Ok ps ->
  (length (concat ps) <= fuel)%nat ->
  read_entries fuel (concat ps) = Ok E.
Proof.
  induction E as [|e E IH]; intros ps fuel HE Hps Hfuel.
  - inversion Hps; subst ps. destruct fuel; reflexivity.
  - cbn [rmap] in Hps.
    apply rbind_inv in Hps as (p & Hp & Hps).
    apply rbind_inv in Hps as (ps' & Hps' & Hps).
    apply Ok_inj in Hps; subst ps.
    apply Forall_cons in HE as [He HE'].
    destruct (pack_entry_ok e He) as (pathb & Hpath & Hp').
    rewrite Hp' in Hp. apply Ok_inj in Hp; subst p. clear Hp'.
    pose proof He as (_ & _ & Hs & Hnul & _).
    pose proof (entry_head_length e Hs) as Hh.
    pose proof (entry_len_pad (length pathb)) as [Hpad1 Hpad2].
    set (k := (entry_len (length pathb) - 62 - length pathb)%nat) in *.
    assert (Hk : exists k', k = S k') by (exists (k - 1)%nat; lia).
    destruct Hk as [k' Hk].
    assert (Hlen : length (entry_head e ++ pathb ++ repeat 0 k)
                   = entry_len (length pathb)).
    { rewrite !length_app, repeat_length, Hh. lia. }
    cbn [concat] in *.
    assert (Hfuel' : (entry_len (length pathb) + length (concat ps') <= fuel)%nat).
    { rewrite <- Hlen, <- length_app. exact Hfuel. }
    clear Hfuel.
    destruct fuel as [|fuel]; [lia|]. cbn [read_entries].
    replace (62 <? length _)%nat with true
      by (symmetry; apply Nat.ltb_lt; rewrite !length_app, repeat_length, Hh; lia).
    rewrite <- !app_assoc.
    assert (D62 : forall X, skipn 62 (entry_head e ++ X) = X)
      by (intros X; rewrite <- Hh; apply drop_app_length).
    assert (T62 : forall X, firstn 62 (entry_head e ++ X) = entry_head e)
      by (intros X; rewrite <- Hh; apply take_app_length).
    rewrite !D62, !T62. rewrite Hk. cbn [repeat app].
    rewrite find_nul_app by (eapply encode_no_nul; eauto).
    cbv beta iota. rewrite take_app_length. rewrite (decode_encode _ _ Hpath).
    cbn [mbind result_bind].
    rewrite unpack_entry_head by done.
    replace (skipn (entry_len (length pathb))
               (entry_head e ++ pathb ++ 0 :: repeat 0 k' ++ concat ps'))
      with (concat ps').
    2:{ change (0 :: repeat 0 k' ++ concat ps')
          with (repeat 0 (S k') ++ concat ps').
        rewrite !app_assoc. symmetry. apply drop_app_length'.
        rewrite !length_app, repeat_length, Hh. unfold k in Hk. lia. }
    rewrite IH by (done || lia). reflexivity.
Qed.

(** Reading back what [pack_index] made. *)
Lemma parse_pack_index E file :
  Forall entry_ok E ->
  pack_index E = Ok file ->
  parse_index file = Ok E.
Proof.
  intros HE Hfile. unfold pack_index in Hfile.
  apply rbind_inv in Hfile as (ps & Hps & Hfile).
  apply rbind_inv in Hfile as (count & Hcount & Hfile).
  apply Ok_inj in Hfile; subst file.
  unfold pack_L in Hcount.
  destruct ((0 <=? len E) && (len E <? 4294967296)) eqn:Hn; [|discriminate].
  apply Ok_inj in Hcount; subst count. bool_hyps.
  set (all_data := (signature ++ be32 2 ++ be32 (len E)) ++ concat ps).
  unfold parse_index. cbv zeta.
  rewrite length_app, digest_length, Nat.add_sub.
  rewrite take_app_length, drop_app_length.
  rewrite bool_decide_eq_true_2 by done. cbn [negb].
  assert (H12 : firstn 12 (all_data ++ Sha1.digest all_data)
                = signature ++ be32 2 ++ be32 (len E)).
  { unfold all_data. rewrite <- app_assoc.
    apply take_app_length'. reflexivity. }
  rewrite H12.
  change (length (signature ++ be32 2 ++ be32 (len E)) =? 12)%nat with true.
  cbn [negb].
  change (slice (signature ++ be32 2 ++ be32 (len E)) 0 4) with signature.
  rewrite bool_decide_eq_true_2 by done. cbn [negb].
  change (slice (signature ++ be32 2 ++ be32 (len E)) 4 8) with (be32 2).
  change (be_value (be32 2) 0 =? 2) with true. cbn [negb].
  change (slice (signature ++ be32 2 ++ be32 (len E)) 8 12) with (be32 (len E)).
  rewrite be32_value by (unfold fits32; lia).
  replace (skipn 12 all_data) with (concat ps).
  2:{ unfold all_data. symmetry. apply drop_app_length'. reflexivity. }
  rewrite (read_entries_packed E ps) by done.
  cbn [mbind result_bind]. rewrite Z.eqb_refl. reflexivity.
Qed.

Lemma pack_entries_ok E :
  Forall entry_ok E -> exists ps, rmap pack_entry E = Ok ps.
Proof.
  induction 1 as [|e E He HE [ps IH]]; [by exists []|].
  destruct (pack_entry_ok e He) as (pathb & _ & Hp).
  eexists. cbn [rmap]. rewrite Hp, IH. reflexivity.
Qed.

Lemma pack_index_ok E :
  Forall entry_ok E -> len E < 4294967296 ->
  exists file, pack_index E = Ok file.
Proof.
  intros HE Hn. destruct (pack_entries_ok E HE) as [ps Hps].
  eexists. unfold pack_index. rewrite Hps. cbn [mbind result_bind].
  rewrite pack_L_ok by (unfold fits32, len in *; lia). reflexivity.
Qed.

(** Every file [pack_index] makes ends with the digest of what precedes. *)
Lemma pack_index_shape E file :
  pack_index E = Ok file ->
  exists all_data, file = all_data ++ Sha1.digest all_data.
Proof.
  unfold pack_index. intros H.
  apply rbind_inv in H as (ps & _ & H).
  apply rbind_inv in H as (count & _ & H).
  apply Ok_inj in H. eauto.
Qed.

Lemma read_index_of_file data s :
  index s = Some data -> read_index s = (parse_index data, s).
Proof.
  intros H. unfold read_index, except_FileNotFound.
  rewrite bind_run. unfold read_file at 1. rewrite bind_run.
  unfold read_file. rewrite H. reflexivity.
Qed.

Lemma read_index_no_file s : index s = None -> read_index s = (Ok [], s).
Proof.
  intros H. unfold read_index, except_FileNotFound.
  rewrite bind_run. unfold read_file at 1. rewrite bind_run.
  unfold read_file. rewrite H. reflexivity.
Qed.

Lemma write_index_ok E file s :
  pack_index E = Ok file ->
  write_index E s
  = (Ok tt, {| objects := objects s; index := Some file;
               master := master s; worktree := worktree s |}).
Proof.
  intros H. unfold write_index. rewrite bind_run, lift_run, H. reflexivity.
Qed.

Lemma write_index_raise E e s :
  pack_index E = Raise e -> write_index E s = (Raise e, s).
Proof.
  intros H. unfold write_index. rewrite bind_run, lift_run, H. reflexivity.
Qed.

(** *** Damaged index files *)

Lemma insert_changes (l : list Z) (i : nat) (b : Z) :
  (i < length l)%nat -> l !! i <> Some b -> <[i := b]> l <> l.
Proof.
  intros Hi Hb E. apply Hb. rewrite <- E at 1.
  by apply list_lookup_insert_eq.
Qed.

(** One byte changed inside the trailing digest. *)
Lemma damaged_trailer all_data (i : nat) (b : Z) :
  let file := all_data ++ Sha1.digest all_data in
  (length all_data <= i < length file)%nat ->
  file !! i <> Some b ->
  parse_index (<[i := b]> file) = Raise (AssertionError InvalidIndexChecksum).
Proof.
  intros file [Hlo Hhi] Hb. unfold parse_index. cbv zeta.
  unfold file in *. rewrite length_insert, length_app, digest_length in *.
  rewrite Nat.add_sub.
  rewrite insert_app_r_alt by done.
  rewrite take_app_length, drop_app_length.
  rewrite lookup_app_r in Hb by done.
  rewrite bool_decide_eq_false_2; [reflexivity|].
  intros E. symmetry in E. revert E. apply insert_changes; [|done].
  rewrite digest_length. lia.
Qed.

(** One byte changed before the trailing digest: rejected whenever the
    digest tells the changed bytes from the original ones. *)
Lemma damaged_body all_data (i : nat) (b : Z) :
  let file := all_data ++ Sha1.digest all_data in
  (i < length all_data)%nat ->
  Sha1.digest (<[i := b]> all_data) <> Sha1.digest all_data ->
  parse_index (<[i := b]> file) = Raise (AssertionError InvalidIndexChecksum).
Proof.
  intros file Hi Hd. unfold parse_index. cbv zeta.
  unfold file in *. rewrite length_insert, length_app, digest_length.
  rewrite Nat.add_sub.
  rewrite insert_app_l by done.
  rewrite take_app_length', drop_app_length' by (by rewrite length_insert).
  rewrite bool_decide_eq_false_2 by done. reflexivity.
Qed.


(** One byte of a written index changed, anywhere: the checksum
    comparison rejects the file, on the one condition that SHA-1 tells
    the changed bytes from the original ones when the change falls before
    the trailing digest. *)
Lemma damaged_index E file (i : nat) (b : Z) s :
  pack_index E = Ok file ->
  (i < length file)%nat ->
  file !! i <> Some b ->
  index s = Some (<[i := b]> file) ->
  ((i < length file - 20)%nat ->
   Sha1.digest (<[i := b]> (firstn (length file - 20) file))
   <> Sha1.digest (firstn (length file - 20) file)) ->
  read_index s = (Raise (AssertionError InvalidIndexChecksum), s).
Proof.
  intros Hpack Hi Hb Hs Hd.
  rewrite (read_index_of_file _ _ Hs). f_equal.
  destruct (pack_index_shape E file Hpack) as [all_data ->].
  rewrite length_app, digest_length, Nat.add_sub, take_app_length in Hd.
  destruct (decide (i < length all_data)%nat) as [Hlt|Hge].
  - apply damaged_body; [done|]. apply Hd.
    rewrite length_app, digest_length in Hi. lia.
  - apply damaged_trailer; [|done]. lia.
Qed.

Example damaged_empty_index :
  length empty_index_file = 32%nat
  /\ all_flips_caught empty_index_file = true.
Proof. split; vm_compute; reflexivity. Qed.

(** ** Sorting *)

Lemma str_le_refl a : str_le a a = true.
Proof.
  induction a as [|x a IH]; [reflexivity|]. simpl.
  rewrite Z.eqb_refl, IH. apply orb_true_r.
Qed.

Lemma str_le_total a b : str_le a b = false -> str_le b a = true.
Proof.
  revert b. induction a as [|x a IH]; intros [|y b] H; simpl in *;
    try done.
  bool_hyps.
  - destruct (y <? x) eqn:E; [reflexivity|]. bool_hyps. lia.
  - destruct (y <? x) eqn:E; [reflexivity|]. bool_hyps.
    assert (y = x) by lia. subst y. rewrite Z.eqb_refl. simpl. auto.
Qed.

Lemma str_le_trans a b c :
  str_le a b = true -> str_le b c = true -> str_le a c = true.
Proof.
  revert b c. induction a as [|x a IH]; intros [|y b] [|z c] H1 H2;
    simpl in *; try done.
  bool_hyps.
  - apply orb_true_iff. left. apply Z.ltb_lt. lia.
  - apply orb_true_iff. left. apply Z.ltb_lt. lia.
  - apply orb_true_iff. left. apply Z.ltb_lt. lia.
  - subst. rewrite Z.eqb_refl. apply orb_true_iff. right. simpl. eauto.
Qed.

Lemma str_le_antisym a b : str_le a b = true -> str_le b a = true -> a = b.
Proof.
  revert b. induction a as [|x a IH]; intros [|y b] H1 H2; simpl in *;
    try done.
  bool_hyps; try lia. subst. f_equal. auto.
Qed.

Section SortingFacts.
Context {A : Type} (key : A -> str).

Lemma insert_sorted_perm x l : insert_sorted key x l ≡ₚ x :: l.
Proof.
  induction l as [|y l IH]; [done|]. simpl.
  destruct (str_le (key x) (key y)); [done|].
  rewrite IH. apply Permutation_swap.
Qed.

Lemma sorted_perm l : sorted key l ≡ₚ l.
Proof.
  induction l as [|x l IH]; [done|]. unfold sorted in *. simpl.
  rewrite insert_sorted_perm. by constructor.
Qed.

Lemma insert_sorted_ascending x l :
  ascending key l -> ascending key (insert_sorted key x l).
Proof.
  unfold ascending. induction 1 as [|y l Hl IH Hhd]; simpl.
  - repeat constructor.
  - destruct (str_le (key x) (key y)) eqn:E.
    + constructor; [by constructor|]. by constructor.
    + constructor; [exact IH|].
      apply str_le_total in E.
      destruct l as [|z l]; simpl.
      * by constructor.
      * destruct (str_le (key x) (key z)); constructor; [done|].
        by inversion Hhd.
Qed.

Lemma sorted_ascending l : ascending key (sorted key l).
Proof.
  induction l as [|x l IH]; [constructor|].
  by apply insert_sorted_ascending.
Qed.

Lemma elem_of_sorted x l : x ∈ sorted key l <-> x ∈ l.
Proof. by rewrite sorted_perm. Qed.

Lemma NoDup_sorted l : NoDup l -> NoDup (sorted key l).
Proof. by rewrite sorted_perm. Qed.
End SortingFacts.

(** ** Status *)

Lemma by_path_snoc entries e :
  by_path (entries ++ [e]) = <[IndexEntry.path e := e]> (by_path entries).
Proof. unfold by_path. by rewrite fold_left_app. Qed.

Lemma dom_by_path entries p :
  p ∈ dom (by_path entries) <-> p ∈ map IndexEntry.path entries.
Proof.
  induction entries as [|e entries IH] using rev_ind.
  - unfold by_path. simpl. rewrite dom_empty_L. set_solver.
  - rewrite by_path_snoc, dom_insert_L, map_app. simpl.
    rewrite elem_of_union, elem_of_app, IH. set_solver.
Qed.

(** With one entry per path, the dictionary holds exactly the entries. *)
Lemma by_path_unique entries p e :
  NoDup (map IndexEntry.path entries) ->
  by_path entries !! p = Some e <-> e ∈ entries /\ IndexEntry.path e = p.
Proof.
  induction entries as [|x entries IH] using rev_ind; intros Hnd.
  - unfold by_path. simpl. rewrite lookup_empty. set_solver.
  - rewrite map_app in Hnd. simpl in Hnd.
    apply NoDup_app in Hnd as (Hnd & Hx & _).
    rewrite by_path_snoc, elem_of_app, list_elem_of_singleton.
    destruct (decide (IndexEntry.path x = p)) as [E|N].
    + rewrite E, lookup_insert_eq. split.
      * intros [= ->]. auto.
      * intros [[He| ->] Hp]; [|done]. exfalso.
        apply (Hx (IndexEntry.path e)).
        -- apply list_elem_of_fmap. eauto.
        -- rewrite Hp, <- E. set_solver.
    + rewrite lookup_insert_ne by done. rewrite IH by done.
      split; [intros [? ?]; auto|]. intros [[?| ->] ?]; [auto|done].
Qed.

(** *** The paths of the working directory *)

Lemma components_from_slash a : forall cur b,
  components_from cur (a ++ 47 :: b)
  = components_from cur a ++ components_from [] b.
Proof.
  induction a as [|c a IH]; intros cur b; [reflexivity|].
  cbn [app components_from]. destruct (c =? 47).
  - by rewrite IH.
  - apply IH.
Qed.

Lemma components_from_nonempty p : forall cur, components_from cur p <> [].
Proof.
  induction p as [|c p IH]; intros cur; cbn [components_from]; [done|].
  destruct (c =? 47); [done|apply IH].
Qed.

Lemma removelast_app_r {A} (l l' : list A) :
  l' <> [] -> removelast (l ++ l') = l ++ removelast l'.
Proof. intros H. by apply removelast_app. Qed.

Lemma elem_of_dirs d k : forall cur,
  d ∈ removelast (components_from cur k) ->
  exists pre rest,
    rev cur ++ k = pre ++ d ++ 47 :: rest
    /\ (pre = [] \/ exists pre', pre = pre' ++ [47]).
Proof.
  induction k as [|c k IH]; intros cur Hd.
  { cbn in Hd. by apply elem_of_nil in Hd. }
  cbn [components_from] in Hd. destruct (c =? 47) eqn:Hc.
  - apply Z.eqb_eq in Hc. subst c.
    change (rev cur :: components_from [] k)
      with ([rev cur] ++ components_from [] k) in Hd.
    rewrite removelast_app_r in Hd by apply components_from_nonempty.
    apply elem_of_app in Hd as [Hd|Hd].
    + apply list_elem_of_singleton in Hd. subst d.
      exists [], k. split; [reflexivity|by left].
    + apply IH in Hd as (pre & rest & E & Hpre). cbn [rev app] in E.
      exists (rev cur ++ 47 :: pre), rest. split.
      * rewrite E, <- !app_assoc. reflexivity.
      * right. destruct Hpre as [->|[pre' ->]].
        -- exists (rev cur). reflexivity.
        -- exists (rev cur ++ 47 :: pre'). by rewrite <- app_assoc.
  - apply IH in Hd as (pre & rest & E & Hpre).
    exists pre, rest. split; [|done]. rewrite <- E. cbn [rev].
    by rewrite <- app_assoc.
Qed.

Lemma under_dot_git_spec k : under_dot_git k = true <-> inside_dot_git k.
Proof.
  unfold under_dot_git, inside_dot_git. rewrite existsb_exists. split.
  - intros (d & Hd & E). apply bool_decide_eq_true_1 in E. subst d.
    apply list_elem_of_In, elem_of_dirs in Hd as (pre & rest & E & Hpre).
    exists pre, rest. split; [|exact Hpre]. cbn [rev app] in E.
    rewrite E. reflexivity.
  - intros (pre & rest & -> & Hpre). exists dot_git.
    split; [|by apply bool_decide_eq_true_2].
    apply list_elem_of_In.
    assert (E : forall cur,
              components_from cur (py ".git/" ++ rest)
              = components_from cur (py ".git") ++ components_from [] rest).
    { intros cur. apply (components_from_slash (py ".git")). }
    destruct Hpre as [->|[pre' ->]].
    + cbn [app]. rewrite (E []).
      rewrite removelast_app_r by apply components_from_nonempty.
      apply elem_of_app. left. left.
    + change (py "/") with [47]. rewrite <- app_assoc.
      change ([47] ++ py ".git/" ++ rest) with (47 :: (py ".git/" ++ rest)).
      rewrite components_from_slash, (E []).
      rewrite !removelast_app_r;
        try apply components_from_nonempty.
      * apply elem_of_app. right. apply elem_of_app. left. left.
      * intros H. apply app_eq_nil in H as [H _]. discriminate H.
Qed.

Lemma normalize_walked k :
  normalize (py "./" ++ k) = map (fun c => if c =? 92 then 47 else c) k.
Proof. destruct k; reflexivity. Qed.


(** The set [get_status] builds from [os.walk] holds exactly the working
    paths. *)
Lemma live_paths_spec s p : p ∈ live_paths s <-> working_path s p.
Proof.
  unfold live_paths, walked, working_path.
  rewrite elem_of_list_to_set, list_elem_of_fmap. split.
  - intros (w & -> & Hw). apply list_elem_of_fmap in Hw as (k & -> & Hk).
    apply list_elem_of_filter in Hk as [Hout Hk]. apply elem_of_names in Hk.
    exists k. split; [done|]. split; [|apply normalize_walked].
    intros Hin. apply under_dot_git_spec in Hin. congruence.
  - intros (k & Hk & Hout & ->). exists (py "./" ++ k).
    split; [symmetry; apply normalize_walked|].
    apply list_elem_of_fmap. exists k. split; [done|].
    apply list_elem_of_filter. split; [|by apply elem_of_names].
    destruct (under_dot_git k) eqn:E; [|done].
    exfalso. by apply Hout, under_dot_git_spec.
Qed.

Section Status.
Variable zlib_compress : bytes -> bytes.

Lemma hash_object_blob data s :
  hash_object zlib_compress data (py "blob") false s
  = (Ok (blob_digest data), s).
Proof.
  unfold hash_object. rewrite bind_run, lift_run.
  rewrite encode_ascii.
  2:{ apply ascii_app; [by apply ascii_check|].
      apply ascii_app; [by apply ascii_check|].
      eapply Forall_impl; [apply (format_int_chars 10); lia|].
      simpl. intros; lia. }
  cbv zeta. rewrite bind_run. unfold pass. cbn [mret M_ret].
  unfold blob_digest, object_digest. rewrite <- !app_assoc. reflexivity.
Qed.

Lemma changed_among_spec entries s ps :
  (forall p, p ∈ ps ->
     is_Some (worktree s !! p) /\ is_Some (by_path entries !! p)) ->
  changed_among zlib_compress (by_path entries) ps s
  = (Ok (filter (fun p => differs s entries p = true) ps), s).
Proof.
  induction ps as [|p ps IH]; intros Hps; [reflexivity|].
  destruct (Hps p) as [[f Hf] [e He]]; [set_solver|].
  cbn [changed_among]. rewrite bind_run.
  rewrite (read_work_file _ _ _ Hf).
  rewrite bind_run, hash_object_blob, bind_run, He.
  cbn [mret M_ret]. rewrite bind_run, IH by set_solver.
  assert (Hd : differs s entries p
               = bool_decide
                   (blob_digest (f_data f) ≠ hex (IndexEntry.sha1 e))).
  { unfold differs, recorded. rewrite Hf, He. reflexivity. }
  rewrite filter_cons, Hd.
  destruct (bool_decide _) eqn:E.
  - rewrite decide_True by done. reflexivity.
  - rewrite decide_False by done. reflexivity.
Qed.





End Status.

(** ** add *)

Section Add.
Variable zlib_compress : bytes -> bytes.

(** Storing a blob changes the object store and nothing else. *)
Lemma hash_object_blob_write data s :
  exists s1,
    hash_object zlib_compress data (py "blob") true s
    = (Ok (blob_digest data), s1)
    /\ index s1 = index s /\ master s1 = master s
    /\ worktree s1 = worktree s.
Proof.
  destruct (hash_object_store zlib_compress data (py "blob") s)
    as (s1 & H & _ & _ & Hi & Hm & Hw); [by apply ascii_check|].
  by exists s1.
Qed.

Lemma add_loop_spec paths : forall acc s r s1,
  add_loop zlib_compress paths acc s = (Ok r, s1) ->
  index s1 = index s /\ master s1 = master s /\ worktree s1 = worktree s
  /\ exists news,
       r = acc ++ news
       /\ map IndexEntry.path news = paths
       /\ Forall (fun e => path_fits (IndexEntry.path e)
                           /\ exists f,
                                worktree s !! IndexEntry.path e = Some f
                                /\ added_entry f (IndexEntry.path e) e)
                 news.
Proof.
  induction paths as [|path paths IH]; intros acc s r s1 H.
  - cbn [add_loop mret M_ret] in H. injection H as <- <-.
    repeat split; try done. exists []. by rewrite app_nil_r.
  - cbn [add_loop] in H. rewrite bind_run in H.
    destruct (worktree s !! path) as [f|] eqn:Hf.
    2:{ rewrite (read_work_file_missing _ _ Hf) in H. discriminate. }
    rewrite (read_work_file _ _ _ Hf) in H.
    destruct (hash_object_blob_write (f_data f) s)
      as (s0 & Hh & Hi0 & Hm0 & Hw0).
    rewrite bind_run, Hh in H.
    rewrite bind_run in H.
    assert (Hf0 : worktree s0 !! path = Some f) by (by rewrite Hw0).
    rewrite (os_stat_file _ _ _ Hf0) in H.
    rewrite bind_run, lift_run in H.
    destruct (encode path) as [encoded|] eqn:Henc; [|discriminate].
    rewrite bind_run in H. unfold assert in H.
    destruct (len encoded <? 4096) eqn:Hlen; [|discriminate].
    rewrite bind_run, lift_run in H.
    destruct (fromhex (blob_digest (f_data f))) as [digest|] eqn:Hd;
      [|discriminate].
    apply IH in H as (Hi & Hm & Hw & news & -> & Hp & Hnews).
    rewrite Hi, Hm, Hw. repeat split; try done.
    exists (new_entry (f_stat f) digest (len encoded) path :: news).
    split; [by rewrite <- app_assoc|]. split; [by rewrite <- Hp|].
    constructor.
    + cbn [new_entry IndexEntry.path]. split.
      * exists encoded. split; [done|]. by apply Z.ltb_lt.
      * exists f. split; [done|]. by exists encoded, digest.
    + eapply Forall_impl; [exact Hnews|]. intros e [? (f' & ? & ?)].
      split; [done|]. exists f'. split; [|done]. by rewrite <- Hw0.
Qed.

Lemma add_spec paths s s' old :
  read_index s = (Ok old, s) ->
  add zlib_compress paths s = (Ok tt, s') ->
  let paths' := map replace_backslash paths in
  exists news file,
    let entries :=
      sorted IndexEntry.path
             (filter (fun e => IndexEntry.path e ∉ paths') old ++ news) in
    index s' = Some file
    /\ pack_index entries = Ok file
    /\ worktree s' = worktree s /\ master s' = master s
    /\ map IndexEntry.path news = paths'
    /\ Forall (fun e => path_fits (IndexEntry.path e)
                        /\ exists f,
                             worktree s !! IndexEntry.path e = Some f
                             /\ added_entry f (IndexEntry.path e) e)
              news.
Proof.
  intros Hidx H paths'. unfold add in H. fold paths' in H.
  rewrite bind_run, Hidx in H. rewrite bind_run in H.
  destruct (add_loop _ _ _ s) as [[r|e] s1] eqn:Hloop; [|discriminate].
  apply add_loop_spec in Hloop as (Hi & Hm & Hw & news & -> & Hp & Hnews).
  exists news.
  destruct (pack_index (sorted IndexEntry.path
              (filter (fun e => IndexEntry.path e ∉ paths') old ++ news)))
    as [file|e] eqn:Hpack.
  - rewrite (write_index_ok _ _ _ Hpack) in H. injection H as <-.
    exists file. cbn [index worktree master]. by repeat split.
  - rewrite (write_index_raise _ _ _ Hpack) in H. discriminate.
Qed.

(** The paths of the kept entries stay distinct. *)
Lemma NoDup_kept_paths (P : IndexEntry.t -> Prop) `{forall e, Decision (P e)}
    (old : list IndexEntry.t) :
  NoDup (map IndexEntry.path old) ->
  NoDup (map IndexEntry.path (filter P old)).
Proof.
  induction old as [|e old IH]; intros Hnd; [constructor|].
  cbn [map] in Hnd. apply NoDup_cons in Hnd as [Hin Hnd].
  rewrite filter_cons. destruct (decide (P e)); [|by apply IH].
  cbn [map]. apply NoDup_cons. split; [|by apply IH].
  intros Hp. apply Hin.
  change (map IndexEntry.path (filter P old))
    with (IndexEntry.path <$> filter P old) in Hp.
  apply list_elem_of_fmap in Hp as (e' & -> & He').
  apply list_elem_of_filter in He' as [_ He'].
  change (map IndexEntry.path old) with (IndexEntry.path <$> old).
  apply list_elem_of_fmap. eauto.
Qed.

(** What [add] keeps when no path is given twice.  Start from an index
    whose entries are sorted by path, with no path twice and every path
    shorter than 4096 bytes, and give [add] a list of paths that are
    pairwise distinct once their backslashes are turned into slashes.
    When [add] returns, the index file on disk is the serialisation of a
    list of entries that is sorted by path, holds no path twice and has
    every path shorter than 4096 bytes; every entry in it is either an
    old entry whose path was not given, or the new entry of a given
    path. *)
Theorem add_keeps_index_invariant (paths : list str) (s s' : repo)
    (old : list IndexEntry.t) :
  read_index s = (Ok old, s) ->
  sorted_by_path old ->
  NoDup (map IndexEntry.path old) ->
  Forall (fun e => path_fits (IndexEntry.path e)) old ->
  NoDup (map replace_backslash paths) ->
  add zlib_compress paths s = (Ok tt, s') ->
  exists entries file,
    index s' = Some file
    /\ pack_index entries = Ok file
    /\ sorted_by_path entries
    /\ NoDup (map IndexEntry.path entries)
    /\ Forall (fun e => path_fits (IndexEntry.path e)) entries
    /\ forall e, e ∈ entries ->
          (e ∈ old /\ IndexEntry.path e ∉ map replace_backslash paths)
          \/ (IndexEntry.path e ∈ map replace_backslash paths
              /\ exists f, worktree s !! IndexEntry.path e = Some f
                           /\ added_entry f (IndexEntry.path e) e).
Proof.
  intros Hidx _ Hnd Hfit Hpaths Hadd.
  destruct (add_spec paths s s' old Hidx Hadd)
    as (news & file & Hi & Hpack & _ & _ & Hp & Hnews).
  cbv zeta in Hi, Hpack.
  set (paths' := map replace_backslash paths) in *.
  set (kept := filter (fun e => IndexEntry.path e ∉ paths') old) in *.
  exists (sorted IndexEntry.path (kept ++ news)), file.
  split; [done|]. split; [done|]. split; [apply sorted_ascending|].
  assert (Hkept : forall e, e ∈ kept -> e ∈ old /\ IndexEntry.path e ∉ paths').
  { intros e He. apply list_elem_of_filter in He. tauto. }
  split; [|split].
  - assert (Hperm : map IndexEntry.path (sorted IndexEntry.path (kept ++ news))
                    ≡ₚ map IndexEntry.path kept ++ paths').
    { rewrite <- Hp, <- map_app. apply Permutation_map, sorted_perm. }
    rewrite Hperm. apply NoDup_app. split; [by apply NoDup_kept_paths|].
    split; [|done]. intros p Hk Hin.
    change (map IndexEntry.path kept) with (IndexEntry.path <$> kept) in Hk.
    apply list_elem_of_fmap in Hk as (e & -> & He).
    by apply Hkept in He as [_ He].
  - apply Forall_forall. intros e He.
    apply elem_of_sorted, elem_of_app in He as [He|He].
    + apply Hkept in He as [He _].
      by apply (proj1 (Forall_forall _ _) Hfit).
    + by apply (proj1 (Forall_forall _ _) Hnews) in He as [? _].
  - intros e He. apply elem_of_sorted, elem_of_app in He as [He|He].
    + left. by apply Hkept.
    + right. split.
      * rewrite <- Hp.
        change (map IndexEntry.path news) with (IndexEntry.path <$> news).
        apply list_elem_of_fmap. eauto.
      * by apply (proj1 (Forall_forall _ _) Hnews) in He as [_ ?].
Qed.

End Add.

(** ** Commits *)

Lemma be32_bytes_ok x : bytes_ok (be32 x).
Proof. unfold be32, bytes_ok, byte_ok. repeat constructor; zdiv. Qed.

Lemma digest_bytes_ok m : bytes_ok (Sha1.digest m).
Proof.
  unfold Sha1.digest.
  destruct (Sha1.blocks _ _ _) as [[[[h0 h1] h2] h3] h4].
  unfold bytes_ok. rewrite !Forall_app. repeat split; apply be32_bytes_ok.
Qed.

Lemma hex_digit_char n : 0 <= n < 16 -> is_hex_char (hex_digit n).
Proof.
  unfold hex_digit, is_hex_char. intros H.
  destruct (n <? 10) eqn:E; bool_hyps; lia.
Qed.

Lemma hex_chars bs : bytes_ok bs -> Forall is_hex_char (hex bs).
Proof.
  induction 1 as [|b bs Hb Hbs IH]; [constructor|].
  unfold byte_ok in Hb. cbn [hex flat_map app].
  constructor; [apply hex_digit_char; zdiv|].
  constructor; [apply hex_digit_char; zdiv|]. exact IH.
Qed.

Lemma hex_length bs : length (hex bs) = (2 * length bs)%nat.
Proof.
  unfold hex. induction bs as [|b bs IH]; [reflexivity|].
  cbn [flat_map app length]. lia.
Qed.

Lemma hex_char_ascii s : Forall is_hex_char s -> ascii s.
Proof.
  intros H. eapply Forall_impl; [exact H|].
  unfold is_hex_char. intros c Hc. simpl. lia.
Qed.

Lemma hex_char_no_space s : Forall is_hex_char s -> no_space s.
Proof.
  intros H. eapply Forall_impl; [exact H|].
  unfold is_hex_char, isspace. intros c Hc. simpl.
  repeat (apply orb_false_iff; split);
    try (apply andb_false_iff);
    try (apply Z.eqb_neq; lia);
    solve [left; apply Z.leb_gt; lia | right; apply Z.leb_gt; lia].
Qed.

Lemma unhex_hex_digit n : 0 <= n < 16 -> unhex_digit (hex_digit n) = Ok n.
Proof.
  unfold hex_digit, unhex_digit. intros H.
  destruct (n <? 10) eqn:E; bool_hyps.
  - replace ((48 <=? 48 + n) && (48 + n <? 58)) with true
      by (symmetry; apply andb_true_iff; split;
          [apply Z.leb_le|apply Z.ltb_lt]; lia).
    f_equal. lia.
  - replace ((48 <=? 87 + n) && (87 + n <? 58)) with false
      by (symmetry; apply andb_false_iff; right; apply Z.ltb_ge; lia).
    replace ((97 <=? 87 + n) && (87 + n <? 103)) with true
      by (symmetry; apply andb_true_iff; split;
          [apply Z.leb_le|apply Z.ltb_lt]; lia).
    f_equal. lia.
Qed.

Lemma fromhex_hex bs : bytes_ok bs -> fromhex (hex bs) = Ok bs.
Proof.
  induction 1 as [|b bs Hb Hbs IH]; [reflexivity|].
  unfold byte_ok in Hb. cbn [hex flat_map app fromhex].
  rewrite !unhex_hex_digit by zdiv. cbn [mbind result_bind].
  fold (hex bs). rewrite IH. cbn [mbind result_bind]. f_equal. f_equal. zdiv.
Qed.

Lemma object_digest_hex kind data : Forall is_hex_char (object_digest kind data).
Proof. apply hex_chars, digest_bytes_ok. Qed.

Lemma object_digest_length kind data : length (object_digest kind data) = 40%nat.
Proof. unfold object_digest. by rewrite hex_length, digest_length. Qed.

(** *** strip *)

Lemma lstrip_word s : no_space s -> lstrip s = s.
Proof. destruct 1 as [|c s Hc _]; [reflexivity|]. simpl. by rewrite Hc. Qed.

Lemma strip_line s : no_space s -> strip (s ++ nl) = s.
Proof.
  intros Hs. destruct s as [|c0 s0] eqn:Es; [reflexivity|]. rewrite <- Es in *.
  unfold strip.
  assert (Hl : lstrip (s ++ nl) = s ++ nl).
  { subst s. apply Forall_cons in Hs as [Hc _]. simpl. by rewrite Hc. }
  clear Es.
  rewrite Hl, rev_app_distr. change (rev nl) with [10]. cbn [app lstrip].
  change (isspace 10) with true. cbv iota.
  rewrite lstrip_word; [apply rev_involutive|].
  unfold no_space. apply Forall_forall. intros c Hc.
  apply list_elem_of_In, in_rev, list_elem_of_In in Hc.
  by apply (proj1 (Forall_forall _ _) Hs).
Qed.

Lemma get_local_master_hash_spec s :
  get_local_master_hash s
  = (match master s with
     | None => Ok None
     | Some data => text ← decode data; Ok (Some (strip text))
     end, s).
Proof.
  unfold get_local_master_hash, except_FileNotFound.
  rewrite bind_run. unfold read_file at 1.
  destruct (master s) as [data|]; [|reflexivity].
  rewrite bind_run, lift_run.
  destruct (decode data) as [text|e] eqn:E; [reflexivity|].
  by rewrite (decode_raises _ _ E).
Qed.

(** The branch file after a commit, read back. *)
Lemma master_hash_of_digest s kind data :
  master s = Some (object_digest kind data ++ nl) ->
  get_local_master_hash s = (Ok (Some (object_digest kind data)), s).
Proof.
  intros H. rewrite get_local_master_hash_spec, H.
  pose proof (object_digest_hex kind data) as Hhex.
  rewrite (decode_encode (object_digest kind data ++ nl)).
  2:{ apply encode_ascii, ascii_app; [by apply hex_char_ascii|].
      by apply ascii_check. }
  cbn [mbind result_bind]. rewrite strip_line by (by apply hex_char_no_space).
  reflexivity.
Qed.

Section Commit.
Variable zlib_compress : bytes -> bytes.

Lemma write_tree_frame s r s0 :
  write_tree zlib_compress s = (r, s0) ->
  index s0 = index s /\ master s0 = master s /\ worktree s0 = worktree s.
Proof.
  unfold write_tree. rewrite bind_run.
  pose proof (read_only_read_index s) as Hro.
  destruct (read_index s) as [[entries|e] s'] eqn:Hidx; simpl in Hro; subst s'.
  2:{ intros [= <- <-]. done. }
  rewrite bind_run, lift_run.
  destruct (rmap _ entries) as [tree_entries|e]; [|by intros [= <- <-]].
  destruct (hash_object_store zlib_compress (concat tree_entries)
              (py "tree") s) as (s1 & H & _ & _ & Hi & Hm & Hw);
    [by apply ascii_check|].
  rewrite H. by intros [= <- <-].
Qed.

Lemma write_tree_stores s tree s0 :
  write_tree zlib_compress s = (Ok tree, s0) -> is_Some (stored s0 tree).
Proof.
  unfold write_tree. rewrite bind_run.
  pose proof (read_only_read_index s) as Hro.
  destruct (read_index s) as [[entries|e] s'] eqn:Hidx; simpl in Hro; subst s';
    [|discriminate].
  rewrite bind_run, lift_run.
  destruct (rmap _ entries) as [tree_entries|e]; [|discriminate].
  destruct (hash_object_store zlib_compress (concat tree_entries)
              (py "tree") s) as (s1 & H & Hst & _);
    [by apply ascii_check|].
  rewrite H. by intros [= <- <-].
Qed.

(** The file [hash_object] writes for a commit. *)
Lemma commit_object_written payload s0 s2 :
  hash_object zlib_compress payload (py "commit") true s0
  = (Ok (object_digest (py "commit") payload), s2) ->
  stored s0 (object_digest (py "commit") payload) = None ->
  stored s2 (object_digest (py "commit") payload)
  = Some (zlib_compress (py "commit" ++ py " " ++ format_int 10 (len payload)
                         ++ [0] ++ payload)).
Proof.
  intros H Hnone.
  assert (He : encode (py "commit" ++ py " " ++ format_int 10 (len payload))
               = Ok (py "commit" ++ py " " ++ format_int 10 (len payload))).
  { apply encode_header, encode_ascii. by apply ascii_check. }
  pose proof (hash_object_absent zlib_compress payload (py "commit") _ s0 He)
    as Habs.
  assert (Ed : hex (Sha1.digest
                 ((py "commit" ++ py " " ++ format_int 10 (len payload))
                  ++ [0] ++ payload))
               = object_digest (py "commit") payload).
  { unfold object_digest. by rewrite <- !app_assoc. }
  rewrite Ed in Habs. cbv zeta in Habs. rewrite (Habs Hnone) in H.
  pose proof (f_equal snd H) as E. cbn [snd] in E. rewrite <- E.
  unfold stored. cbn [objects].
  rewrite lookup_insert_eq. cbn [mbind option_bind].
  rewrite lookup_insert_eq. by rewrite <- !app_assoc.
Qed.

(** What a commit that returns has done. *)
Lemma commit_spec message author timestamp timezone s d s1 :
  commit zlib_compress message author timestamp timezone s = (Ok d, s1) ->
  exists tree s0 parent payload,
    write_tree zlib_compress s = (Ok tree, s0)
    /\ get_local_master_hash s = (Ok parent, s)
    /\ commit_text
         (commit_lines tree parent (default default_author author)
                       (author_time timestamp (- timezone)) message)
       = Ok payload
    /\ d = object_digest (py "commit") payload
    /\ is_Some (stored s1 d)
    /\ master s1 = Some (d ++ nl)
    /\ index s1 = index s /\ worktree s1 = worktree s
    /\ is_Some (stored s1 tree)
    /\ (stored s0 d = None ->
        stored s1 d
        = Some (zlib_compress (py "commit" ++ py " "
                               ++ format_int 10 (len payload)
                               ++ [0] ++ payload))).
Proof.
  unfold commit. rewrite bind_run.
  destruct (write_tree zlib_compress s) as [[tree|e] s0] eqn:Htree;
    [|discriminate].
  destruct (write_tree_frame _ _ _ Htree) as (Hi0 & Hm0 & Hw0).
  rewrite bind_run, get_local_master_hash_spec.
  destruct (match master s0 with
            | Some data => _
            | None => Ok None
            end) as [parent|e] eqn:Hparent; [|discriminate].
  cbv zeta. rewrite bind_run, lift_run.
  replace (match author with Some a => a | None => default_author end)
    with (default default_author author) by (by destruct author).
  destruct (encode (join _ _)) as [payload|e] eqn:Hpayload; [|discriminate].
  destruct (hash_object_store zlib_compress payload (py "commit") s0)
    as (s2 & H & Hst & Hother & Hi & Hm & Hw); [by apply ascii_check|].
  pose proof (commit_object_written payload s0 s2 H) as Hcontent.
  pose proof (write_tree_stores _ _ _ Htree) as Htst.
  rewrite bind_run, H, bind_run, lift_run.
  rewrite encode_ascii.
  2:{ apply ascii_app; [|by apply ascii_check].
      apply hex_char_ascii, object_digest_hex. }
  rewrite bind_run. cbn [write_file mret M_ret].
  intros [= <- <-].
  exists tree, s0, parent, payload. split; [done|]. split.
  { rewrite get_local_master_hash_spec, <- Hm0, Hparent. reflexivity. }
  split; [exact Hpayload|]. split; [done|]. split.
  { unfold stored in *. exact Hst. }
  cbn [master index worktree].
  split; [done|]. split; [congruence|]. split; [congruence|].
  unfold stored in *. cbn [objects]. split; [|exact Hcontent].
  destruct (decide (tree = object_digest (py "commit") payload)) as [->|Hne].
  - exact Hst.
  - by rewrite (Hother _ Hne).
Qed.

(** C8.  In a repository without a branch file the payload of the
    first commit is the text of the lines [tree], [author], [committer],
    an empty line, the message and an empty line, with no [parent] line;
    the payload of a later commit made while the branch file still holds
    the first digest has the line [parent <first digest>] right after the
    [tree] line.  Each commit is stored: after it the object store has a
    file for the tree and a file for the commit, and where no file was
    there for the commit's digest the file holds the compressed form of
    [commit <length>], a NUL and the payload.  And after any commit the
    branch file holds the digest that commit returned, followed by a
    line feed, so that [get_local_master_hash] reads that digest
    back. *)
Theorem commit_chaining
    (s s1 s1' s2 : repo) (d1 d2 : str)
    (m1 m2 : str) (a1 a2 : option str) (t1 z1 t2 z2 : Z) :
  master s = None ->
  commit zlib_compress m1 a1 t1 z1 s = (Ok d1, s1) ->
  master s1' = master s1 ->
  commit zlib_compress m2 a2 t2 z2 s1' = (Ok d2, s2) ->
  (exists tree1 s0 payload1,
     write_tree zlib_compress s = (Ok tree1, s0)
     /\ commit_text [py "tree" ++ tree1;
                     author_line a1 t1 z1; committer_line a1 t1 z1;
                     []; m1; []] = Ok payload1
     /\ d1 = object_digest (py "commit") payload1
     /\ is_Some (stored s1 tree1)
     /\ is_Some (stored s1 d1)
     /\ (stored s0 d1 = None ->
         stored s1 d1
         = Some (zlib_compress (py "commit" ++ py " "
                                ++ format_int 10 (len payload1)
                                ++ [0] ++ payload1))))
  /\ (exists tree2 s0' payload2,
       write_tree zlib_compress s1' = (Ok tree2, s0')
       /\ commit_text [py "tree" ++ tree2; py "parent " ++ d1;
                       author_line a2 t2 z2; committer_line a2 t2 z2;
                       []; m2; []] = Ok payload2
       /\ d2 = object_digest (py "commit") payload2
       /\ is_Some (stored s2 tree2)
       /\ is_Some (stored s2 d2)
       /\ (stored s0' d2 = None ->
           stored s2 d2
           = Some (zlib_compress (py "commit" ++ py " "
                                  ++ format_int 10 (len payload2)
                                  ++ [0] ++ payload2))))
  /\ master s1 = Some (d1 ++ nl)
  /\ get_local_master_hash s1 = (Ok (Some d1), s1)
  /\ master s2 = Some (d2 ++ nl)
  /\ get_local_master_hash s2 = (Ok (Some d2), s2).
Proof.
  intros Hfresh H1 Hsame H2.
  apply commit_spec in H1
    as (tree1 & s0 & parent1 & payload1 & Ht1 & Hp1 & Hc1 & Hd1 & Hs1 & Hm1
        & _ & _ & Hts1 & Hcs1).
  apply commit_spec in H2
    as (tree2 & s0' & parent2 & payload2 & Ht2 & Hp2 & Hc2 & Hd2 & Hs2 & Hm2
        & _ & _ & Hts2 & Hcs2).
  rewrite get_local_master_hash_spec, Hfresh in Hp1.
  injection Hp1 as <-.
  assert (Hread1 : get_local_master_hash s1 = (Ok (Some d1), s1)).
  { subst d1. by apply master_hash_of_digest. }
  assert (Hparent2 : parent2 = Some d1).
  { rewrite get_local_master_hash_spec, Hsame in Hp2.
    rewrite get_local_master_hash_spec in Hread1. congruence. }
  subst parent2.
  assert (Hne : exists c p, d1 = c :: p).
  { pose proof (object_digest_length (py "commit") payload1) as Hl.
    rewrite <- Hd1 in Hl. destruct d1 as [|c p]; [discriminate|eauto]. }
  destruct Hne as (c & p & Hcp).
  split.
  { exists tree1, s0, payload1. split; [done|]. split; [done|].
    split; [done|]. split; [done|]. split; [done|]. exact Hcs1. }
  split.
  { exists tree2, s0', payload2. split; [done|]. split.
    { rewrite <- Hc2. unfold commit_lines. rewrite Hcp. reflexivity. }
    split; [done|]. split; [done|]. split; [done|]. exact Hcs2. }
  split; [done|]. split; [done|]. split; [done|].
  subst d2. by apply master_hash_of_digest.
Qed.

End Commit.

(** ** The index file, written and read back *)

(** C1 (amended).  For every sequence of entries sorted by path in which
    the ten 32-bit fields fit, the flags fit 16 bits, the digest has 20
    bytes and the path is not empty, has no NUL and encodes to fewer than
    4096 bytes of UTF-8, and which has fewer than 2^32 entries,
    [write_index] succeeds and [read_index] then returns the same entries
    in the same order. *)
Theorem index_round_trip (E : list IndexEntry.t) (s : repo) :
  sorted_by_path E ->
  Forall entry_ok E ->
  Forall (fun e => short_path (IndexEntry.path e)) E ->
  len E < 4294967296 ->
  exists s', write_index E s = (Ok tt, s') /\ read_index s' = (Ok E, s').
Proof.
  intros _ HE _ Hn.
  destruct (pack_index_ok E HE Hn) as [file Hfile].
  eexists. split; [by apply write_index_ok|].
  rewrite (read_index_of_file file) by reflexivity.
  by rewrite (parse_pack_index E file).
Qed.

Lemma sample_entry_ok name :
  no_nul (py name) ->
  (exists b, encode (py name) = Ok b) ->
  entry_ok (sample_entry 1 name).
Proof.
  intros Hnul Henc. unfold entry_ok, fields_fit, fits32; cbn.
  repeat split; try lia; try done. apply digest_length.
Qed.

Lemma index_round_trip_witness :
  sorted_by_path [sample_entry 1 "a"; sample_entry 1 "b"]
  /\ Forall entry_ok [sample_entry 1 "a"; sample_entry 1 "b"]
  /\ Forall (fun e => short_path (IndexEntry.path e))
            [sample_entry 1 "a"; sample_entry 1 "b"]
  /\ len [sample_entry 1 "a"; sample_entry 1 "b"] < 4294967296
  /\ exists s',
       write_index [sample_entry 1 "a"; sample_entry 1 "b"] fresh_repo
       = (Ok tt, s')
       /\ read_index s'
          = (Ok [sample_entry 1 "a"; sample_entry 1 "b"], s').
Proof.
  assert (H1 : sorted_by_path [sample_entry 1 "a"; sample_entry 1 "b"]).
  { repeat constructor. }
  assert (H2 : Forall entry_ok [sample_entry 1 "a"; sample_entry 1 "b"]).
  { apply Forall_cons_2; [|apply Forall_cons_2; [|apply Forall_nil_2]];
      apply sample_entry_ok; solve [by_decide | eexists; reflexivity]. }
  assert (H3 : Forall (fun e => short_path (IndexEntry.path e))
                      [sample_entry 1 "a"; sample_entry 1 "b"]).
  { apply Forall_cons_2; [|apply Forall_cons_2; [|apply Forall_nil_2]];
      (split; [discriminate|]); eexists; (split; [reflexivity|]);
      vm_compute; reflexivity. }
  assert (H4 : len [sample_entry 1 "a"; sample_entry 1 "b"] < 4294967296).
  { vm_compute. reflexivity. }
  repeat split; try assumption.
  exact (index_round_trip _ fresh_repo H1 H2 H3 H4).
Defined.

(** C1 as first stated leaves the 16-bit flags field free: an entry that
    meets every stated condition but carries flags of 65536 cannot be
    written at all, [struct.pack] raises, and nothing is there to read
    back. *)
Lemma index_round_trip_wide_flags :
  let e := sample_entry 65536 "a" in
  sorted_by_path [e]
  /\ fields_fit e
  /\ length (IndexEntry.sha1 e) = 20%nat
  /\ no_nul (IndexEntry.path e)
  /\ short_path (IndexEntry.path e)
  /\ write_index [e] fresh_repo = (Raise StructError, fresh_repo)
  /\ ~ exists s', write_index [e] fresh_repo = (Ok tt, s')
                  /\ read_index s' = (Ok [e], s').
Proof.
  cbv zeta. split; [repeat constructor|].
  split; [unfold fields_fit, fits32; cbn; lia|].
  split; [apply digest_length|].
  split; [by_decide|].
  split.
  { split; [discriminate|]. eexists. split; [reflexivity|].
    vm_compute. reflexivity. }
  assert (Hw : write_index [sample_entry 65536 "a"] fresh_repo
               = (Raise StructError, fresh_repo)).
  { apply write_index_raise. vm_compute. reflexivity. }
  split; [exact Hw|].
  intros (s' & H & _). rewrite Hw in H. discriminate.
Qed.


(** ** Trees, written and read back *)

Section TreeClaims.
Variable zlib_decompress : bytes -> result bytes.

Lemma read_tree_data payload s :
  read_tree zlib_decompress None (Some payload) s
  = (read_tree_loop 1000 payload, s).
Proof. reflexivity. Qed.

(** Where the round trip of a tree does hold: for every sequence of at
    most 1000 triples whose paths are flat, not empty, free of white
    space and of NUL and encodable as UTF-8, and whose digests have 20
    bytes, the payload [write_tree] builds from them decodes with
    [read_tree] to the same modes and paths in the same order, each
    digest given in hexadecimal. *)
Lemma tree_round_trip (T : list (Z * str * bytes)) (s : repo) :
  Forall flat T ->
  Forall triple_ok T ->
  (length T <= 1000)%nat ->
  exists payload,
    tree_payload T = Ok payload
    /\ read_tree zlib_decompress None (Some payload) s
       = (Ok (map listed T), s).
Proof.
  intros _ HT Hlen.
  destruct (read_tree_loop_payload T HT) as (payload & Hp & Hloop).
  exists payload. split; [exact Hp|].
  rewrite read_tree_data, Hloop, firstn_all2; [reflexivity|].
  by rewrite length_map.
Qed.

(** C4 (amended).  When a payload holds more than 1000 well-formed
    records, [read_tree] returns the first 1000 of them and raises
    nothing: the cap ends the loop and the rest is left unread. *)
Theorem read_tree_stops_at_cap (T : list (Z * str * bytes)) (s : repo) :
  Forall triple_ok T ->
  (1000 < length T)%nat ->
  exists payload,
    tree_payload T = Ok payload
    /\ read_tree zlib_decompress None (Some payload) s
       = (Ok (firstn 1000 (map listed T)), s)
    /\ length (firstn 1000 (map listed T)) = 1000%nat.
Proof.
  intros HT Hlen.
  destruct (read_tree_loop_payload T HT) as (payload & Hp & Hloop).
  exists payload. split; [exact Hp|]. split.
  - by rewrite read_tree_data, Hloop.
  - rewrite length_take, length_map. lia.
Qed.

End TreeClaims.

Lemma wide_tree_ok n : Forall triple_ok (wide_tree n).
Proof.
  apply Forall_forall. intros t Ht. apply list_elem_of_In, repeat_spec in Ht.
  subst t. split; [discriminate|]. split; [by_decide|]. split; [by_decide|].
  split; [eexists; reflexivity|]. apply digest_length.
Qed.

Lemma wide_tree_flat n : Forall flat (wide_tree n).
Proof.
  apply Forall_forall. intros t Ht. apply list_elem_of_In, repeat_spec in Ht.
  subst t. reflexivity.
Qed.

(** C3.  A file name with a space in it is flat, and [add] and
    [write_tree] take it: the tree is written with the header
    [100644 a b].  [read_tree] splits that header on white space into
    three words where it unpacks two, and raises [ValueError].  So the
    payload of the one triple [(100644, "a b", digest)] does not decode,
    and the tree that [add "a b"] followed by [write_tree] stores can be
    read back neither by [read_tree] nor by [cat_file] in mode
    [pretty]. *)
Theorem spaced_name_cannot_be_read :
  (Forall flat spaced_tree
   /\ Forall (fun t => length (snd t) = 20%nat) spaced_tree
   /\ exists payload,
        tree_payload spaced_tree = Ok payload
        /\ read_tree no_decompression None (Some payload) fresh_repo
           = (Raise (ValueError UnpackMismatch), fresh_repo))
  /\ add no_compression [py "a b"] spaced_repo = (Ok tt, spaced_added)
  /\ write_tree no_compression spaced_added
     = (Ok spaced_digest, spaced_written)
  /\ read_tree no_decompression (Some spaced_digest) None spaced_written
     = (Raise (ValueError UnpackMismatch), spaced_written)
  /\ cat_file no_decompression (py "pretty") spaced_digest spaced_written
     = (Raise (ValueError UnpackMismatch), spaced_written).
Proof.
  split.
  { split; [repeat constructor|].
    split; [repeat constructor; apply digest_length|].
    eexists. split; [vm_compute; reflexivity|]. vm_compute. reflexivity. }
  split; [vm_compute; reflexivity|].
  split; [vm_compute; reflexivity|].
  split; vm_compute; reflexivity.
Qed.

Lemma read_tree_stops_at_cap_witness :
  Forall triple_ok (wide_tree 1002)
  /\ (1000 < length (wide_tree 1002))%nat
  /\ exists payload,
       tree_payload (wide_tree 1002) = Ok payload
       /\ read_tree no_decompression None (Some payload) fresh_repo
          = (Ok (firstn 1000 (map listed (wide_tree 1002))), fresh_repo)
       /\ length (firstn 1000 (map listed (wide_tree 1002))) = 1000%nat.
Proof.
  assert (H2 : (1000 < length (wide_tree 1002))%nat).
  { unfold wide_tree. rewrite repeat_length. lia. }
  split; [apply wide_tree_ok|]. split; [exact H2|].
  exact (read_tree_stops_at_cap no_decompression (wide_tree 1002) fresh_repo
           (wide_tree_ok 1002) H2).
Defined.

(** C4 as first stated promises an error once the cap is used up.  A
    payload of 1001 records is read without any error: the result is a
    list, and it has 1000 entries. *)
Lemma read_tree_truncates_silently :
  exists payload entries,
    tree_payload (wide_tree 1001) = Ok payload
    /\ length (wide_tree 1001) = 1001%nat
    /\ read_tree no_decompression None (Some payload) fresh_repo
       = (Ok entries, fresh_repo)
    /\ length entries = 1000%nat.
Proof.
  destruct (read_tree_loop_payload (wide_tree 1001) (wide_tree_ok 1001))
    as (payload & Hp & Hloop).
  exists payload, (firstn 1000 (map listed (wide_tree 1001))).
  split; [exact Hp|]. split; [apply repeat_length|]. split.
  - by rewrite read_tree_data, Hloop.
  - rewrite length_take, length_map. unfold wide_tree.
    rewrite repeat_length. reflexivity.
Qed.


(** ** Looking up a prefix no shard holds *)

(** C5.  The claim, like the docstring of [find_object], promises the
    "not found" [ValueError] when no stored object begins with the
    prefix.  Here the store holds one blob, in shard [45]; no object
    begins with [ab12], and the lookup ends in [FileNotFoundError], raised
    by [os.listdir] on the missing shard directory. *)
Theorem read_object_unknown_shard (zlib_decompress : bytes -> result bytes) :
  map fst (map_to_list (objects one_blob_repo)) = [py "45"]
  /\ candidates one_blob_repo (py "ab12") = []
  /\ read_object zlib_decompress (py "ab12") one_blob_repo
     = (Raise FileNotFoundError, one_blob_repo).
Proof.
  split; [vm_compute; reflexivity|].
  apply read_object_no_directory; vm_compute; [discriminate|reflexivity].
Qed.

Example read_object_by_prefix :
  fst (read_object no_decompression (py "45") one_blob_repo)
  = Ok (py "blob", py "hi" ++ nl).
Proof. vm_compute. reflexivity. Qed.

Example read_object_one_character :
  fst (read_object no_decompression (py "4") one_blob_repo)
  = Raise (ValueError PrefixTooShort).
Proof. vm_compute. reflexivity. Qed.

Example read_object_other_name :
  fst (read_object no_decompression (py "4500") one_blob_repo)
  = Raise (ValueError ObjectNotFound).
Proof. vm_compute. reflexivity. Qed.

Example read_object_ambiguous :
  fst (read_object no_decompression (py "abc")
         {| objects := {[ py "ab" := list_to_map [(py "c1", []); (py "c2", [])] ]};
            index := None; master := None; worktree := ∅ |})
  = Raise (ValueError MultipleObjects).
Proof. vm_compute. reflexivity. Qed.

(** ** hash_object, twice *)

Lemma hash_object_idempotent_witness :
  encode (py "blob") = Ok (py "blob")
  /\ let d := hex (Sha1.digest
                     (py "blob" ++ py " " ++ format_int 10 (len (py "hi" ++ nl))
                      ++ [0] ++ py "hi" ++ nl)) in
     exists s1,
       hash_object no_compression (py "hi" ++ nl) (py "blob") true fresh_repo
       = (Ok d, s1)
       /\ hash_object no_compression (py "hi" ++ nl) (py "blob") true s1
          = (Ok d, s1)
       /\ files_named s1 d = 1%nat.
Proof.
  split; [reflexivity|].
  exact (hash_object_idempotent no_compression (py "hi" ++ nl) (py "blob")
           (py "blob") fresh_repo eq_refl).
Defined.

Example hash_object_git_digest :
  blob_digest (py "hi" ++ nl) = py "45b983be36b73c0788dc9cbcb76cbb80fc7bb057".
Proof. vm_compute. reflexivity. Qed.

(** ** Status of the example repository *)

Example get_status_example :
  fst (get_status no_compression example_repo) = Ok ([], [py "b"], [py "c"]).
Proof. vm_compute. reflexivity. Qed.

Example get_status_edited :
  fst (get_status no_compression edited_repo)
  = Ok ([py "a"], [py "b"], [py "c"]).
Proof. vm_compute. reflexivity. Qed.





(** ** add *)

(** C9.  [add] drops from the old index every entry whose path is
    among its arguments, so that a path is listed once; but it appends
    one entry for every argument without comparing the arguments with
    each other.  [add a a] in a repository with the one file [a] and no
    index returns, and the index it has written holds two entries for
    [a]: the paths are no longer unique, and [ls_files] prints [a]
    twice. *)
Theorem add_same_path_twice :
  read_index one_file_repo = (Ok [], one_file_repo)
  /\ is_Some (worktree one_file_repo !! py "a")
  /\ add no_compression [py "a"; py "a"] one_file_repo = (Ok tt, added_twice)
  /\ exists entries,
       read_index added_twice = (Ok entries, added_twice)
       /\ map IndexEntry.path entries = [py "a"; py "a"]
       /\ ~ NoDup (map IndexEntry.path entries)
       /\ ls_files false added_twice = (Ok [py "a"; py "a"], added_twice).
Proof.
  split; [vm_compute; reflexivity|].
  split; [vm_compute; eauto|].
  split; [vm_compute; reflexivity|].
  exists (match fst (read_index added_twice) with
          | Ok entries => entries
          | Raise _ => []
          end).
  split; [vm_compute; reflexivity|].
  split; [vm_compute; reflexivity|].
  split; [|vm_compute; reflexivity].
  intros Hnd.
  assert (E : map IndexEntry.path
                (match fst (read_index added_twice) with
                 | Ok entries => entries
                 | Raise _ => []
                 end) = [py "a"; py "a"]) by (vm_compute; reflexivity).
  rewrite E in Hnd. apply NoDup_cons in Hnd as [Hin _]. apply Hin.
  apply list_elem_of_here.
Qed.

(** ** Two commits *)

Lemma commit_chaining_witness :
  master tracked_repo = None
  /\ commit no_compression (py "first") None 1700000000 (-28800) tracked_repo
     = (Ok first_digest, snd first_commit)
  /\ master (snd first_commit) = master (snd first_commit)
  /\ commit no_compression (py "second")
            (Some (py "A U Thor <a@example.com>")) 1700000060 18000
            (snd first_commit)
     = (Ok second_digest, snd second_commit)
  /\ (exists tree1 s0 payload1,
        write_tree no_compression tracked_repo = (Ok tree1, s0)
        /\ commit_text [py "tree" ++ tree1;
                        author_line None 1700000000 (-28800);
                        committer_line None 1700000000 (-28800);
                        []; py "first"; []] = Ok payload1
        /\ first_digest = object_digest (py "commit") payload1
        /\ is_Some (stored (snd first_commit) tree1)
        /\ is_Some (stored (snd first_commit) first_digest)
        /\ (stored s0 first_digest = None ->
            stored (snd first_commit) first_digest
            = Some (no_compression (py "commit" ++ py " "
                                    ++ format_int 10 (len payload1)
                                    ++ [0] ++ payload1))))
  /\ (exists tree2 s0' payload2,
        write_tree no_compression (snd first_commit) = (Ok tree2, s0')
        /\ commit_text [py "tree" ++ tree2; py "parent " ++ first_digest;
                        author_line (Some (py "A U Thor <a@example.com>"))
                                    1700000060 18000;
                        committer_line (Some (py "A U Thor <a@example.com>"))
                                       1700000060 18000;
                        []; py "second"; []] = Ok payload2
        /\ second_digest = object_digest (py "commit") payload2
        /\ is_Some (stored (snd second_commit) tree2)
        /\ is_Some (stored (snd second_commit) second_digest)
        /\ (stored s0' second_digest = None ->
            stored (snd second_commit) second_digest
            = Some (no_compression (py "commit" ++ py " "
                                    ++ format_int 10 (len payload2)
                                    ++ [0] ++ payload2))))
  /\ master (snd first_commit) = Some (first_digest ++ nl)
  /\ get_local_master_hash (snd first_commit)
     = (Ok (Some first_digest), snd first_commit)
  /\ master (snd second_commit) = Some (second_digest ++ nl)
  /\ get_local_master_hash (snd second_commit)
     = (Ok (Some second_digest), snd second_commit).
Proof.
  assert (H1 : master tracked_repo = None) by (vm_compute; reflexivity).
  assert (H2 : commit no_compression (py "first") None 1700000000 (-28800)
                 tracked_repo = (Ok first_digest, snd first_commit))
    by (vm_compute; reflexivity).
  assert (H3 : master (snd first_commit) = master (snd first_commit))
    by reflexivity.
  assert (H4 : commit no_compression (py "second")
                 (Some (py "A U Thor <a@example.com>")) 1700000060 18000
                 (snd first_commit)
               = (Ok second_digest, snd second_commit))
    by (vm_compute; reflexivity).
  repeat (split; [assumption|]).
  exact (commit_chaining no_compression tracked_repo (snd first_commit)
           (snd first_commit) (snd second_commit) first_digest second_digest
           (py "first") (py "second") None
           (Some (py "A U Thor <a@example.com>"))
           1700000000 (-28800) 1700000060 18000 H1 H2 H3 H4).
Defined.

Example first_commit_text :
  fst (write_tree no_compression tracked_repo) = Ok first_tree
  /\ commit_text [py "tree" ++ first_tree;
                  author_line None 1700000000 (-28800);
                  committer_line None 1700000000 (-28800);
                  []; py "first"; []]
     = encode (py "tree" ++ first_tree ++ nl
               ++ py "author MorbidArk <1482506841@qq.com> 1700000000 +0800"
               ++ nl
               ++ py "committer MorbidArk <1482506841@qq.com> 1700000000 +0800"
               ++ nl ++ nl ++ py "first" ++ nl).
Proof. split; vm_compute; reflexivity. Qed.

(** ** Further properties of the object store *)

Lemma startswith_same_length x n :
  startswith x n = true -> length x = length n -> x = n.
Proof.
  revert n. induction x as [|c x IH]; intros [|p n] H Hl; simpl in *;
    try done.
  bool_hyps. subst. f_equal. apply IH; [done|lia].
Qed.

Lemma startswith_refl n : startswith n n = true.
Proof.
  induction n as [|c n IH]; [reflexivity|]. simpl.
  by rewrite Z.eqb_refl, IH.
Qed.

Lemma singleton_list (n : list Z) (l : list (list Z)) :
  NoDup l -> n ∈ l -> (forall x, x ∈ l -> x = n) -> l = [n].
Proof.
  intros Hnd Hin Hall. destruct l as [|a l]; [by apply elem_of_nil in Hin|].
  assert (a = n) by (apply Hall; left). subst a. f_equal.
  destruct l as [|b l]; [done|]. exfalso.
  apply NoDup_cons in Hnd as [Hn _]. apply Hn.
  assert (b = n) by (apply Hall; right; left). subst b. left.
Qed.

Section StoreExtras.
Variable zlib_compress : bytes -> bytes.
Variable zlib_decompress : bytes -> result bytes.

Lemma hash_object_dry data kind s :
  ascii kind ->
  hash_object zlib_compress data kind false s
  = (Ok (object_digest kind data), s).
Proof.
  intros Hk. unfold hash_object. rewrite bind_run, lift_run.
  rewrite encode_header with (kb := kind) by (by apply encode_ascii).
  cbv zeta. rewrite bind_run. unfold pass. cbn [mret M_ret].
  unfold object_digest. rewrite <- !app_assoc. reflexivity.
Qed.

(** X1.  The digest [hash_object] returns depends on the kind and the
    payload only: for an ASCII kind it is the SHA-1 of
    ["<kind> <len>\0<payload>"] in hexadecimal, whatever the [write] flag
    and whatever is on disk. *)
Theorem hash_object_digest (data : bytes) (kind : str) (write : bool)
    (s : repo) :
  ascii kind ->
  fst (hash_object zlib_compress data kind write s)
  = Ok (object_digest kind data).
Proof.
  intros Hk. destruct write.
  - destruct (hash_object_store zlib_compress data kind s Hk) as (s1 & H & _).
    by rewrite H.
  - by rewrite hash_object_dry.
Qed.

Lemma hash_object_frame data kind write s r s1 :
  hash_object zlib_compress data kind write s = (r, s1) ->
  index s1 = index s /\ master s1 = master s /\ worktree s1 = worktree s
  /\ forall d c, stored s d = Some c -> stored s1 d = Some c.
Proof.
  intros H.
  destruct (encode (kind ++ py " " ++ format_int 10 (len data)))
    as [header|e] eqn:He.
  2:{ unfold hash_object in H. rewrite bind_run, lift_run, He in H.
      injection H as <- <-. by repeat split. }
  destruct write.
  - destruct (hash_object_write zlib_compress data kind header s He)
      as (s' & H' & _ & Hsame & Hother & Hi & Hm & Hw).
    rewrite H' in H. injection H as <- <-. repeat split; try done.
    intros d c Hd.
    destruct (decide (d = hex (Sha1.digest (header ++ [0] ++ data))))
      as [->|Hne].
    + rewrite Hsame; [done|]. rewrite Hd. eauto.
    + by rewrite Hother.
  - pose proof (read_only_hash_object zlib_compress data kind s) as Hro.
    rewrite H in Hro. cbn [snd] in Hro. subst s1. by repeat split.
Qed.

(** X2.  [hash_object] only ever adds: whatever it returns, the index,
    the branch file and the working directory are as before, and every
    object file that existed still exists with the content it had, also
    the file of the very digest being stored. *)
Theorem hash_object_keeps_what_is_stored (data : bytes) (kind : str)
    (write : bool) (s : repo) :
  let s1 := snd (hash_object zlib_compress data kind write s) in
  index s1 = index s /\ master s1 = master s /\ worktree s1 = worktree s
  /\ forall d c, stored s d = Some c -> stored s1 d = Some c.
Proof.
  cbv zeta.
  destruct (hash_object zlib_compress data kind write s) as [r s1] eqn:H.
  cbn [snd]. exact (hash_object_frame _ _ _ _ _ _ H).
Qed.

Lemma candidates_after_store data kind s :
  ascii kind ->
  let d := object_digest kind data in
  shard_names_full s d ->
  candidates (snd (hash_object zlib_compress data kind true s)) d
  = [skipn 2 d].
Proof.
  intros Hk d Hfull.
  destruct (hash_object_store zlib_compress data kind s Hk)
    as (s1 & H & Hst & Hother & _).
  fold d in H, Hst, Hother. rewrite H. cbn [snd].
  assert (Hlen : length (skipn 2 d) = 38%nat).
  { rewrite length_drop. unfold d. rewrite object_digest_length. lia. }
  unfold candidates, stored in *.
  destruct (objects s1 !! firstn 2 d) as [m1|] eqn:Hm1;
    [|by destruct Hst]. simpl in Hst.
  apply singleton_list.
  - apply NoDup_filter, names_NoDup.
  - apply list_elem_of_filter. split; [apply startswith_refl|].
    by apply elem_of_names.
  - intros x Hx. apply list_elem_of_filter in Hx as [Hsw Hx].
    apply elem_of_names in Hx.
    destruct (decide (x = skipn 2 d)) as [|Hne]; [done|].
    apply startswith_same_length; [done|]. rewrite Hlen.
    assert (Hd' : firstn 2 d ++ x <> d).
    { intros E. apply Hne. rewrite <- E.
      rewrite drop_app_length'; [done|].
      rewrite length_take. unfold d. rewrite object_digest_length. lia. }
    specialize (Hother _ Hd').
    assert (H2 : length (firstn 2 d) = 2%nat).
    { rewrite length_take. unfold d. rewrite object_digest_length. lia. }
    rewrite take_app_length', drop_app_length' in Hother by done.
    rewrite Hm1 in Hother. simpl in Hother.
    destruct (objects s !! firstn 2 d) as [m|] eqn:Hm.
    + simpl in Hother. apply (Hfull m x); [done|]. by rewrite <- Hother.
    + simpl in Hother. rewrite Hother in Hx. by destruct Hx.
Qed.

Lemma read_back data kind s :
  (forall b, zlib_decompress (zlib_compress b) = Ok b) ->
  kind_word kind ->
  stored s (object_digest kind data) = None ->
  shard_names_full s (object_digest kind data) ->
  exists s1,
    hash_object zlib_compress data kind true s
    = (Ok (object_digest kind data), s1)
    /\ read_object zlib_decompress (object_digest kind data) s1
       = (Ok (kind, data), s1).
Proof.
  intros Hz (Hne & Ha & Hsp & Hnul) Hnone Hfull.
  pose proof (candidates_after_store data kind s Ha Hfull) as Hc.
  cbv zeta in Hc.
  destruct (hash_object_store zlib_compress data kind s Ha) as (s1 & H & _).
  exists s1. split; [exact H|].
  assert (Es : s1 = snd (hash_object zlib_compress data kind true s))
    by (by rewrite H).
  rewrite Es.
  apply (read_object_unique zlib_compress zlib_decompress _ _
           (skipn 2 (object_digest kind data)) kind data); try done.
  - unfold len. rewrite object_digest_length. lia.
  - rewrite firstn_skipn.
    assert (He : encode (kind ++ py " " ++ format_int 10 (len data))
                 = Ok (kind ++ py " " ++ format_int 10 (len data))).
    { apply encode_header. by apply encode_ascii. }
    pose proof (hash_object_absent zlib_compress data kind _ s He) as Habs.
    assert (Ed : hex (Sha1.digest
                   ((kind ++ py " " ++ format_int 10 (len data)) ++ [0] ++ data))
                 = object_digest kind data).
    { unfold object_digest. by rewrite <- !app_assoc. }
    rewrite Ed in Habs. cbv zeta in Habs. rewrite (Habs Hnone). cbn [snd].
    unfold stored. cbn [objects]. rewrite lookup_insert_eq. simpl.
    rewrite lookup_insert_eq. by rewrite <- !app_assoc.
Qed.

(** X3.  What [hash_object] stores, [read_object] gives back: when the
    codec is lossless, the kind is one ASCII word, no file was there for
    the digest and the shard holds 38-character names only, reading the
    returned digest yields the kind and the payload that were hashed. *)
Theorem hash_then_read_object (data : bytes) (kind : str) (s : repo) :
  (forall b, zlib_decompress (zlib_compress b) = Ok b) ->
  kind_word kind ->
  stored s (object_digest kind data) = None ->
  shard_names_full s (object_digest kind data) ->
  let s1 := snd (hash_object zlib_compress data kind true s) in
  read_object zlib_decompress (object_digest kind data) s1
  = (Ok (kind, data), s1).
Proof.
  intros Hz Hk Hnone Hfull. cbv zeta.
  destruct (read_back data kind s Hz Hk Hnone Hfull) as (s1 & H & Hr).
  by rewrite H.
Qed.

End StoreExtras.

Lemma hash_object_digest_witness :
  ascii (py "tree")
  /\ fst (hash_object no_compression [] (py "tree") false one_blob_repo)
     = Ok (object_digest (py "tree") []).
Proof.
  assert (H : ascii (py "tree")) by by_decide.
  split; [exact H|].
  exact (hash_object_digest no_compression [] (py "tree") false
           one_blob_repo H).
Defined.

Lemma fresh_names_full d : shard_names_full fresh_repo d.
Proof.
  intros m name Hm. cbn in Hm. by rewrite lookup_empty in Hm.
Qed.

Lemma hash_then_read_object_witness :
  (forall b, no_decompression (no_compression b) = Ok b)
  /\ kind_word (py "blob")
  /\ stored fresh_repo (object_digest (py "blob") (py "hi")) = None
  /\ shard_names_full fresh_repo (object_digest (py "blob") (py "hi"))
  /\ let s1 := snd (hash_object no_compression (py "hi") (py "blob") true
                      fresh_repo) in
     read_object no_decompression (object_digest (py "blob") (py "hi")) s1
     = (Ok (py "blob", py "hi"), s1).
Proof.
  assert (H1 : forall b, no_decompression (no_compression b) = Ok b)
    by reflexivity.
  assert (H2 : kind_word (py "blob")).
  { split; [discriminate|]. split; [by_decide|]. split; by_decide. }
  assert (H3 : stored fresh_repo (object_digest (py "blob") (py "hi")) = None)
    by reflexivity.
  pose proof (fresh_names_full (object_digest (py "blob") (py "hi"))) as H4.
  repeat (split; [assumption|]).
  exact (hash_then_read_object no_compression no_decompression (py "hi")
           (py "blob") fresh_repo H1 H2 H3 H4).
Defined.

(** ** Further properties of the index file *)

Lemma pack_L_length x f : pack_L x = Ok f -> length f = 4%nat.
Proof.
  unfold pack_L. destruct (_ && _); [|discriminate].
  intros H. apply Ok_inj in H. by subst f.
Qed.

Lemma pack_H_length x f : pack_H x = Ok f -> length f = 2%nat.
Proof.
  unfold pack_H. destruct (_ && _); [|discriminate].
  intros H. apply Ok_inj in H. by subst f.
Qed.

Lemma pack_20s_length b : length (pack_20s b) = 20%nat.
Proof.
  unfold pack_20s. rewrite length_app, length_take, repeat_length. lia.
Qed.

(** X4.  Every entry [write_index] packs is 62 bytes of fields, the
    path, and between one and eight NUL bytes, which bring its length to a
    multiple of 8. *)
Theorem packed_entry_is_aligned (e : IndexEntry.t) (b : bytes) :
  pack_entry e = Ok b ->
  exists head pathb k,
    b = head ++ pathb ++ repeat 0 k
    /\ length head = 62%nat
    /\ encode (IndexEntry.path e) = Ok pathb
    /\ (1 <= k <= 8)%nat
    /\ (length b mod 8 = 0)%nat.
Proof.
  unfold pack_entry. intros H.
  apply rbind_inv in H as (f0 & H0 & H). apply rbind_inv in H as (f1 & H1 & H).
  apply rbind_inv in H as (f2 & H2 & H). apply rbind_inv in H as (f3 & H3 & H).
  apply rbind_inv in H as (f4 & H4 & H). apply rbind_inv in H as (f5 & H5 & H).
  apply rbind_inv in H as (f6 & H6 & H). apply rbind_inv in H as (f7 & H7 & H).
  apply rbind_inv in H as (f8 & H8 & H). apply rbind_inv in H as (f9 & H9 & H).
  apply rbind_inv in H as (fl & Hfl & H). cbv zeta in H.
  apply rbind_inv in H as (pathb & Hp & H). apply Ok_inj in H. subst b.
  apply pack_L_length in H0, H1, H2, H3, H4, H5, H6, H7, H8, H9.
  apply pack_H_length in Hfl.
  pose proof (pack_20s_length (IndexEntry.sha1 e)) as Hs.
  pose proof (entry_len_pad (length pathb)) as [Hlo Hhi].
  assert (Hmod : (entry_len (length pathb) mod 8 = 0)%nat).
  { unfold entry_len. apply Nat.Div0.mod_mul. }
  eexists _, pathb, _. split; [reflexivity|].
  assert (Hh : length (f0 ++ f1 ++ f2 ++ f3 ++ f4 ++ f5 ++ f6 ++ f7 ++ f8
                       ++ f9 ++ pack_20s (IndexEntry.sha1 e) ++ fl) = 62%nat).
  { rewrite !length_app. lia. }
  split; [exact Hh|]. split; [exact Hp|]. split; [lia|].
  rewrite length_app, Hh, length_app, repeat_length.
  replace (62 + (length pathb + (entry_len (length pathb) - 62 - length pathb)))%nat
    with (entry_len (length pathb)) by lia.
  exact Hmod.
Qed.

Lemma packed_entry_is_aligned_witness :
  pack_entry (sample_entry 1 "a")
  = Ok (entry_head (sample_entry 1 "a") ++ py "a" ++ repeat 0%Z 1)
  /\ exists head pathb k,
       entry_head (sample_entry 1 "a") ++ py "a" ++ repeat 0%Z 1
       = head ++ pathb ++ repeat 0 k
       /\ length head = 62%nat
       /\ encode (IndexEntry.path (sample_entry 1 "a")) = Ok pathb
       /\ (1 <= k <= 8)%nat
       /\ (length (entry_head (sample_entry 1 "a") ++ py "a" ++ repeat 0%Z 1)
           mod 8 = 0)%nat.
Proof.
  assert (H : pack_entry (sample_entry 1 "a")
              = Ok (entry_head (sample_entry 1 "a") ++ py "a" ++ repeat 0%Z 1))
    by (vm_compute; reflexivity).
  split; [exact H|].
  exact (packed_entry_is_aligned _ _ H).
Defined.

(** X5.  A written index file with one byte of its trailing digest
    changed is refused: [read_index] raises the checksum assertion and
    returns no entry. *)
Theorem changed_digest_byte_is_refused (E : list IndexEntry.t) (file : bytes)
    (i : nat) (b : Z) (s : repo) :
  pack_index E = Ok file ->
  (length file - 20 <= i < length file)%nat ->
  file !! i <> Some b ->
  index s = Some (<[i := b]> file) ->
  read_index s = (Raise (AssertionError InvalidIndexChecksum), s).
Proof.
  intros Hpack Hi Hb Hs. apply (damaged_index E file i b); try done; lia.
Qed.

Lemma changed_digest_byte_is_refused_witness :
  pack_index [] = Ok empty_index_file
  /\ (length empty_index_file - 20 <= 31 < length empty_index_file)%nat
  /\ empty_index_file !! 31%nat <> Some 0
  /\ index damaged_repo = Some (<[31%nat := 0]> empty_index_file)
  /\ read_index damaged_repo
     = (Raise (AssertionError InvalidIndexChecksum), damaged_repo).
Proof.
  assert (H1 : pack_index [] = Ok empty_index_file) by (vm_compute; reflexivity).
  assert (H2 : (length empty_index_file - 20 <= 31
                < length empty_index_file)%nat) by (vm_compute; lia).
  assert (H3 : empty_index_file !! 31%nat <> Some 0)
    by (vm_compute; discriminate).
  assert (H4 : index damaged_repo = Some (<[31%nat := 0]> empty_index_file))
    by reflexivity.
  repeat (split; [assumption|]).
  exact (changed_digest_byte_is_refused [] empty_index_file 31 0 damaged_repo
           H1 H2 H3 H4).
Defined.

(** X6.  After the checksum, [read_index] checks the header: a file
    whose checksum is right is refused with the signature assertion when
    its first four bytes are not [DIRC], and with the version assertion
    when they are and the next four do not spell 2. *)
Theorem index_header_is_checked (body : bytes) (s : repo) :
  index s = Some (body ++ Sha1.digest body) ->
  let file := body ++ Sha1.digest body in
  (firstn 4 file <> signature ->
   read_index s = (Raise (AssertionError InvalidIndexSignature), s))
  /\ (firstn 4 file = signature ->
      be_value (slice file 4 8) 0 <> 2 ->
      read_index s = (Raise (AssertionError UnknownIndexVersion), s)).
Proof.
  intros Hs file. rewrite (read_index_of_file _ _ Hs). fold file.
  assert (H12 : length (firstn 12 file) = 12%nat).
  { unfold file. rewrite length_take, length_app, digest_length. lia. }
  assert (Hsig : slice (firstn 12 file) 0 4 = firstn 4 file).
  { unfold slice. rewrite drop_0, take_take. reflexivity. }
  assert (Hver : slice (firstn 12 file) 4 8 = slice file 4 8).
  { unfold slice. rewrite skipn_firstn_comm, take_take. reflexivity. }
  assert (Hp : parse_index file
               = if negb (bool_decide (firstn 4 file = signature))
                 then Raise (AssertionError InvalidIndexSignature)
                 else if negb (be_value (slice file 4 8) 0 =? 2)
                 then Raise (AssertionError UnknownIndexVersion)
                 else
                   entries ← read_entries (length (skipn 12 body))
                                          (skipn 12 body);
                   if negb (len entries
                            =? be_value (slice (firstn 12 file) 8 12) 0)
                   then Raise (AssertionError EntryCountMismatch)
                   else Ok entries).
  { unfold parse_index. cbv zeta. rewrite H12, Hsig, Hver. unfold file.
    rewrite length_app, digest_length, Nat.add_sub.
    rewrite take_app_length, drop_app_length.
    rewrite bool_decide_eq_true_2 by done. reflexivity. }
  rewrite Hp. split.
  - intros Hne. by rewrite bool_decide_eq_false_2.
  - intros He Hv. rewrite bool_decide_eq_true_2 by done. cbn [negb].
    replace (be_value (slice file 4 8) 0 =? 2) with false
      by (symmetry; by apply Z.eqb_neq).
    reflexivity.
Qed.

Lemma index_header_is_checked_witness :
  index digest_only_repo = Some ([] ++ Sha1.digest [])
  /\ firstn 4 ([] ++ Sha1.digest []) <> signature
  /\ read_index digest_only_repo
     = (Raise (AssertionError InvalidIndexSignature), digest_only_repo).
Proof.
  assert (H0 : index digest_only_repo = Some ([] ++ Sha1.digest []))
    by reflexivity.
  assert (H : firstn 4 ([] ++ Sha1.digest []) <> signature)
    by (vm_compute; discriminate).
  split; [exact H0|]. split; [exact H|].
  exact (proj1 (index_header_is_checked [] digest_only_repo H0) H).
Defined.

Lemma read_entries_raises fuel : forall rest e,
  read_entries fuel rest = Raise e ->
  e = ValueError SubsectionNotFound \/ e = UnicodeDecodeError.
Proof.
  induction fuel as [|fuel IH]; intros rest e; [discriminate|].
  cbn [read_entries]. destruct (62 <? length rest)%nat; [|discriminate].
  destruct (find_nul _) as [n|]; [|intros [= <-]; by left].
  destruct (decode _) as [path|e'] eqn:Hd.
  - cbn [mbind result_bind].
    destruct (read_entries fuel _) as [es|e'] eqn:Hr; [discriminate|].
    cbn. intros [= <-]. by apply (IH _ _ Hr).
  - apply decode_raises in Hd. subst e'. cbn. intros [= <-]. by right.
Qed.

Lemma read_index_raises s e :
  fst (read_index s) = Raise e -> index_error e.
Proof.
  unfold index_error.
  destruct (index s) as [data|] eqn:Hs.
  2:{ by rewrite (read_index_no_file _ Hs). }
  rewrite (read_index_of_file _ _ Hs). cbn [fst].
  unfold parse_index. cbv zeta.
  destruct (bool_decide _) eqn:Hsum; cbn [negb]; [|intros [= <-]; tauto].
  apply bool_decide_eq_true_1 in Hsum.
  assert (Hlen : (20 <= length data)%nat).
  { apply (f_equal length) in Hsum.
    rewrite digest_length, length_drop in Hsum. lia. }
  replace (length (firstn 12 data) =? 12)%nat with true
    by (symmetry; apply Nat.eqb_eq; rewrite length_take; lia).
  cbn [negb].
  destruct (negb (bool_decide _)); [intros [= <-]; tauto|].
  destruct (negb (_ =? 2)); [intros [= <-]; tauto|].
  destruct (read_entries _ _) as [es|e'] eqn:Hr; cbn.
  - destruct (negb _); [intros [= <-]; tauto|discriminate].
  - intros [= <-]. apply read_entries_raises in Hr. tauto.
Qed.

(** X7.  The exceptions of [read_index] are its four assertions, the
    [ValueError] of a path without a closing NUL and the error of
    decoding a path.  It never fails inside [struct.unpack]: a file too
    short for a header is already refused by the checksum test, which
    needs a 20-byte digest at the end; and a missing file is no error. *)
Theorem read_index_errors (s : repo) (e : exn) :
  fst (read_index s) = Raise e ->
  index_error e /\ e <> StructError /\ e <> FileNotFoundError.
Proof.
  intros H. apply read_index_raises in H. split; [exact H|].
  unfold index_error in H. split; intros ->; intuition discriminate.
Qed.

Lemma read_index_errors_witness :
  fst (read_index damaged_repo) = Raise (AssertionError InvalidIndexChecksum)
  /\ index_error (AssertionError InvalidIndexChecksum)
  /\ AssertionError InvalidIndexChecksum <> StructError
  /\ AssertionError InvalidIndexChecksum <> FileNotFoundError.
Proof.
  assert (H : fst (read_index damaged_repo)
              = Raise (AssertionError InvalidIndexChecksum))
    by (vm_compute; reflexivity).
  split; [exact H|].
  exact (read_index_errors damaged_repo _ H).
Defined.

(** ** What a failing command leaves behind *)

Section Frames.
Variable zlib_compress : bytes -> bytes.

Lemma write_tree_keeps s r s0 :
  write_tree zlib_compress s = (r, s0) ->
  forall d c, stored s d = Some c -> stored s0 d = Some c.
Proof.
  unfold write_tree. rewrite bind_run.
  pose proof (read_only_read_index s) as Hro.
  destruct (read_index s) as [[entries|e] s'] eqn:Hidx; simpl in Hro; subst s'.
  2:{ by intros [= <- <-]. }
  rewrite bind_run, lift_run.
  destruct (rmap _ entries) as [tree_entries|e]; [|by intros [= <- <-]].
  intros H. by apply hash_object_frame in H as (_ & _ & _ & H).
Qed.

Lemma add_loop_frame paths : forall acc s r s1,
  add_loop zlib_compress paths acc s = (r, s1) ->
  index s1 = index s /\ master s1 = master s /\ worktree s1 = worktree s
  /\ forall d c, stored s d = Some c -> stored s1 d = Some c.
Proof.
  induction paths as [|path paths IH]; intros acc s r s1; cbn [add_loop].
  { intros [= <- <-]. by repeat split. }
  rewrite bind_run.
  destruct (worktree s !! path) as [f|] eqn:Hf.
  2:{ rewrite (read_work_file_missing _ _ Hf). intros [= <- <-].
      by repeat split. }
  rewrite (read_work_file _ _ _ Hf), bind_run.
  destruct (hash_object zlib_compress (f_data f) (py "blob") true s)
    as [[sha1|e] s0] eqn:Hh;
    pose proof (hash_object_frame _ _ _ _ _ _ _ Hh) as (Hi & Hm & Hw & Hst).
  2:{ by intros [= <- <-]. }
  rewrite bind_run. unfold os_stat at 1.
  destruct (worktree s0 !! path) as [f0|]; [|by intros [= <- <-]].
  rewrite bind_run, lift_run.
  destruct (encode path) as [encoded|e]; [|by intros [= <- <-]].
  cbv zeta. rewrite bind_run. unfold assert at 1.
  destruct (len encoded <? 4096); [|by intros [= <- <-]].
  rewrite bind_run, lift_run.
  destruct (fromhex sha1) as [digest|e]; [|by intros [= <- <-]].
  intros H. apply IH in H as (Hi' & Hm' & Hw' & Hst').
  repeat split; try congruence. intros d c Hd. by apply Hst', Hst.
Qed.

Lemma commit_frame message author timestamp timezone s :
  let out := commit zlib_compress message author timestamp timezone s in
  index (snd out) = index s /\ worktree (snd out) = worktree s
  /\ (forall d c, stored s d = Some c -> stored (snd out) d = Some c)
  /\ (forall e, fst out = Raise e -> master (snd out) = master s).
Proof.
  cbv zeta. unfold commit. rewrite bind_run.
  destruct (write_tree zlib_compress s) as [[tree|e] s0] eqn:Hwt;
    pose proof (write_tree_frame _ _ _ _ Hwt) as (Hi & Hm & Hw);
    pose proof (write_tree_keeps _ _ _ Hwt) as Hst.
  2:{ cbn [fst snd]. by repeat split. }
  rewrite bind_run, get_local_master_hash_spec.
  destruct (match master s0 with None => _ | Some _ => _ end) as [parent|e].
  2:{ cbn [fst snd]. by repeat split. }
  cbv zeta. rewrite bind_run, lift_run.
  destruct (encode _) as [data|e].
  2:{ cbn [fst snd]. by repeat split. }
  rewrite bind_run.
  destruct (hash_object zlib_compress data (py "commit") true s0)
    as [[sha1|e] s1] eqn:Hh;
    pose proof (hash_object_frame _ _ _ _ _ _ _ Hh) as (Hi1 & Hm1 & Hw1 & Hst1).
  2:{ cbn [fst snd]. repeat split; try congruence.
      intros d c Hd. by apply Hst1, Hst. }
  rewrite bind_run, lift_run.
  destruct (encode (sha1 ++ _)) as [ref|e].
  2:{ cbn [fst snd]. repeat split; try congruence.
      intros d c Hd. by apply Hst1, Hst. }
  rewrite bind_run. cbn [write_file mret M_ret fst snd index worktree].
  repeat split; try congruence.
  intros d c Hd. unfold stored. cbn [objects]. by apply Hst1, Hst.
Qed.

(** X8.  [commit] writes the branch file last: whatever it returns, the
    index and the working directory are as before and no stored object is
    lost or changed; when it raises, the branch file is as before too. *)
Theorem commit_writes_branch_last (message : str) (author : option str)
    (timestamp timezone : Z) (s : repo) :
  let out := commit zlib_compress message author timestamp timezone s in
  index (snd out) = index s /\ worktree (snd out) = worktree s
  /\ (forall d c, stored s d = Some c -> stored (snd out) d = Some c)
  /\ (forall e, fst out = Raise e -> master (snd out) = master s).
Proof. exact (commit_frame message author timestamp timezone s). Qed.

Lemma add_frame paths s :
  let out := add zlib_compress paths s in
  master (snd out) = master s /\ worktree (snd out) = worktree s
  /\ (forall d c, stored s d = Some c -> stored (snd out) d = Some c)
  /\ (forall e, fst out = Raise e -> index (snd out) = index s).
Proof.
  cbv zeta. unfold add. cbv zeta. rewrite bind_run.
  pose proof (read_only_read_index s) as Hro.
  destruct (read_index s) as [[old|e] s'] eqn:Hidx; simpl in Hro; subst s'.
  2:{ cbn [fst snd]. by repeat split. }
  rewrite bind_run.
  destruct (add_loop _ _ _ s) as [[entries|e] s1] eqn:Hl;
    pose proof (add_loop_frame _ _ _ _ _ Hl) as (Hi & Hm & Hw & Hst).
  2:{ cbn [fst snd]. by repeat split. }
  destruct (pack_index (sorted IndexEntry.path entries)) as [file|e] eqn:Hp.
  - rewrite (write_index_ok _ _ _ Hp). cbn [fst snd master worktree].
    by repeat split.
  - rewrite (write_index_raise _ _ _ Hp). cbn [fst snd]. by repeat split.
Qed.

(** X9.  [add] writes the index file last: whatever it returns, the
    branch file and the working directory are as before and no stored
    object is lost or changed; when it raises, the index file is as
    before too, although blobs may have been stored already. *)
Theorem add_writes_index_last (paths : list str) (s : repo) :
  let out := add zlib_compress paths s in
  master (snd out) = master s /\ worktree (snd out) = worktree s
  /\ (forall d c, stored s d = Some c -> stored (snd out) d = Some c)
  /\ (forall e, fst out = Raise e -> index (snd out) = index s).
Proof. exact (add_frame paths s). Qed.

(** X10.  [add] needs every file it is given: when one of the paths
    names no file of the working directory, [add] raises and the index
    file stays as it was, whatever the other paths are. *)
Theorem add_needs_every_file (paths : list str) (p : str) (s : repo) :
  p ∈ paths ->
  worktree s !! replace_backslash p = None ->
  (exists e, fst (add zlib_compress paths s) = Raise e)
  /\ index (snd (add zlib_compress paths s)) = index s.
Proof.
  intros Hp Hnone.
  assert (Hr : exists e, fst (add zlib_compress paths s) = Raise e).
  { destruct (add zlib_compress paths s) as [[[]|e] s'] eqn:Ha; [|eauto].
    exfalso. revert Ha. unfold add. cbv zeta. rewrite bind_run.
    pose proof (read_only_read_index s) as Hro.
    destruct (read_index s) as [[old|e] s0] eqn:Hidx; simpl in Hro; subst s0;
      [|discriminate].
    rewrite bind_run.
    destruct (add_loop _ _ _ s) as [[entries|e] s1] eqn:Hl; [|discriminate].
    intros _.
    apply add_loop_spec in Hl as (_ & _ & _ & news & _ & Hpaths & Hall).
    assert (Hin : replace_backslash p ∈ map IndexEntry.path news).
    { rewrite Hpaths. apply list_elem_of_fmap. eauto. }
    apply list_elem_of_fmap in Hin as (e & He & Hin).
    rewrite Forall_forall in Hall.
    destruct (Hall e Hin) as (_ & f & Hf & _). congruence. }
  split; [exact Hr|]. destruct Hr as (e & He).
  pose proof (add_frame paths s) as H. cbv zeta in H.
  destruct H as (_ & _ & _ & H). by apply (H e).
Qed.

End Frames.

Lemma add_needs_every_file_witness :
  py "b" ∈ [py "a"; py "b"]
  /\ worktree one_file_repo !! replace_backslash (py "b") = None
  /\ (exists e, fst (add no_compression [py "a"; py "b"] one_file_repo)
                = Raise e)
  /\ index (snd (add no_compression [py "a"; py "b"] one_file_repo))
     = index one_file_repo.
Proof.
  assert (H1 : py "b" ∈ [py "a"; py "b"]) by (right; left).
  assert (H2 : worktree one_file_repo !! replace_backslash (py "b") = None)
    by (vm_compute; reflexivity).
  split; [exact H1|]. split; [exact H2|].
  exact (add_needs_every_file no_compression [py "a"; py "b"] (py "b")
           one_file_repo H1 H2).
Defined.

(** ** Trees and nested paths *)

Lemma rmap_raises {A B} (f : A -> result B) (l : list A) (x : A) (e : exn) :
  x ∈ l -> f x = Raise e ->
  Forall (fun y => f y = Raise e \/ exists b, f y = Ok b) l ->
  rmap f l = Raise e.
Proof.
  intros Hin Hx Hall. induction Hall as [|y l Hy Hall IH].
  { by apply elem_of_nil in Hin. }
  cbn [rmap]. destruct Hy as [Hy|[b Hy]]; rewrite Hy; [done|].
  cbn [mbind result_bind].
  apply elem_of_cons in Hin as [->|Hin]; [congruence|].
  by rewrite (IH Hin).
Qed.

Section Nested.
Variable zlib_compress : bytes -> bytes.

Lemma write_tree_nested s entries e :
  read_index s = (Ok entries, s) ->
  Forall (fun x => exists b, encode (IndexEntry.path x) = Ok b) entries ->
  e ∈ entries ->
  contains 47 (IndexEntry.path e) = true ->
  write_tree zlib_compress s = (Raise (AssertionError NestedPath), s).
Proof.
  intros Hidx Henc Hin Hnested. unfold write_tree.
  rewrite (bind_ok _ _ _ _ _ Hidx), bind_run, lift_run.
  rewrite (rmap_raises _ entries e (AssertionError NestedPath)); try done.
  - by rewrite Hnested.
  - eapply Forall_impl; [exact Henc|]. intros x [b Hb]. cbv beta.
    destruct (contains 47 (IndexEntry.path x)); [by left|right].
    unfold tree_entry.
    rewrite encode_app, (encode_ascii (format_int 8 (IndexEntry.mode x))).
    2:{ eapply Forall_impl; [apply (format_int_chars 8); lia|].
        cbv beta. intros c Hc. lia. }
    cbn [mbind result_bind]. rewrite encode_app.
    rewrite (encode_ascii (py " ")) by (by apply ascii_check).
    cbn [mbind result_bind]. rewrite Hb. cbn [mbind result_bind]. eauto.
Qed.

(** X11.  No tree can be written from an index that holds a path with
    a [/] in it: [write_tree] raises the nested-path assertion before it
    stores anything, and so does [commit], which leaves every file as it
    was. *)
Theorem nested_path_stops_commit (s : repo) (entries : list IndexEntry.t)
    (e : IndexEntry.t) (message : str) (author : option str)
    (timestamp timezone : Z) :
  read_index s = (Ok entries, s) ->
  Forall (fun x => exists b, encode (IndexEntry.path x) = Ok b) entries ->
  e ∈ entries ->
  contains 47 (IndexEntry.path e) = true ->
  write_tree zlib_compress s = (Raise (AssertionError NestedPath), s)
  /\ commit zlib_compress message author timestamp timezone s
     = (Raise (AssertionError NestedPath), s).
Proof.
  intros Hidx Henc Hin Hnested.
  pose proof (write_tree_nested s entries e Hidx Henc Hin Hnested) as H.
  split; [exact H|]. unfold commit. by rewrite (bind_raise _ _ _ _ _ H).
Qed.

End Nested.

Lemma nested_path_stops_commit_witness :
  read_index nested_repo = (Ok [sample_entry 3 "a/b"], nested_repo)
  /\ Forall (fun x => exists b, encode (IndexEntry.path x) = Ok b)
            [sample_entry 3 "a/b"]
  /\ sample_entry 3 "a/b" ∈ [sample_entry 3 "a/b"]
  /\ contains 47 (IndexEntry.path (sample_entry 3 "a/b")) = true
  /\ write_tree no_compression nested_repo
     = (Raise (AssertionError NestedPath), nested_repo)
  /\ commit no_compression (py "first") None 1700000000 0 nested_repo
     = (Raise (AssertionError NestedPath), nested_repo).
Proof.
  assert (H1 : read_index nested_repo
               = (Ok [sample_entry 3 "a/b"], nested_repo))
    by (vm_compute; reflexivity).
  assert (H2 : Forall (fun x => exists b, encode (IndexEntry.path x) = Ok b)
                      [sample_entry 3 "a/b"]).
  { apply Forall_cons_2; [|apply Forall_nil_2]. exists (py "a/b").
    vm_compute. reflexivity. }
  assert (H3 : sample_entry 3 "a/b" ∈ [sample_entry 3 "a/b"]) by left.
  assert (H4 : contains 47 (IndexEntry.path (sample_entry 3 "a/b")) = true)
    by reflexivity.
  repeat (split; [assumption|]).
  exact (nested_path_stops_commit no_compression nested_repo _ _
           (py "first") None 1700000000 0 H1 H2 H3 H4).
Defined.

(** ** Status and diff at the edges *)

Section StatusExtras.
Variable zlib_compress : bytes -> bytes.
Variable zlib_decompress : bytes -> result bytes.
Variable splitlines : str -> list str.
Variable unified_diff : list str -> list str -> str -> str -> list str.

Lemma get_status_no_index s :
  index s = None ->
  get_status zlib_compress s
  = (Ok ([], sorted id (elements (live_paths s)), []), s).
Proof.
  intros Hs. unfold get_status. rewrite bind_run. unfold walk_files at 1.
  cbv zeta. rewrite bind_run, (read_index_no_file _ Hs).
  change (by_path []) with (∅ : gmap str IndexEntry.t).
  rewrite dom_empty_L, intersection_empty_r_L, elements_empty.
  cbn [changed_among]. rewrite bind_run. cbn [mret M_ret].
  change (list_to_set []) with (∅ : gset str).
  rewrite difference_empty_L, empty_difference_L, elements_empty.
  reflexivity.
Qed.

(** X12.  Without an index file nothing is tracked: [get_status]
    returns no changed and no deleted path, and its list of new paths
    holds exactly the working paths (the names of the files outside
    every [.git] directory, backslashes written as slashes), in
    ascending order without repetition. *)
Theorem status_without_index (s : repo) :
  index s = None ->
  exists new,
    get_status zlib_compress s = (Ok ([], new, []), s)
    /\ (forall p, p ∈ new <-> working_path s p)
    /\ strictly_ascending new.
Proof.
  intros Hs. exists (sorted id (elements (live_paths s))).
  split; [exact (get_status_no_index s Hs)|]. split.
  - intros p. by rewrite elem_of_sorted, elem_of_elements, live_paths_spec.
  - split; [apply sorted_ascending|]. apply NoDup_sorted, NoDup_elements.
Qed.

Lemma get_status_reads_index s out :
  get_status zlib_compress s = (Ok out, s) ->
  exists entries, read_index s = (Ok entries, s).
Proof.
  unfold get_status. rewrite bind_run. unfold walk_files at 1. cbv zeta.
  rewrite bind_run. pose proof (read_only_read_index s) as Hro.
  destruct (read_index s) as [[entries|e] s'] eqn:Hidx; simpl in Hro; subst s'.
  - eauto.
  - discriminate.
Qed.

(** X13.  When [get_status] finds no changed file, [diff] prints
    nothing and returns, whatever is new or deleted. *)
Theorem diff_without_changes (s : repo) (new deleted : list str) :
  get_status zlib_compress s = (Ok ([], new, deleted), s) ->
  diff zlib_compress zlib_decompress splitlines unified_diff s = (Ok [], s).
Proof.
  intros H. destruct (get_status_reads_index _ _ H) as (entries & Hidx).
  unfold diff. rewrite (bind_ok _ _ _ _ _ H).
  by rewrite (bind_ok _ _ _ _ _ Hidx).
Qed.



End StatusExtras.

Lemma diff_without_changes_witness :
  get_status no_compression one_file_repo
  = (Ok ([], [py "a"], []), one_file_repo)
  /\ diff no_compression no_decompression (fun text => [text])
          (fun a b _ _ => a ++ b) one_file_repo
     = (Ok [], one_file_repo).
Proof.
  assert (H : get_status no_compression one_file_repo
              = (Ok ([], [py "a"], []), one_file_repo))
    by (vm_compute; reflexivity).
  split; [exact H|].
  exact (diff_without_changes no_compression no_decompression
           (fun text => [text]) (fun a b _ _ => a ++ b) one_file_repo
           [py "a"] [] H).
Defined.

Lemma status_without_index_witness :
  index one_file_repo = None
  /\ exists new,
       get_status no_compression one_file_repo
       = (Ok ([], new, []), one_file_repo)
       /\ (forall p, p ∈ new <-> working_path one_file_repo p)
       /\ strictly_ascending new.
Proof.
  assert (H : index one_file_repo = None) by reflexivity.
  split; [exact H|]. exact (status_without_index no_compression _ H).
Defined.


(** ** A tree written and read back *)

Lemma rmap_ext {A B} (f g : A -> result B) (l : list A) :
  Forall (fun x => f x = g x) l -> rmap f l = rmap g l.
Proof.
  induction 1 as [|x l Hx _ IH]; [done|]. cbn [rmap]. by rewrite Hx, IH.
Qed.

Lemma rmap_map {A B C} (f : B -> result C) (h : A -> B) (l : list A) :
  rmap f (map h l) = rmap (fun x => f (h x)) l.
Proof.
  induction l as [|x l IH]; [done|]. cbn [rmap map]. by rewrite IH.
Qed.

Lemma tree_word : kind_word (py "tree").
Proof.
  split; [discriminate|]. split; [by_decide|]. split; by_decide.
Qed.

Section TreeStore.
Variable zlib_compress : bytes -> bytes.
Variable zlib_decompress : bytes -> result bytes.

Lemma write_tree_payload s entries payload :
  read_index s = (Ok entries, s) ->
  Forall flat (map tree_triple entries) ->
  tree_payload (map tree_triple entries) = Ok payload ->
  write_tree zlib_compress s
  = hash_object zlib_compress payload (py "tree") true s.
Proof.
  intros Hidx Hflat Hp. unfold write_tree.
  rewrite (bind_ok _ _ _ _ _ Hidx), bind_run, lift_run.
  unfold tree_payload in Hp. rewrite rmap_map in Hp.
  apply rbind_inv in Hp as (tes & Hr & Hp). apply Ok_inj in Hp. subst payload.
  rewrite (rmap_ext _ (fun x => let '(mode, path, digest) := tree_triple x in
                                tree_entry mode path digest)).
  - by rewrite Hr.
  - rewrite Forall_map in Hflat. eapply Forall_impl; [exact Hflat|].
    intros e He. unfold flat, tree_triple in *. cbv beta iota in *.
    by rewrite He.
Qed.

Lemma write_tree_read_back s entries :
  (forall b, zlib_decompress (zlib_compress b) = Ok b) ->
  read_index s = (Ok entries, s) ->
  Forall triple_ok (map tree_triple entries) ->
  Forall flat (map tree_triple entries) ->
  (length entries <= 1000)%nat ->
  exists payload s1,
    write_tree zlib_compress s = (Ok (object_digest (py "tree") payload), s1)
    /\ read_tree_loop 1000 payload
       = Ok (map listed (map tree_triple entries))
    /\ (stored s (object_digest (py "tree") payload) = None ->
        shard_names_full s (object_digest (py "tree") payload) ->
        read_object zlib_decompress (object_digest (py "tree") payload) s1
        = (Ok (py "tree", payload), s1)).
Proof.
  intros Hz Hidx Hok Hflat Hlen.
  destruct (read_tree_loop_payload _ Hok) as (payload & Hp & Hloop).
  rewrite (write_tree_payload s entries payload Hidx Hflat Hp).
  destruct tree_word as (Hne & Ha & Hsp & Hnul).
  destruct (hash_object_store zlib_compress payload (py "tree") s Ha)
    as (s1 & H & _).
  exists payload, s1. split; [exact H|]. split.
  { rewrite Hloop. rewrite firstn_all2; [done|]. by rewrite !length_map. }
  intros Hnone Hfull.
  destruct (read_back zlib_compress zlib_decompress payload (py "tree") s
              Hz tree_word Hnone Hfull) as (s1' & H' & Hr).
  rewrite H in H'. by injection H' as <-.
Qed.

(** X15.  A tree written from the index reads back as the index lists
    it: when every entry has a flat, non-empty path without white space
    or NUL and a 20-byte digest and there are at most 1000 entries,
    [write_tree] returns a digest, and unless an object was filed under
    that digest before, [read_tree] of it yields mode, path and
    hexadecimal digest of every entry, in index order. *)
Theorem write_tree_then_read_tree (s : repo) (entries : list IndexEntry.t) :
  (forall b, zlib_decompress (zlib_compress b) = Ok b) ->
  read_index s = (Ok entries, s) ->
  Forall triple_ok (map tree_triple entries) ->
  Forall flat (map tree_triple entries) ->
  (length entries <= 1000)%nat ->
  exists tree s1,
    write_tree zlib_compress s = (Ok tree, s1)
    /\ (stored s tree = None -> shard_names_full s tree ->
        read_tree zlib_decompress (Some tree) None s1
        = (Ok (map listed (map tree_triple entries)), s1)).
Proof.
  intros Hz Hidx Hok Hflat Hlen.
  destruct (write_tree_read_back s entries Hz Hidx Hok Hflat Hlen)
    as (payload & s1 & Hw & Hloop & Hr).
  exists (object_digest (py "tree") payload), s1. split; [exact Hw|].
  intros Hnone Hfull. unfold read_tree.
  rewrite bind_run, bind_run, (Hr Hnone Hfull). cbv beta iota.
  rewrite bind_run. unfold assert at 1.
  rewrite bool_decide_eq_true_2 by done. cbn [mret M_ret].
  by rewrite lift_run, Hloop.
Qed.

Lemma pretty_lines entries :
  Forall (fun e => fits32 (IndexEntry.mode e)) entries ->
  mapM pretty_line (map listed (map tree_triple entries))
  = Some (map (fun e => format_06o (IndexEntry.mode e) ++ py " "
                        ++ (if Z.land (IndexEntry.mode e) 61440 =? 16384
                            then py "tree" else py "blob") ++ py " "
                        ++ hex (IndexEntry.sha1 e) ++ [9]
                        ++ IndexEntry.path e)
              entries).
Proof.
  induction 1 as [|e entries He _ IH]; [done|].
  cbn [map mapM]. rewrite IH.
  unfold tree_triple at 1, listed at 1, pretty_line at 1, S_ISDIR.
  unfold fits32 in He.
  replace ((0 <=? IndexEntry.mode e) && (IndexEntry.mode e <? 4294967296))
    with true by (symmetry; apply andb_true_iff; split;
                  [apply Z.leb_le|apply Z.ltb_lt]; lia).
  reflexivity.
Qed.

(** X19.  [cat_file] in mode [pretty] shows a tree written from the
    index entry by entry: under the conditions of the round trip and for
    modes of 32 bits, it prints for every entry the mode in six octal
    digits, [tree] or [blob] by the directory bit of the mode, the digest
    in hexadecimal, a tab and the path. *)
Theorem cat_file_pretty_tree (s : repo) (entries : list IndexEntry.t) :
  (forall b, zlib_decompress (zlib_compress b) = Ok b) ->
  read_index s = (Ok entries, s) ->
  Forall triple_ok (map tree_triple entries) ->
  Forall flat (map tree_triple entries) ->
  (length entries <= 1000)%nat ->
  Forall (fun e => fits32 (IndexEntry.mode e)) entries ->
  exists tree s1,
    write_tree zlib_compress s = (Ok tree, s1)
    /\ (stored s tree = None -> shard_names_full s tree ->
        cat_file zlib_decompress (py "pretty") tree s1
        = (Ok (Printed
                 (map (fun e => format_06o (IndexEntry.mode e) ++ py " "
                                ++ (if Z.land (IndexEntry.mode e) 61440
                                       =? 16384
                                    then py "tree" else py "blob") ++ py " "
                                ++ hex (IndexEntry.sha1 e) ++ [9]
                                ++ IndexEntry.path e)
                      entries)), s1)).
Proof.
  intros Hz Hidx Hok Hflat Hlen Hmodes.
  destruct (write_tree_read_back s entries Hz Hidx Hok Hflat Hlen)
    as (payload & s1 & Hw & Hloop & Hr).
  exists (object_digest (py "tree") payload), s1. split; [exact Hw|].
  intros Hnone Hfull. unfold cat_file.
  rewrite bind_run, (Hr Hnone Hfull). cbv beta iota.
  change (bool_decide (py "pretty" ∈ [py "commit"; py "tree"; py "blob"]))
    with false.
  change (bool_decide (py "pretty" = py "size")) with false.
  change (bool_decide (py "pretty" = py "type")) with false.
  change (bool_decide (py "pretty" = py "pretty")) with true.
  change (bool_decide (py "tree" ∈ [py "commit"; py "blob"])) with false.
  change (bool_decide (py "tree" = py "tree")) with true.
  cbv iota. unfold read_tree. rewrite bind_run, bind_run. cbn [mret M_ret].
  rewrite lift_run, Hloop, (pretty_lines entries Hmodes). reflexivity.
Qed.

(** X18.  [cat_file] shows what [hash_object] stored: for an object
    just stored, mode [size] prints the length of the payload, mode
    [type] prints the kind, and each of the modes [commit], [tree] and
    [blob] writes the payload when it is the kind of the object and
    raises the type error when it is not. *)
Theorem cat_file_of_stored_object (data : bytes) (kind : str) (s : repo) :
  (forall b, zlib_decompress (zlib_compress b) = Ok b) ->
  kind_word kind ->
  stored s (object_digest kind data) = None ->
  shard_names_full s (object_digest kind data) ->
  let d := object_digest kind data in
  let s1 := snd (hash_object zlib_compress data kind true s) in
  cat_file zlib_decompress (py "size") d s1
  = (Ok (Printed [format_int 10 (len data)]), s1)
  /\ cat_file zlib_decompress (py "type") d s1 = (Ok (Printed [kind]), s1)
  /\ forall mode,
       mode ∈ [py "commit"; py "tree"; py "blob"] ->
       cat_file zlib_decompress mode d s1
       = (Ok (if bool_decide (mode = kind) then Wrote data
              else ExpectedObjectType mode kind), s1).
Proof.
  intros Hz Hk Hnone Hfull. cbv zeta.
  destruct (read_back zlib_compress zlib_decompress data kind s
              Hz Hk Hnone Hfull) as (s1 & H & Hr).
  rewrite H. cbn [snd]. unfold cat_file. repeat split.
  - rewrite bind_run, Hr. reflexivity.
  - rewrite bind_run, Hr. reflexivity.
  - intros mode Hmode. rewrite bind_run, Hr. cbv beta iota.
    rewrite (bool_decide_eq_true_2 _ Hmode).
    destruct (decide (mode = kind)) as [->|Hne].
    + rewrite bool_decide_eq_false_2 by (intros H'; by apply H').
      by rewrite bool_decide_eq_true_2.
    + rewrite bool_decide_eq_true_2 by congruence.
      by rewrite bool_decide_eq_false_2.
Qed.

End TreeStore.

Lemma write_tree_then_read_tree_witness :
  (forall b, no_decompression (no_compression b) = Ok b)
  /\ read_index flat_repo = (Ok [sample_entry 1 "a"], flat_repo)
  /\ Forall triple_ok (map tree_triple [sample_entry 1 "a"])
  /\ Forall flat (map tree_triple [sample_entry 1 "a"])
  /\ (length [sample_entry 1 "a"] <= 1000)%nat
  /\ exists tree s1,
       write_tree no_compression flat_repo = (Ok tree, s1)
       /\ (stored flat_repo tree = None -> shard_names_full flat_repo tree ->
           read_tree no_decompression (Some tree) None s1
           = (Ok (map listed (map tree_triple [sample_entry 1 "a"])), s1)).
Proof.
  assert (H1 : forall b, no_decompression (no_compression b) = Ok b)
    by reflexivity.
  assert (H2 : read_index flat_repo = (Ok [sample_entry 1 "a"], flat_repo))
    by (vm_compute; reflexivity).
  assert (H3 : Forall triple_ok (map tree_triple [sample_entry 1 "a"])).
  { apply Forall_cons_2; [|apply Forall_nil_2].
    split; [discriminate|]. split; [by_decide|]. split; [by_decide|].
    split; [exists (py "a"); reflexivity|]. vm_compute. reflexivity. }
  assert (H4 : Forall flat (map tree_triple [sample_entry 1 "a"])).
  { apply Forall_cons_2; [reflexivity|apply Forall_nil_2]. }
  assert (H5 : (length [sample_entry 1 "a"] <= 1000)%nat) by (simpl; lia).
  repeat (split; [assumption|]).
  exact (write_tree_then_read_tree no_compression no_decompression flat_repo
           [sample_entry 1 "a"] H1 H2 H3 H4 H5).
Defined.

(** ** What [add] writes, the other commands read *)

Lemma pack_L_fits x b : pack_L x = Ok b -> fits32 x.
Proof.
  unfold pack_L, fits32. destruct (_ && _) eqn:H; [|discriminate].
  intros _. bool_hyps. lia.
Qed.

Lemma pack_H_fits x b : pack_H x = Ok b -> 0 <= x < 65536.
Proof.
  unfold pack_H. destruct (_ && _) eqn:H; [|discriminate].
  intros _. bool_hyps. lia.
Qed.

Lemma pack_entry_fits e b :
  pack_entry e = Ok b ->
  fields_fit e /\ 0 <= IndexEntry.flags e < 65536
  /\ exists pathb, encode (IndexEntry.path e) = Ok pathb.
Proof.
  unfold pack_entry. intros H.
  apply rbind_inv in H as (f0 & H0 & H). apply rbind_inv in H as (f1 & H1 & H).
  apply rbind_inv in H as (f2 & H2 & H). apply rbind_inv in H as (f3 & H3 & H).
  apply rbind_inv in H as (f4 & H4 & H). apply rbind_inv in H as (f5 & H5 & H).
  apply rbind_inv in H as (f6 & H6 & H). apply rbind_inv in H as (f7 & H7 & H).
  apply rbind_inv in H as (f8 & H8 & H). apply rbind_inv in H as (f9 & H9 & H).
  apply rbind_inv in H as (fl & Hfl & H). cbv zeta in H.
  apply rbind_inv in H as (pathb & Hp & _).
  apply pack_L_fits in H0, H1, H2, H3, H4, H5, H6, H7, H8, H9.
  apply pack_H_fits in Hfl. unfold fields_fit. eauto 15.
Qed.

Lemma rmap_ok_all {A B} (f : A -> result B) (l : list A) : forall ys,
  rmap f l = Ok ys -> Forall (fun x => exists y, f x = Ok y) l.
Proof.
  induction l as [|x l IH]; intros ys H; [apply Forall_nil_2|].
  cbn [rmap] in H. apply rbind_inv in H as (y & Hy & H).
  apply rbind_inv in H as (ys' & Hys & _).
  apply Forall_cons_2; eauto.
Qed.

Lemma pack_index_fits E file :
  pack_index E = Ok file ->
  Forall (fun e => fields_fit e /\ 0 <= IndexEntry.flags e < 65536
                   /\ exists pathb, encode (IndexEntry.path e) = Ok pathb) E.
Proof.
  unfold pack_index. intros H. apply rbind_inv in H as (ps & Hps & _).
  apply rmap_ok_all in Hps. eapply Forall_impl; [exact Hps|].
  intros e [b Hb]. by apply (pack_entry_fits e b).
Qed.

Lemma added_entry_fields f p e :
  added_entry f p e ->
  IndexEntry.path e = p
  /\ IndexEntry.mode e = st_mode (f_stat f)
  /\ length (IndexEntry.sha1 e) = 20%nat
  /\ hex (IndexEntry.sha1 e) = blob_digest (f_data f)
  /\ exists encoded, encode p = Ok encoded /\ IndexEntry.flags e = len encoded.
Proof.
  intros (encoded & digest & Henc & Hd & ->). cbn.
  unfold blob_digest, object_digest in Hd.
  rewrite fromhex_hex in Hd by apply digest_bytes_ok.
  apply Ok_inj in Hd. subst digest.
  split; [done|]. split; [done|]. split; [apply digest_length|].
  split; [done|]. eauto.
Qed.

Lemma by_path_elem l : forall p e,
  by_path l !! p = Some e -> e ∈ l /\ IndexEntry.path e = p.
Proof.
  induction l as [|x l IH] using rev_ind; intros p e.
  { unfold by_path. cbn. by rewrite lookup_empty. }
  rewrite by_path_snoc.
  destruct (decide (IndexEntry.path x = p)) as [<-|Hne].
  - rewrite lookup_insert_eq. intros [= <-]. split; [|done].
    apply elem_of_app. right. left.
  - rewrite lookup_insert_ne by done. intros H. apply IH in H as [H1 H2].
    split; [|done]. apply elem_of_app. by left.
Qed.

Section AddThenRead.
Variable zlib_compress : bytes -> bytes.

(** What [add] has written is what [read_index] reads next. *)
Lemma add_read_back paths s s' old :
  read_index s = (Ok old, s) ->
  Forall entry_ok old ->
  Forall no_nul (map replace_backslash paths) ->
  add zlib_compress paths s = (Ok tt, s') ->
  exists news,
    read_index s'
    = (Ok (sorted IndexEntry.path
             (filter (fun e => IndexEntry.path e ∉ map replace_backslash paths)
                     old ++ news)), s')
    /\ worktree s' = worktree s
    /\ map IndexEntry.path news = map replace_backslash paths
    /\ Forall (fun e => path_fits (IndexEntry.path e)
                        /\ exists f,
                             worktree s !! IndexEntry.path e = Some f
                             /\ added_entry f (IndexEntry.path e) e)
              news.
Proof.
  intros Hidx Hold Hnul Hadd.
  destruct (add_spec zlib_compress paths s s' old Hidx Hadd)
    as (news & file & Hfile & Hpack & Hw & _ & Hpaths & Hnews).
  cbv zeta in *. exists news. split; [|done].
  rewrite (read_index_of_file _ _ Hfile). f_equal.
  apply parse_pack_index; [|done].
  pose proof (pack_index_fits _ _ Hpack) as Hfits.
  rewrite Forall_forall in Hfits. apply Forall_forall. intros e He.
  destruct (Hfits e He) as (Hff & Hfl & Henc).
  apply elem_of_sorted, elem_of_app in He as [He|He].
  - apply list_elem_of_filter in He as [_ He].
    rewrite Forall_forall in Hold. by apply Hold.
  - rewrite Forall_forall in Hnews. destruct (Hnews e He) as (_ & f & _ & Ha).
    apply added_entry_fields in Ha as (_ & _ & Hlen & _).
    split; [done|]. split; [done|]. split; [done|]. split; [|done].
    rewrite Forall_forall in Hnul. apply Hnul. rewrite <- Hpaths.
    apply list_elem_of_fmap. eauto.
Qed.

Lemma added_entry_found paths s s' old p f :
  read_index s = (Ok old, s) ->
  Forall entry_ok old ->
  Forall no_nul (map replace_backslash paths) ->
  add zlib_compress paths s = (Ok tt, s') ->
  p ∈ map replace_backslash paths ->
  worktree s !! p = Some f ->
  exists entries,
    read_index s' = (Ok entries, s')
    /\ worktree s' = worktree s
    /\ (exists e, e ∈ entries /\ IndexEntry.path e = p)
    /\ forall e, e ∈ entries -> IndexEntry.path e = p ->
         path_fits p /\ added_entry f p e.
Proof.
  intros Hidx Hold Hnul Hadd Hp Hf.
  destruct (add_read_back paths s s' old Hidx Hold Hnul Hadd)
    as (news & Hread & Hw & Hpaths & Hnews).
  eexists. split; [exact Hread|]. split; [done|].
  rewrite Forall_forall in Hnews. split.
  - rewrite <- Hpaths in Hp. apply list_elem_of_fmap in Hp as (e & -> & He).
    exists e. split; [|done]. apply elem_of_sorted, elem_of_app. by right.
  - intros e He Hpe. apply elem_of_sorted, elem_of_app in He as [He|He].
    + apply list_elem_of_filter in He as [He _]. by rewrite Hpe in He.
    + destruct (Hnews e He) as (Hfits & f' & Hf' & Ha). rewrite Hpe in *.
      by replace f with f' by congruence.
Qed.

(** X16.  A file that [add] has just put in the index is clean: the
    [get_status] that follows lists its path neither as changed nor as
    new. *)
Theorem added_file_is_clean (paths : list str) (p : str) (s s' : repo)
    (old : list IndexEntry.t) :
  read_index s = (Ok old, s) ->
  Forall entry_ok old ->
  Forall no_nul (map replace_backslash paths) ->
  (forall q, q ∈ live_paths s -> is_Some (worktree s !! q)) ->
  add zlib_compress paths s = (Ok tt, s') ->
  p ∈ map replace_backslash paths ->
  exists changed new deleted,
    get_status zlib_compress s' = (Ok (changed, new, deleted), s')
    /\ (p ∉ changed) /\ (p ∉ new).
Proof.
  intros Hidx Hold Hnul Hlive Hadd Hp.
  assert (Hf : exists f, worktree s !! p = Some f).
  { destruct (add_read_back paths s s' old Hidx Hold Hnul Hadd)
      as (news & _ & _ & Hpaths & Hnews).
    rewrite <- Hpaths in Hp. apply list_elem_of_fmap in Hp as (e & -> & He).
    rewrite Forall_forall in Hnews.
    destruct (Hnews e He) as (_ & f & Hf & _). eauto. }
  destruct Hf as (f & Hf).
  destruct (added_entry_found paths s s' old p f Hidx Hold Hnul Hadd Hp Hf)
    as (entries & Hread & Hw & (e0 & He0 & Hpe0) & Hall).
  assert (Hl : live_paths s' = live_paths s).
  { unfold live_paths, walked. by rewrite Hw. }
  do 3 eexists. split.
  { unfold get_status. rewrite bind_run. unfold walk_files at 1.
    rewrite bind_run, Hread. fold (live_paths s').
    rewrite bind_run, changed_among_spec; [reflexivity|].
    intros q Hq. apply elem_of_elements, elem_of_intersection in Hq as [H1 H2].
    split.
    - rewrite Hw. apply Hlive. by rewrite <- Hl.
    - by apply elem_of_dom. }
  split.
  - rewrite elem_of_sorted, elem_of_elements, elem_of_list_to_set.
    rewrite list_elem_of_filter. intros [Hd _]. revert Hd.
    unfold differs, recorded. rewrite Hw, Hf.
    destruct (by_path entries !! p) as [e|] eqn:He; [|done]. cbn.
    apply by_path_elem in He as [He Hpe].
    destruct (Hall e He Hpe) as [_ Ha].
    apply added_entry_fields in Ha as (_ & _ & _ & Hhex & _).
    rewrite Hhex. by rewrite bool_decide_eq_false_2 by (intros H; by apply H).
  - rewrite elem_of_sorted, elem_of_elements, elem_of_difference.
    intros [_ Hn]. apply Hn, dom_by_path, list_elem_of_fmap. eauto.
Qed.

(** X17.  After [add], [ls_files] with [details] prints for every added
    path a line with the mode [os.stat] gave, the digest of the blob of
    the file's content, stage 0 and the path. *)
Theorem ls_files_after_add (paths : list str) (p : str) (f : file)
    (s s' : repo) (old : list IndexEntry.t) :
  read_index s = (Ok old, s) ->
  Forall entry_ok old ->
  Forall no_nul (map replace_backslash paths) ->
  add zlib_compress paths s = (Ok tt, s') ->
  p ∈ map replace_backslash paths ->
  worktree s !! p = Some f ->
  exists lines,
    ls_files true s' = (Ok lines, s')
    /\ (format_6o (st_mode (f_stat f)) ++ py " " ++ blob_digest (f_data f)
        ++ py " 0" ++ [9] ++ p) ∈ lines.
Proof.
  intros Hidx Hold Hnul Hadd Hp Hf.
  destruct (added_entry_found paths s s' old p f Hidx Hold Hnul Hadd Hp Hf)
    as (entries & Hread & Hw & (e & He & Hpe) & Hall).
  eexists. split.
  { unfold ls_files. rewrite (bind_ok _ _ _ _ _ Hread). reflexivity. }
  apply list_elem_of_fmap. exists e. split; [|done].
  destruct (Hall e He Hpe) as [(b & Hb & Hlen) Ha].
  apply added_entry_fields in Ha as (_ & Hmode & _ & Hhex & enc & Henc & Hfl).
  unfold ls_line. rewrite Hmode, Hhex, Hpe, Hfl.
  assert (enc = b) by congruence. subst enc.
  assert (Hstage : Z.land (Z.shiftr (len b) 12) 3 = 0).
  { rewrite Z.shiftr_div_pow2 by lia.
    rewrite Z.div_small; [done|]. unfold len in *. lia. }
  rewrite Hstage. reflexivity.
Qed.

End AddThenRead.

Lemma one_file_live q :
  q ∈ live_paths one_file_repo -> is_Some (worktree one_file_repo !! q).
Proof.
  assert (E : live_paths one_file_repo = {[ py "a" ]})
    by (vm_compute; reflexivity).
  rewrite E. intros Hq. apply elem_of_singleton in Hq. subst q.
  vm_compute. eauto.
Qed.

Lemma added_file_is_clean_witness :
  read_index one_file_repo = (Ok [], one_file_repo)
  /\ Forall entry_ok []
  /\ Forall no_nul (map replace_backslash [py "a"])
  /\ (forall q, q ∈ live_paths one_file_repo ->
                is_Some (worktree one_file_repo !! q))
  /\ add no_compression [py "a"] one_file_repo = (Ok tt, added_repo)
  /\ py "a" ∈ map replace_backslash [py "a"]
  /\ exists changed new deleted,
       get_status no_compression added_repo
       = (Ok (changed, new, deleted), added_repo)
       /\ (py "a" ∉ changed) /\ (py "a" ∉ new).
Proof.
  assert (H1 : read_index one_file_repo = (Ok [], one_file_repo))
    by reflexivity.
  assert (H2 : Forall entry_ok []) by apply Forall_nil_2.
  assert (H3 : Forall no_nul (map replace_backslash [py "a"])).
  { apply Forall_cons_2; [by_decide|apply Forall_nil_2]. }
  assert (H5 : add no_compression [py "a"] one_file_repo = (Ok tt, added_repo))
    by (vm_compute; reflexivity).
  assert (H6 : py "a" ∈ map replace_backslash [py "a"]) by left.
  split; [exact H1|]. split; [exact H2|]. split; [exact H3|].
  split; [exact one_file_live|]. split; [exact H5|]. split; [exact H6|].
  exact (added_file_is_clean no_compression [py "a"] (py "a") one_file_repo
           added_repo [] H1 H2 H3 one_file_live H5 H6).
Defined.

Lemma ls_files_after_add_witness :
  read_index one_file_repo = (Ok [], one_file_repo)
  /\ Forall entry_ok []
  /\ Forall no_nul (map replace_backslash [py "a"])
  /\ add no_compression [py "a"] one_file_repo = (Ok tt, added_repo)
  /\ py "a" ∈ map replace_backslash [py "a"]
  /\ worktree one_file_repo !! py "a" = Some (sample_file "one")
  /\ exists lines,
       ls_files true added_repo = (Ok lines, added_repo)
       /\ (format_6o (st_mode (f_stat (sample_file "one"))) ++ py " "
           ++ blob_digest (f_data (sample_file "one"))
           ++ py " 0" ++ [9] ++ py "a") ∈ lines.
Proof.
  assert (H1 : read_index one_file_repo = (Ok [], one_file_repo))
    by reflexivity.
  assert (H2 : Forall entry_ok []) by apply Forall_nil_2.
  assert (H3 : Forall no_nul (map replace_backslash [py "a"])).
  { apply Forall_cons_2; [by_decide|apply Forall_nil_2]. }
  assert (H4 : add no_compression [py "a"] one_file_repo = (Ok tt, added_repo))
    by (vm_compute; reflexivity).
  assert (H5 : py "a" ∈ map replace_backslash [py "a"]) by left.
  assert (H6 : worktree one_file_repo !! py "a" = Some (sample_file "one"))
    by (vm_compute; reflexivity).
  repeat (split; [assumption|]).
  exact (ls_files_after_add no_compression [py "a"] (py "a")
           (sample_file "one") one_file_repo added_repo [] H1 H2 H3 H4 H5 H6).
Defined.

Example ls_files_added_repo :
  fst (ls_files true added_repo)
  = Ok [py "100644 5626abf0f72e58d7a153368ba57db4c673c0e171 0" ++ [9]
        ++ py "a"].
Proof. vm_compute. reflexivity. Qed.

(** ** The store stays content-addressed *)

Section Invariant.
Variable zlib_compress : bytes -> bytes.
Variable P : gmap str (gmap str bytes) -> Prop.
Hypothesis P_hash_object : forall data kind s r s1,
  hash_object zlib_compress data kind true s = (r, s1) ->
  P (objects s) -> P (objects s1).

Lemma write_tree_invariant s r s1 :
  write_tree zlib_compress s = (r, s1) -> P (objects s) -> P (objects s1).
Proof using P_hash_object.
  unfold write_tree. rewrite bind_run.
  pose proof (read_only_read_index s) as Hro.
  destruct (read_index s) as [[entries|e] s'] eqn:Hidx; simpl in Hro; subst s'.
  2:{ by intros [= <- <-]. }
  rewrite bind_run, lift_run.
  destruct (rmap _ entries) as [tree_entries|e]; [|by intros [= <- <-]].
  apply P_hash_object.
Qed.

Lemma add_loop_invariant paths : forall acc s r s1,
  add_loop zlib_compress paths acc s = (r, s1) ->
  P (objects s) -> P (objects s1).
Proof using P_hash_object.
  induction paths as [|path paths IH]; intros acc s r s1; cbn [add_loop].
  { by intros [= <- <-]. }
  rewrite bind_run.
  destruct (worktree s !! path) as [f|] eqn:Hf.
  2:{ rewrite (read_work_file_missing _ _ Hf). by intros [= <- <-]. }
  rewrite (read_work_file _ _ _ Hf), bind_run.
  destruct (hash_object zlib_compress (f_data f) (py "blob") true s)
    as [[sha1|e] s0] eqn:Hh;
    pose proof (P_hash_object _ _ _ _ _ Hh) as HP.
  2:{ intros [= <- <-]. auto. }
  rewrite bind_run. unfold os_stat at 1.
  destruct (worktree s0 !! path) as [f0|]; [|intros [= <- <-]; auto].
  rewrite bind_run, lift_run.
  destruct (encode path) as [encoded|e]; [|intros [= <- <-]; auto].
  cbv zeta. rewrite bind_run. unfold assert at 1.
  destruct (len encoded <? 4096); [|intros [= <- <-]; auto].
  rewrite bind_run, lift_run.
  destruct (fromhex sha1) as [digest|e]; [|intros [= <- <-]; auto].
  intros H Hs. apply (IH _ _ _ _ H). auto.
Qed.

Lemma add_invariant paths s r s1 :
  add zlib_compress paths s = (r, s1) -> P (objects s) -> P (objects s1).
Proof using P_hash_object.
  unfold add. cbv zeta. rewrite bind_run.
  pose proof (read_only_read_index s) as Hro.
  destruct (read_index s) as [[old|e] s'] eqn:Hidx; simpl in Hro; subst s'.
  2:{ by intros [= <- <-]. }
  rewrite bind_run.
  destruct (add_loop _ _ _ s) as [[entries|e] s0] eqn:Hl;
    pose proof (add_loop_invariant _ _ _ _ _ Hl) as HP.
  2:{ intros [= <- <-]. auto. }
  destruct (pack_index (sorted IndexEntry.path entries)) as [file|e] eqn:Hp.
  - rewrite (write_index_ok _ _ _ Hp). intros [= <- <-]. cbn [objects]. auto.
  - rewrite (write_index_raise _ _ _ Hp). intros [= <- <-]. auto.
Qed.

Lemma commit_invariant message author timestamp timezone s r s1 :
  commit zlib_compress message author timestamp timezone s = (r, s1) ->
  P (objects s) -> P (objects s1).
Proof using P_hash_object.
  unfold commit. rewrite bind_run.
  destruct (write_tree zlib_compress s) as [[tree|e] s0] eqn:Hwt;
    pose proof (write_tree_invariant _ _ _ Hwt) as HP.
  2:{ intros [= <- <-]. auto. }
  rewrite bind_run, get_local_master_hash_spec.
  destruct (match master s0 with None => _ | Some _ => _ end) as [parent|e].
  2:{ intros [= <- <-]. auto. }
  cbv zeta. rewrite bind_run, lift_run.
  destruct (encode _) as [data|e].
  2:{ intros [= <- <-]. auto. }
  rewrite bind_run.
  destruct (hash_object zlib_compress data (py "commit") true s0)
    as [[sha1|e] s2] eqn:Hh;
    pose proof (P_hash_object _ _ _ _ _ Hh) as HP2.
  2:{ intros [= <- <-]. auto. }
  rewrite bind_run, lift_run.
  destruct (encode (sha1 ++ _)) as [ref|e].
  2:{ intros [= <- <-]. auto. }
  rewrite bind_run. cbn [write_file mret M_ret].
  intros [= <- <-]. cbn [objects]. auto.
Qed.

End Invariant.

Section Addressed.
Variable zlib_compress : bytes -> bytes.

Lemma hash_object_addressed data kind s r s1 :
  hash_object zlib_compress data kind true s = (r, s1) ->
  addressed zlib_compress (objects s) ->
  addressed zlib_compress (objects s1).
Proof.
  intros H Hs.
  destruct (encode (kind ++ py " " ++ format_int 10 (len data)))
    as [header|e] eqn:He.
  2:{ unfold hash_object in H. rewrite bind_run, lift_run, He in H.
      by injection H as <- <-. }
  set (full := header ++ [0] ++ data) in *.
  destruct (stored s (hex (Sha1.digest full))) as [c|] eqn:Hst.
  { rewrite (hash_object_present zlib_compress data kind header s He) in H
      by (fold full; rewrite Hst; eauto).
    by injection H as <- <-. }
  rewrite (hash_object_absent zlib_compress data kind header s He Hst) in H.
  injection H as <- <-. cbn [objects]. fold full.
  set (d := hex (Sha1.digest full)).
  assert (Hd : length d = 40%nat).
  { unfold d. rewrite hex_length, digest_length. lia. }
  intros dir m name raw Hdir Hname.
  destruct (decide (dir = firstn 2 d)) as [->|Hne].
  - rewrite lookup_insert_eq in Hdir. injection Hdir as <-.
    destruct (decide (name = skipn 2 d)) as [->|Hnn].
    + rewrite lookup_insert_eq in Hname. injection Hname as <-.
      rewrite length_take, length_drop, Hd.
      split; [lia|]. split; [lia|]. exists full.
      split; [done|]. by rewrite firstn_skipn.
    + rewrite lookup_insert_ne in Hname by done.
      change (default ∅ (objects s !! firstn 2 d) !! name = Some raw)
        in Hname.
      destruct (objects s !! firstn 2 d) as [m0|] eqn:Hm0;
        cbn [default] in Hname.
      * by apply (Hs _ m0 name raw).
      * by rewrite lookup_empty in Hname.
  - rewrite lookup_insert_ne in Hdir by done. by apply (Hs dir m name raw).
Qed.

(** X20.  The commands keep the object store content-addressed: when
    every object file lies in a two-character directory under a
    38-character name and holds the compressed form of data with that
    digest, the same is true after [hash_object], [add], [write_tree]
    and [commit], whatever they return. *)
Theorem store_stays_addressed (s : repo) :
  addressed zlib_compress (objects s) ->
  (forall data kind write,
     addressed zlib_compress
       (objects (snd (hash_object zlib_compress data kind write s))))
  /\ (forall paths,
        addressed zlib_compress (objects (snd (add zlib_compress paths s))))
  /\ addressed zlib_compress (objects (snd (write_tree zlib_compress s)))
  /\ (forall message author timestamp timezone,
        addressed zlib_compress
          (objects (snd (commit zlib_compress message author timestamp
                           timezone s)))).
Proof.
  intros Hs. split; [|split; [|split]].
  - intros data kind [|].
    + destruct (hash_object _ _ _ _ s) as [r s1] eqn:H.
      exact (hash_object_addressed _ _ _ _ _ H Hs).
    + by rewrite (read_only_hash_object zlib_compress data kind s).
  - intros paths. destruct (add _ _ s) as [r s1] eqn:H.
    exact (add_invariant zlib_compress _ hash_object_addressed _ _ _ _ H Hs).
  - destruct (write_tree _ s) as [r s1] eqn:H.
    exact (write_tree_invariant zlib_compress _ hash_object_addressed
             _ _ _ H Hs).
  - intros message author timestamp timezone.
    destruct (commit _ _ _ _ _ s) as [r s1] eqn:H.
    exact (commit_invariant zlib_compress _ hash_object_addressed
             _ _ _ _ _ _ _ H Hs).
Qed.

End Addressed.

Lemma fresh_addressed zlib_compress :
  addressed zlib_compress (objects fresh_repo).
Proof. intros dir m name raw H. cbn in H. by rewrite lookup_empty in H. Qed.

(** ** Abbreviated digests *)

Lemma startswith_split d p :
  startswith d p = true -> exists rest, d = p ++ rest.
Proof.
  revert d. induction p as [|c p IH]; intros d H.
  { exists d. done. }
  destruct d as [|x d]; [done|]. simpl in H. bool_hyps. subst x.
  destruct (IH d) as [rest ->]; [done|]. by exists rest.
Qed.

Lemma startswith_shard d p :
  2 <= len p -> startswith d p = true ->
  firstn 2 d = firstn 2 p /\ d = firstn 2 p ++ skipn 2 d.
Proof.
  intros Hp H. apply startswith_split in H as [rest ->].
  assert (E : firstn 2 (p ++ rest) = firstn 2 p).
  { apply take_app_le. unfold len in Hp. lia. }
  split; [done|]. by rewrite <- E, firstn_skipn.
Qed.

Lemma matching_name s p d :
  2 <= len p -> is_Some (stored s d) -> startswith d p = true ->
  skipn 2 d ∈ candidates s p.
Proof.
  intros Hp Hd Hs. destruct (startswith_shard d p Hp Hs) as [_ E].
  apply candidates_spec; [done|]. by rewrite <- E.
Qed.

Lemma candidates_NoDup s p : NoDup (candidates s p).
Proof.
  unfold candidates. destruct (objects s !! firstn 2 p).
  - apply NoDup_filter, names_NoDup.
  - apply NoDup_nil_2.
Qed.

(** X21.  [find_object] resolves an abbreviation by the stored digests
    that begin with it: in an existing shard it raises the not-found
    error when there is none, returns the file of the digest when there
    is exactly one, and raises the multiple-objects error when there are
    two. *)
Theorem find_object_by_prefix (s : repo) (p : str) :
  2 <= len p ->
  is_Some (objects s !! firstn 2 p) ->
  ((forall d, is_Some (stored s d) -> startswith d p = false) ->
   find_object p s = (Raise (ValueError ObjectNotFound), s))
  /\ (forall d,
        is_Some (stored s d) -> startswith d p = true ->
        (forall d', is_Some (stored s d') -> startswith d' p = true ->
                    d' = d) ->
        find_object p s = (Ok (ObjectFile (firstn 2 d) (skipn 2 d)), s))
  /\ (forall d1 d2,
        d1 <> d2 ->
        is_Some (stored s d1) -> is_Some (stored s d2) ->
        startswith d1 p = true -> startswith d2 p = true ->
        find_object p s = (Raise (ValueError MultipleObjects), s)).
Proof.
  intros Hp Hshard. rewrite (find_object_listed p s Hp Hshard).
  split; [|split].
  - intros Hnone. destruct (candidates s p) as [|name l] eqn:Hc; [done|].
    assert (Hin : name ∈ candidates s p) by (rewrite Hc; left).
    apply candidates_spec in Hin as [Hst Hsw]; [|done].
    by rewrite (Hnone _ Hst) in Hsw.
  - intros d Hd Hsw Huniq.
    destruct (startswith_shard d p Hp Hsw) as [E2 E].
    rewrite (singleton_list (skipn 2 d) (candidates s p)).
    + by rewrite E2.
    + apply candidates_NoDup.
    + by apply matching_name.
    + intros x Hx. apply candidates_spec in Hx as [Hst Hx]; [|done].
      rewrite <- (Huniq _ Hst Hx). rewrite drop_app_length'; [done|].
      rewrite length_take. unfold len in Hp. lia.
  - intros d1 d2 Hne H1 H2 Hs1 Hs2.
    pose proof (matching_name s p d1 Hp H1 Hs1) as Hin1.
    pose proof (matching_name s p d2 Hp H2 Hs2) as Hin2.
    assert (Hn : skipn 2 d1 <> skipn 2 d2).
    { intros E. apply Hne.
      destruct (startswith_shard d1 p Hp Hs1) as [_ ->].
      destruct (startswith_shard d2 p Hp Hs2) as [_ ->]. by rewrite E. }
    destruct (candidates s p) as [|a [|b l]]; [|exfalso|done].
    + by apply elem_of_nil in Hin1.
    + apply list_elem_of_singleton in Hin1, Hin2. congruence.
Qed.

Lemma find_object_by_prefix_witness :
  2 <= len (py "abc")
  /\ is_Some (objects short_object_repo !! firstn 2 (py "abc"))
  /\ ((forall d, is_Some (stored short_object_repo d) ->
                 startswith d (py "abc") = false) ->
      find_object (py "abc") short_object_repo
      = (Raise (ValueError ObjectNotFound), short_object_repo))
  /\ (forall d,
        is_Some (stored short_object_repo d) ->
        startswith d (py "abc") = true ->
        (forall d', is_Some (stored short_object_repo d') ->
                    startswith d' (py "abc") = true -> d' = d) ->
        find_object (py "abc") short_object_repo
        = (Ok (ObjectFile (firstn 2 d) (skipn 2 d)), short_object_repo))
  /\ (forall d1 d2,
        d1 <> d2 ->
        is_Some (stored short_object_repo d1) ->
        is_Some (stored short_object_repo d2) ->
        startswith d1 (py "abc") = true ->
        startswith d2 (py "abc") = true ->
        find_object (py "abc") short_object_repo
        = (Raise (ValueError MultipleObjects), short_object_repo)).
Proof.
  assert (H1 : 2 <= len (py "abc")) by (vm_compute; discriminate).
  assert (H2 : is_Some (objects short_object_repo !! firstn 2 (py "abc"))).
  { eexists. reflexivity. }
  split; [exact H1|]. split; [exact H2|].
  exact (find_object_by_prefix short_object_repo (py "abc") H1 H2).
Defined.

Example find_object_abbreviated :
  find_object (py "abc") short_object_repo
  = (Ok (ObjectFile (py "ab") (py "cd")), short_object_repo).
Proof. vm_compute. reflexivity. Qed.

(** ** Objects that are not what they say *)

Section Checked.
Variable zlib_compress : bytes -> bytes.
Variable zlib_decompress : bytes -> result bytes.

Lemma read_object_header p s name raw kind n data :
  2 <= len p ->
  candidates s p = [name] ->
  stored s (firstn 2 p ++ name) = Some raw ->
  zlib_decompress raw
  = Ok (kind ++ py " " ++ format_int 10 n ++ [0] ++ data) ->
  kind_word kind ->
  read_object zlib_decompress p s
  = (if n =? len data then Ok (kind, data)
     else Raise (AssertionError ObjectSizeMismatch), s).
Proof.
  intros Hp Hc Hst Hz (Hne & Ha & Hs & Hn).
  assert (Hd : is_Some (objects s !! firstn 2 p)).
  { unfold candidates in Hc. destruct (objects s !! firstn 2 p); [eauto|done]. }
  unfold read_object. rewrite bind_run, find_object_listed, Hc by done.
  rewrite bind_run. unfold read_file.
  assert (H2 : length (firstn 2 p) = 2%nat)
    by (rewrite length_take; unfold len in Hp; lia).
  unfold stored in Hst.
  rewrite take_app_length', drop_app_length' in Hst by done.
  rewrite Hst. rewrite bind_run, lift_run, Hz.
  pose proof (format_int_chars 10 n ltac:(lia)) as Hdigits.
  assert (Hhead : kind ++ py " " ++ format_int 10 n ++ [0] ++ data
                  = (kind ++ py " " ++ format_int 10 n) ++ 0 :: data)
    by (by rewrite <- !app_assoc).
  rewrite Hhead, find_nul_app.
  2:{ unfold no_nul in *. apply Forall_app. split; [exact Hn|].
      apply Forall_app. split; [by_decide|].
      eapply Forall_impl; [exact Hdigits|]. simpl. intros; lia. }
  rewrite bind_run, lift_run, take_app_length.
  rewrite (decode_encode (kind ++ py " " ++ format_int 10 n)).
  2:{ apply encode_ascii, ascii_app; [done|].
      apply ascii_app; [by apply ascii_check|].
      eapply Forall_impl; [exact Hdigits|]. simpl. intros; lia. }
  rewrite split_two;
    [|done|apply format_int_nonempty|done|apply format_int_no_space; lia].
  rewrite bind_run, lift_run, parse_format_int by lia.
  rewrite bind_run.
  replace (skipn (S (length (kind ++ py " " ++ format_int 10 n)))
             ((kind ++ py " " ++ format_int 10 n) ++ 0 :: data))
    with data.
  2:{ generalize (kind ++ py " " ++ format_int 10 n). intros h.
      replace (h ++ 0 :: data) with ((h ++ [0]) ++ data)
        by (by rewrite <- app_assoc).
      symmetry. apply drop_app_length'.
      rewrite length_app. cbn [length]. lia. }
  unfold assert. by destruct (n =? len data).
Qed.

(** X22.  [read_object] checks the length the header announces: for
    the one file that matches the prefix, holding a kind word, a space,
    a decimal number, a NUL and a payload once decompressed, it returns
    kind and payload when the number is the length of the payload and
    raises the size assertion when it is not. *)
Theorem read_object_checks_size (p : str) (s : repo) (name : str)
    (raw : bytes) (kind : str) (n : Z) (data : bytes) :
  2 <= len p ->
  candidates s p = [name] ->
  stored s (firstn 2 p ++ name) = Some raw ->
  zlib_decompress raw
  = Ok (kind ++ py " " ++ format_int 10 n ++ [0] ++ data) ->
  kind_word kind ->
  (n = len data ->
   read_object zlib_decompress p s = (Ok (kind, data), s))
  /\ (n <> len data ->
      read_object zlib_decompress p s
      = (Raise (AssertionError ObjectSizeMismatch), s)).
Proof.
  intros Hp Hc Hst Hz Hk.
  rewrite (read_object_header p s name raw kind n data Hp Hc Hst Hz Hk).
  split; intros H.
  - by rewrite (proj2 (Z.eqb_eq _ _) H).
  - by rewrite (proj2 (Z.eqb_neq _ _) H).
Qed.

(** X23.  The kind of a stored object is checked where it matters: for
    an object just stored whose kind is not [tree], [read_tree] of its
    digest raises the not-a-tree assertion, and when the kind is neither
    [commit] nor [blob] either, [cat_file] in mode [pretty] ends in its
    unhandled-type assertion. *)
Theorem stored_kind_is_checked (data : bytes) (kind : str) (s : repo) :
  (forall b, zlib_decompress (zlib_compress b) = Ok b) ->
  kind_word kind ->
  stored s (object_digest kind data) = None ->
  shard_names_full s (object_digest kind data) ->
  kind <> py "tree" ->
  let d := object_digest kind data in
  let s1 := snd (hash_object zlib_compress data kind true s) in
  read_tree zlib_decompress (Some d) None s1
  = (Raise (AssertionError NotATree), s1)
  /\ (kind ∉ [py "commit"; py "blob"] ->
      cat_file zlib_decompress (py "pretty") d s1
      = (Ok (UnhandledObjectType kind), s1)).
Proof.
  intros Hz Hk Hnone Hfull Hkind. cbv zeta.
  destruct (read_back zlib_compress zlib_decompress data kind s
              Hz Hk Hnone Hfull) as (s1 & H & Hr).
  rewrite H. cbn [snd]. split.
  - unfold read_tree. rewrite bind_run, bind_run, Hr. cbv beta iota.
    rewrite bind_run. unfold assert at 1.
    by rewrite bool_decide_eq_false_2.
  - intros Hother. unfold cat_file. rewrite bind_run, Hr. cbv beta iota.
    change (bool_decide (py "pretty" ∈ [py "commit"; py "tree"; py "blob"]))
      with false.
    change (bool_decide (py "pretty" = py "size")) with false.
    change (bool_decide (py "pretty" = py "type")) with false.
    change (bool_decide (py "pretty" = py "pretty")) with true.
    cbv iota. rewrite (bool_decide_eq_false_2 _ Hother).
    by rewrite bool_decide_eq_false_2.
Qed.

End Checked.

Section StatusPrinted.
Variable zlib_compress : bytes -> bytes.

(** X24.  Without an index file [status] prints no list of changed or
    deleted files: it prints nothing when there is no working path, and
    else the line [new files:] followed by one line per working path, in
    ascending order without repetition, each path after four spaces. *)
Theorem status_without_index_prints_new (s : repo) :
  index s = None ->
  exists new,
    (forall p, p ∈ new <-> working_path s p)
    /\ strictly_ascending new
    /\ status zlib_compress s
       = (Ok (match new with
              | [] => []
              | _ :: _ =>
                  py "new files:" :: map (fun path => py "    " ++ path) new
              end), s).
Proof.
  intros Hs. exists (sorted id (elements (live_paths s))). split.
  { intros p. by rewrite elem_of_sorted, elem_of_elements, live_paths_spec. }
  split.
  { split; [apply sorted_ascending|]. apply NoDup_sorted, NoDup_elements. }
  unfold status.
  rewrite bind_run, (get_status_no_index zlib_compress s Hs).
  cbn [mret M_ret status_section app]. by rewrite app_nil_r.
Qed.

End StatusPrinted.

(** ** The theorems at sample inputs *)

Lemma blob_word : kind_word (py "blob").
Proof.
  split; [discriminate|]. split; [by_decide|]. split; by_decide.
Qed.

Lemma tag_word : kind_word (py "tag").
Proof.
  split; [discriminate|]. split; [by_decide|]. split; by_decide.
Qed.

Lemma cat_file_of_stored_object_witness :
  (forall b, no_decompression (no_compression b) = Ok b)
  /\ kind_word (py "blob")
  /\ stored fresh_repo (object_digest (py "blob") (py "hi")) = None
  /\ shard_names_full fresh_repo (object_digest (py "blob") (py "hi"))
  /\ let d := object_digest (py "blob") (py "hi") in
     let s1 := snd (hash_object no_compression (py "hi") (py "blob") true
                      fresh_repo) in
     cat_file no_decompression (py "size") d s1
     = (Ok (Printed [format_int 10 (len (py "hi"))]), s1)
     /\ cat_file no_decompression (py "type") d s1
        = (Ok (Printed [py "blob"]), s1)
     /\ forall mode,
          mode ∈ [py "commit"; py "tree"; py "blob"] ->
          cat_file no_decompression mode d s1
          = (Ok (if bool_decide (mode = py "blob") then Wrote (py "hi")
                 else ExpectedObjectType mode (py "blob")), s1).
Proof.
  assert (H1 : forall b, no_decompression (no_compression b) = Ok b)
    by reflexivity.
  assert (H3 : stored fresh_repo (object_digest (py "blob") (py "hi")) = None)
    by reflexivity.
  pose proof (fresh_names_full (object_digest (py "blob") (py "hi"))) as H4.
  split; [exact H1|]. split; [exact blob_word|]. split; [exact H3|].
  split; [exact H4|].
  exact (cat_file_of_stored_object no_compression no_decompression (py "hi")
           (py "blob") fresh_repo H1 blob_word H3 H4).
Defined.

Lemma cat_file_pretty_tree_witness :
  (forall b, no_decompression (no_compression b) = Ok b)
  /\ read_index flat_repo = (Ok [sample_entry 1 "a"], flat_repo)
  /\ Forall triple_ok (map tree_triple [sample_entry 1 "a"])
  /\ Forall flat (map tree_triple [sample_entry 1 "a"])
  /\ (length [sample_entry 1 "a"] <= 1000)%nat
  /\ Forall (fun e => fits32 (IndexEntry.mode e)) [sample_entry 1 "a"]
  /\ exists tree s1,
       write_tree no_compression flat_repo = (Ok tree, s1)
       /\ (stored flat_repo tree = None -> shard_names_full flat_repo tree ->
           cat_file no_decompression (py "pretty") tree s1
           = (Ok (Printed
                    (map (fun e => format_06o (IndexEntry.mode e) ++ py " "
                                   ++ (if Z.land (IndexEntry.mode e) 61440
                                          =? 16384
                                       then py "tree" else py "blob")
                                   ++ py " "
                                   ++ hex (IndexEntry.sha1 e) ++ [9]
                                   ++ IndexEntry.path e)
                         [sample_entry 1 "a"])), s1)).
Proof.
  assert (H1 : forall b, no_decompression (no_compression b) = Ok b)
    by reflexivity.
  assert (H2 : read_index flat_repo = (Ok [sample_entry 1 "a"], flat_repo))
    by (vm_compute; reflexivity).
  assert (H3 : Forall triple_ok (map tree_triple [sample_entry 1 "a"])).
  { apply Forall_cons_2; [|apply Forall_nil_2].
    split; [discriminate|]. split; [by_decide|]. split; [by_decide|].
    split; [exists (py "a"); reflexivity|]. vm_compute. reflexivity. }
  assert (H4 : Forall flat (map tree_triple [sample_entry 1 "a"])).
  { apply Forall_cons_2; [reflexivity|apply Forall_nil_2]. }
  assert (H5 : (length [sample_entry 1 "a"] <= 1000)%nat) by (simpl; lia).
  assert (H6 : Forall (fun e => fits32 (IndexEntry.mode e))
                      [sample_entry 1 "a"]).
  { apply Forall_cons_2; [|apply Forall_nil_2]. unfold fits32. cbn. lia. }
  repeat (split; [assumption|]).
  exact (cat_file_pretty_tree no_compression no_decompression flat_repo
           [sample_entry 1 "a"] H1 H2 H3 H4 H5 H6).
Defined.

Lemma store_stays_addressed_witness :
  addressed no_compression (objects fresh_repo)
  /\ (forall data kind write,
        addressed no_compression
          (objects (snd (hash_object no_compression data kind write
                           fresh_repo))))
  /\ (forall paths,
        addressed no_compression
          (objects (snd (add no_compression paths fresh_repo))))
  /\ addressed no_compression
       (objects (snd (write_tree no_compression fresh_repo)))
  /\ (forall message author timestamp timezone,
        addressed no_compression
          (objects (snd (commit no_compression message author timestamp
                           timezone fresh_repo)))).
Proof.
  split; [exact (fresh_addressed no_compression)|].
  exact (store_stays_addressed no_compression fresh_repo
           (fresh_addressed no_compression)).
Defined.

Lemma read_object_checks_size_witness :
  2 <= len (py "abcd")
  /\ candidates short_object_repo (py "abcd") = [py "cd"]
  /\ stored short_object_repo (firstn 2 (py "abcd") ++ py "cd")
     = Some (py "blob 5" ++ [0] ++ py "hi")
  /\ no_decompression (py "blob 5" ++ [0] ++ py "hi")
     = Ok (py "blob" ++ py " " ++ format_int 10 5 ++ [0] ++ py "hi")
  /\ kind_word (py "blob")
  /\ 5 <> len (py "hi")
  /\ read_object no_decompression (py "abcd") short_object_repo
     = (Raise (AssertionError ObjectSizeMismatch), short_object_repo).
Proof.
  assert (H1 : 2 <= len (py "abcd")) by (vm_compute; discriminate).
  assert (H2 : candidates short_object_repo (py "abcd") = [py "cd"])
    by (vm_compute; reflexivity).
  assert (H3 : stored short_object_repo (firstn 2 (py "abcd") ++ py "cd")
               = Some (py "blob 5" ++ [0] ++ py "hi"))
    by (vm_compute; reflexivity).
  assert (H4 : no_decompression (py "blob 5" ++ [0] ++ py "hi")
               = Ok (py "blob" ++ py " " ++ format_int 10 5 ++ [0]
                     ++ py "hi")) by reflexivity.
  assert (H5 : 5 <> len (py "hi")) by (vm_compute; discriminate).
  split; [exact H1|]. split; [exact H2|]. split; [exact H3|].
  split; [exact H4|]. split; [exact blob_word|]. split; [exact H5|].
  exact (proj2 (read_object_checks_size no_decompression (py "abcd")
                  short_object_repo (py "cd") _ (py "blob") 5 (py "hi")
                  H1 H2 H3 H4 blob_word) H5).
Defined.

Lemma stored_kind_is_checked_witness :
  (forall b, no_decompression (no_compression b) = Ok b)
  /\ kind_word (py "tag")
  /\ stored fresh_repo (object_digest (py "tag") (py "hi")) = None
  /\ shard_names_full fresh_repo (object_digest (py "tag") (py "hi"))
  /\ py "tag" <> py "tree"
  /\ let d := object_digest (py "tag") (py "hi") in
     let s1 := snd (hash_object no_compression (py "hi") (py "tag") true
                      fresh_repo) in
     read_tree no_decompression (Some d) None s1
     = (Raise (AssertionError NotATree), s1)
     /\ (py "tag" ∉ [py "commit"; py "blob"] ->
         cat_file no_decompression (py "pretty") d s1
         = (Ok (UnhandledObjectType (py "tag")), s1)).
Proof.
  assert (H1 : forall b, no_decompression (no_compression b) = Ok b)
    by reflexivity.
  assert (H3 : stored fresh_repo (object_digest (py "tag") (py "hi")) = None)
    by reflexivity.
  pose proof (fresh_names_full (object_digest (py "tag") (py "hi"))) as H4.
  assert (H5 : py "tag" <> py "tree") by discriminate.
  split; [exact H1|]. split; [exact tag_word|]. split; [exact H3|].
  split; [exact H4|]. split; [exact H5|].
  exact (stored_kind_is_checked no_compression no_decompression (py "hi")
           (py "tag") fresh_repo H1 tag_word H3 H4 H5).
Defined.

Lemma status_without_index_prints_new_witness :
  index one_file_repo = None
  /\ exists new,
       (forall p, p ∈ new <-> working_path one_file_repo p)
       /\ strictly_ascending new
       /\ status no_compression one_file_repo
          = (Ok (match new with
                 | [] => []
                 | _ :: _ =>
                     py "new files:"
                     :: map (fun path => py "    " ++ path) new
                 end), one_file_repo).
Proof.
  assert (H : index one_file_repo = None) by reflexivity.
  split; [exact H|].
  exact (status_without_index_prints_new no_compression _ H).
Defined.

Example status_one_file_repo :
  fst (status no_compression one_file_repo)
  = Ok [py "new files:"; py "    a"].
Proof. vm_compute. reflexivity. Qed.
